(** * Relion 3.1 star-file conversion: a verification model

    A shallow embedding of [relion/convert/convert_utils.py] and
    [relion/convert/convert31.py].  Python [int] is [Z], Python [str] is
    [string], an [OrderedDict] is an association list in insertion order,
    and a numpy/Python [float] is idealised as a real number of [R]
    (rounding is not modelled). *)

From Stdlib Require Import ZArith NArith List Bool Ascii String Decimal DecimalString.
From Stdlib Require Import DecimalN Lia Reals Lra.
From Stdlib Require DecimalPos DecimalFacts.
Import ListNotations.

Open Scope string_scope.
Open Scope Z_scope.

Set Default Proof Using "Type".

(* ================================================================== *)
(** * Part I: definitions *)
(* ================================================================== *)

(** ** Python string primitives used by the converters *)

Module PyStr.

(** [c in s] for a one-character [c]. *)
Fixpoint contains_char (c : ascii) (s : string) : bool :=
  match s with
  | EmptyString => false
  | String a r => if Ascii.eqb a c then true else contains_char c r
  end.

(** [s.split(sep)] for a one-character separator: always a non-empty
    list, one more piece than there are separators. *)
Fixpoint split_on (sep : ascii) (s : string) : list string :=
  match s with
  | EmptyString => [EmptyString]
  | String a r =>
      if Ascii.eqb a sep then EmptyString :: split_on sep r
      else match split_on sep r with
           | h :: t => String a h :: t
           | [] => [String a EmptyString]
           end
  end.

(** Every character of [s] satisfies [p]. *)
Fixpoint all_chars (p : ascii -> bool) (s : string) : bool :=
  match s with
  | EmptyString => true
  | String a r => p a && all_chars p r
  end.

(** [c.isdigit()] for an ASCII character. *)
Definition is_digit (a : ascii) : bool :=
  let n := nat_of_ascii a in ((48 <=? n) && (n <=? 57))%nat.

(** ['0' * k] *)
Fixpoint zeros (k : nat) : string :=
  match k with
  | O => EmptyString
  | S k' => String "0" (zeros k')
  end.

(** Decimal digits of a natural number, as [str(n)] prints them. *)
Definition decimal (n : N) : string :=
  NilZero.string_of_uint (N.to_uint n).

(** Left padding with ['0'] up to [width] characters; a longer string
    is left as it is. *)
Definition zfill (width : nat) (digits : string) : string :=
  zeros (width - String.length digits) ++ digits.

(** ["%0<width>d" % z]: the sign counts in the width and the zeros
    come after it. *)
Definition fmt_0d (width : nat) (z : Z) : string :=
  match z with
  | Zneg p => String "-" (zfill (width - 1) (decimal (Npos p)))
  | _ => zfill width (decimal (Z.to_N z))
  end.

(** Whitespace in the sense of [str.strip()] (ASCII part). *)
Definition is_space (a : ascii) : bool :=
  let n := nat_of_ascii a in
  ((9 <=? n) && (n <=? 13) || (n =? 32))%nat.

Fixpoint lstrip (s : string) : string :=
  match s with
  | EmptyString => EmptyString
  | String a r => if is_space a then lstrip r else s
  end.

Fixpoint rstrip (s : string) : string :=
  match s with
  | EmptyString => EmptyString
  | String a r =>
      match rstrip r with
      | EmptyString => if is_space a then EmptyString else String a EmptyString
      | r' => String a r'
      end
  end.

Definition strip (s : string) : string := rstrip (lstrip s).

(** The digit grouping of an integer literal: single underscores are
    allowed between two digits and are dropped; [None] when one stands
    first, last or next to another one, or when there is no digit. *)
Fixpoint drop_underscores (after_digit : bool) (s : string) : option string :=
  match s with
  | EmptyString => if after_digit then Some EmptyString else None
  | String a r =>
      if Ascii.eqb a "_" then
        if after_digit then drop_underscores false r else None
      else option_map (String a) (drop_underscores true r)
  end.

(** A non-empty run of ASCII digits read in base ten. *)
Definition parse_digits (s : string) : option N :=
  match s with
  | EmptyString => None
  | _ => option_map N.of_uint (NilEmpty.uint_of_string s)
  end.

(** [int(s)] on a string: surrounding whitespace, an optional sign,
    then decimal digits; [None] stands for [ValueError]. *)
Definition py_int (s : string) : option Z :=
  let t := strip s in
  let '(neg, body) :=
    match t with
    | String "-" r => (true, r)
    | String "+" r => (false, r)
    | _ => (false, t)
    end in
  match drop_underscores false body with
  | None => None
  | Some ds =>
      option_map (fun n => if neg : bool then Z.opp (Z.of_N n) else Z.of_N n)
                 (parse_digits ds)
  end.

(** Split at the first character that satisfies [p]; the second part
    is [None] when there is no such character. *)
Fixpoint split_first (p : ascii -> bool) (s : string) : string * option string :=
  match s with
  | EmptyString => (EmptyString, None)
  | String a r =>
      if p a then (EmptyString, Some r)
      else let '(h, t) := split_first p r in (String a h, t)
  end.

(** A [digitpart] of a float literal: digits with single underscores
    between them. *)
Definition digitpart (s : string) : option string :=
  match drop_underscores false s with
  | Some ds => if all_chars is_digit ds then Some ds else None
  | None => None
  end.

(** A [digitpart] that may be missing. *)
Definition opt_digitpart (s : string) : option string :=
  match s with
  | EmptyString => Some EmptyString
  | _ => digitpart s
  end.

(** A decimal float literal read as a signed mantissa and a power of
    ten: surrounding whitespace, an optional sign, digits with an
    optional point (digits on at least one side of it), and an optional
    exponent [e] or [E] with an optional sign. *)
Definition float_literal (s : string) : option (Z * Z) :=
  let t := strip s in
  let '(neg, body) :=
    match t with
    | String "-" r => (true, r)
    | String "+" r => (false, r)
    | _ => (false, t)
    end in
  let '(number, exponent) :=
    split_first (fun a => Ascii.eqb a "e" || Ascii.eqb a "E") body in
  let exponent : option Z :=
    match exponent with
    | None => Some 0
    | Some e =>
        let '(eneg, edigits) :=
          match e with
          | String "-" r => (true, r)
          | String "+" r => (false, r)
          | _ => (false, e)
          end in
        match digitpart edigits with
        | Some ds =>
            option_map (fun n => if eneg : bool then Z.opp (Z.of_N n) else Z.of_N n)
                       (parse_digits ds)
        | None => None
        end
    end in
  let digits : option (string * string) :=
    match split_first (fun a => Ascii.eqb a ".") number with
    | (ip, None) => option_map (fun d => (d, EmptyString)) (digitpart ip)
    | (ip, Some fp) =>
        match opt_digitpart ip, opt_digitpart fp with
        | Some EmptyString, Some EmptyString => None
        | Some di, Some df => Some (di, df)
        | _, _ => None
        end
    end in
  match digits, exponent with
  | Some (di, df), Some e =>
      option_map
        (fun n => (if neg : bool then Z.opp (Z.of_N n) else Z.of_N n,
                   e - Z.of_nat (String.length df)))
        (parse_digits (di ++ df))
  | _, _ => None
  end.

(** [float(s)] on a string that holds a decimal literal: the number the
    literal denotes, [None] standing for [ValueError].  The names [inf],
    [infinity] and [nan], which [float] also accepts, denote no real
    number and have no value here. *)
Definition py_float (s : string) : option R :=
  option_map (fun me => (IZR (fst me) * powerRZ 10 (snd me))%R) (float_literal s).

End PyStr.

(** ** Python dictionaries with string keys

    A [dict] (and an [OrderedDict]) keeps its keys in insertion order;
    assigning to a key that is present replaces the value in place. *)

Module Dict.

Definition t (V : Type) : Type := list (string * V).

Section Ops.
Context {V : Type}.

(** [d.get(k)]: [None] when the key is absent. *)
Fixpoint get (d : t V) (k : string) : option V :=
  match d with
  | [] => None
  | (k', v) :: r => if String.eqb k' k then Some v else get r k
  end.

(** [k in d] *)
Definition mem (d : t V) (k : string) : bool :=
  match get d k with Some _ => true | None => false end.

(** [d[k] = v] *)
Fixpoint set (d : t V) (k : string) (v : V) : t V :=
  match d with
  | [] => [(k, v)]
  | (k', v') :: r =>
      if String.eqb k' k then (k', v) :: r else (k', v') :: set r k v
  end.

(** A dict display [{k1: v1, k2: v2, ...}]: a repeated key keeps its
    first position and takes the last value. *)
Definition of_list (l : list (string * V)) : t V :=
  fold_left (fun d kv => set d (fst kv) (snd kv)) l [].

Definition keys (d : t V) : list string := map fst d.
Definition values (d : t V) : list V := map snd d.
Definition len (d : t V) : Z := Z.of_nat (List.length d).
End Ops.

End Dict.

(** ** [convert_utils.py]: location strings *)

Module Location.
Import PyStr.

Section WithSentinel.
(** [pwem.NO_INDEX], the index of an image that is not in a stack. *)
Variable NO_INDEX : Z.

(** [locationToRelion(index, filename)] *)
Definition locationToRelion (index : Z) (filename : string) : string :=
  if negb (index =? NO_INDEX) then
    fmt_0d 6 index ++ "@" ++ filename
  else filename.

(** [relionToLocation(filename)]; [None] when the unpacking of the
    split or [int()] raises. *)
Definition relionToLocation (filename : string) : option (Z * string) :=
  if contains_char "@" filename then
    match split_on "@" filename with
    | [indexStr; fn] =>
        match py_int indexStr with
        | Some i => Some (i, fn)
        | None => None
        end
    | _ => None
    end
  else Some (NO_INDEX, filename).
End WithSentinel.

End Location.

(** ** [convert_utils.py]: materialising the binary files

    The disk is what stands at each path (a file, a directory, or a
    symbolic link with the path it points to), together with the list of
    what was done to it; what the functions print is left out.  Paths
    are the names the planner builds, relative to the working directory
    and in normal form; an entry is found under its own name (a path
    below a linked directory is not looked up through the link). *)

Module Assets.
Import PyStr.

(** What stands at a path. *)
Inductive node :=
| File
| Dir
| Link (target : string).   (* the path the link points to *)

(** The disk; the first entry of a path is the one in force. *)
Definition FS := list (string * node).

(** [os.lstat(p)]: the entry at [p] itself, a link not followed. *)
Definition lookup (fs : FS) (p : string) : option node := Dict.get fs p.

(** Following links from [p]; [fuel] bounds the number of entries
    looked at. *)
Fixpoint stat_from (fuel : nat) (fs : FS) (p : string) : option node :=
  match fuel with
  | O => None
  | S fuel' =>
      match lookup fs p with
      | Some (Link target) => stat_from fuel' fs target
      | other => other
      end
  end.

(** [os.stat(p)], links followed: the file or directory [p] leads to;
    [None] for the empty path, a missing path, a link that leads nowhere
    and a loop of links.  A chain of links without a loop is not longer
    than the disk. *)
Definition stat (fs : FS) (p : string) : option node :=
  if String.eqb p "" then None else stat_from (S (List.length fs)) fs p.

(** [os.path.exists(p)] and [os.path.isdir(p)] *)
Definition path_exists (fs : FS) (p : string) : bool :=
  match stat fs p with Some _ => true | None => false end.

Definition isdir (fs : FS) (p : string) : bool :=
  match stat fs p with Some Dir => true | _ => false end.

(** What the planner did on disk, in order. *)
Inductive action :=
| Symlink (src dst : string)       (* os.symlink(src, dst) *)
| CreateLink (src dst : string)    (* pwutils.createLink(src, dst) *)
| MakePath (p : string)            (* pwutils.makePath(p) creating p *)
| ConvertStack (src dst : string). (* ImageHandler.convertStack(src, dst) *)

(** The world threaded through a planning pass. *)
Record world := { fs : FS; log : list action }.

(** [newFn in values] *)
Definition in_values (newFn : string) (values : list string) : bool :=
  existsb (String.eqb newFn) values.

(** ['%s_%05d.%s' % (newRoot, counter, extension)] *)
Definition suffixed (newRoot : string) (counter : Z) (extension : string) : string :=
  newRoot ++ "_" ++ fmt_0d 5 counter ++ "." ++ extension.

(** The [while newFn in values] loop of [getUniqueFileName]; [fuel]
    bounds the number of tests of the condition. *)
Fixpoint unique_loop (fuel : nat) (values : list string)
         (newRoot extension : string) (counter : Z) (newFn : string)
  : option string :=
  match fuel with
  | O => None
  | S fuel' =>
      if in_values newFn values then
        let counter := counter + 1 in
        unique_loop fuel' values newRoot extension counter
                    (suffixed newRoot counter extension)
      else Some newFn
  end.

Inductive mapFunc := convertStack | replaceRoot | createBinaryLink.

(** Every path of [w] still exists in [w']. *)
Definition world_le (w w' : world) : Prop :=
  forall p, path_exists (fs w) p = true -> path_exists (fs w') p = true.

(** The branch of the [if forceConvert ... elif ... else] chain taken,
    as the [mapFunc] it selects. *)
Definition selected (endswith : string -> string -> bool)
           (forceConvert : bool) (ext extension : string) : option mapFunc :=
  if forceConvert then Some convertStack
  else if String.eqb ext extension then Some replaceRoot
  else if String.eqb ext "mrc" && String.eqb extension "mrcs"
       then Some createBinaryLink
  else if endswith ext "hdf" then Some convertStack
  else None.

Section Planner.
(** Path helpers of [os.path] and [pyworkflow.utils], and the two
    string operations [str.replace] and [a in b].  [os.path.relpath]
    raises [ValueError] on an empty path, which is [None]. *)
Variable path_join : string -> string -> string.
Variable relpath : string -> string -> option string.
Variable dirname basename : string -> string.
Variable replaceBaseExt : string -> string -> string.
Variable removeExt getExt : string -> string.
Variable commonPath : list string -> string.
Variable str_replace : string -> string -> string -> string.
Variable is_substring : string -> string -> bool.
Variable endswith : string -> string -> bool.
(** [os.path.normpath], by which the system finds what the text of a
    relative link points to. *)
Variable normpath : string -> string.

(** A new entry can be made at [p]: [p] is not empty and the directory
    it goes into exists (the working directory when [dirname p] is
    empty). *)
Definition has_parent (fs : FS) (p : string) : bool :=
  negb (String.eqb p "")
  && (String.eqb (dirname p) "" || isdir fs (dirname p)).

(** [os.symlink(src, dst)]: [FileExistsError] when anything stands at
    [dst], a link that leads nowhere included; [FileNotFoundError] when
    the directory of [dst] is missing.  The text [src] of the link is
    read from the directory of [dst]. *)
Definition os_symlink (src dst : string) (w : world) : option world :=
  match lookup (fs w) dst with
  | Some _ => None
  | None =>
      if has_parent (fs w) dst then
        Some {| fs := (dst, Link (normpath (path_join (dirname dst) src))) :: fs w;
                log := log w ++ [Symlink src dst] |}
      else None
  end.

(** [pwutils.createLink(src, dst)] makes [dst] a relative link to the
    path [src]: a link standing at [dst] is removed first, a file or a
    directory there is an error, and so is a missing directory for
    [dst].  The text of the link is
    [join(relpath(dirname(src), dirname(dst)), basename(src))], which
    leads to [src]; [relpath] raises when [src] names no directory.
    Whether [src] exists plays no part. *)
Definition createLink (src dst : string) (w : world) : option world :=
  match lookup (fs w) dst with
  | Some File | Some Dir => None
  | _ =>
      match relpath (dirname src) (dirname dst) with
      | None => None
      | Some _ =>
          if has_parent (fs w) dst then
            Some {| fs := (dst, Link src) :: fs w;
                    log := log w ++ [CreateLink src dst] |}
          else None
      end
  end.

(** [os.makedirs(p)]: the missing directories down to [p] are made;
    [None] when something that is no directory is in the way, a link
    that leads nowhere included.  [fuel] bounds the number of
    directories made; [dirname] shortens a path, so the length of [p]
    is enough. *)
Fixpoint makedirs (fuel : nat) (p : string) (fs : FS) : option FS :=
  match fuel with
  | O => None
  | S fuel' =>
      if String.eqb p "" then Some fs
      else match lookup fs p with
           | Some _ => if isdir fs p then Some fs else None
           | None =>
               match makedirs fuel' (dirname p) fs with
               | Some fs' => Some ((p, Dir) :: fs')
               | None => None
               end
           end
  end.

(** [pwutils.makePath(p)]: [os.makedirs(p)] unless [p] exists or is
    empty. *)
Definition makePath (p : string) (w : world) : option world :=
  if path_exists (fs w) p || String.eqb p "" then Some w
  else match makedirs (S (String.length p)) p (fs w) with
       | Some fs' => Some {| fs := fs'; log := log w ++ [MakePath p] |}
       | None => None
       end.

(** [ih.convertStack(src, dst)] reads the stack [src] and writes the
    file [dst]: it raises when [src] does not exist, when the directory
    of [dst] is missing and when [dst] is a directory. *)
Definition ih_convertStack (src dst : string) (w : world) : option world :=
  if path_exists (fs w) src && has_parent (fs w) dst && negb (isdir (fs w) dst)
  then Some {| fs := (dst, File) :: fs w;
               log := log w ++ [ConvertStack src dst] |}
  else None.

Section Closures.
(** The variables the inner functions close over. *)
Variable outputRoot extension rootDir : string.

(** [getUniqueFileName(fn, extension)], reading the current
    [filesDict]. *)
Definition getUniqueFileName (filesDict : Dict.t string)
           (fn ext : string) : option string :=
  let newFn := path_join outputRoot (replaceBaseExt fn ext) in
  let newRoot := removeExt newFn in
  let values := Dict.values filesDict in
  unique_loop (2 + List.length values) values newRoot ext 1 newFn.

(** One call [mapFunc(fn)]: the new name and the world after it. *)
Definition call (f : mapFunc) (filesDict : Dict.t string) (fn : string)
           (w : world) : option (string * world) :=
  match f with
  | createBinaryLink =>
      match getUniqueFileName filesDict fn extension with
      | None => None
      | Some newFn =>
          if negb (path_exists (fs w) newFn)
          then match createLink fn newFn w with
               | Some w' => Some (newFn, w')
               | None => None
               end
          else Some (newFn, w)
      end
  | convertStack =>
      match getUniqueFileName filesDict fn "mrcs" with
      | None => None
      | Some newFn =>
          match ih_convertStack fn newFn w with
          | Some w' => Some (newFn, w')
          | None => None
          end
      end
  | replaceRoot => Some (str_replace fn rootDir outputRoot, w)
  end.

(** [for fn in stackFiles: filesDict[fn] = mapFunc(fn)] *)
Fixpoint map_files (f : mapFunc) (stackFiles : list string)
         (filesDict : Dict.t string) (w : world)
  : option (Dict.t string * world) :=
  match stackFiles with
  | [] => Some (filesDict, w)
  | fn :: rest =>
      match call f filesDict fn w with
      | None => None
      | Some (newFn, w') => map_files f rest (Dict.set filesDict fn newFn) w'
      end
  end.
End Closures.

(** The text of the link made at the output root in the relocating
    branch. *)
Definition relativeOutput (rootDir outputRoot : string) : option string :=
  if is_substring rootDir outputRoot
  then option_map (fun r => path_join r (basename rootDir))
                  (relpath rootDir outputRoot)
  else relpath rootDir (dirname outputRoot).

(** [convertBinaryFiles(imgSet, outputDir, extension, forceConvert)],
    with [stackFiles] the files of [imgSet.getFiles()] in the order the
    set is iterated in. *)
Definition convertBinaryFiles (stackFiles : list string)
           (outputDir extension : string) (forceConvert : bool)
           (w : world) : option (Dict.t string * world) :=
  let filesDict : Dict.t string := [] in
  let outputRoot :=
    if forceConvert then outputDir else path_join outputDir "input" in
  match stackFiles with
  | [] => None (* next(iter(stackFiles)) raises StopIteration *)
  | first :: _ =>
      let ext := match getExt first with
                 | EmptyString => EmptyString
                 | String _ r => r
                 end in
      let rootDir := commonPath stackFiles in
      let chosen : option (option mapFunc * world) :=
        if forceConvert then Some (Some convertStack, w)
        else if String.eqb ext extension then
          match relativeOutput rootDir outputRoot with
          | None => None
          | Some relativeOutput =>
              if negb (path_exists (fs w) outputRoot) then
                match os_symlink relativeOutput outputRoot w with
                | None => None
                | Some w' => Some (Some replaceRoot, w')
                end
              else Some (Some replaceRoot, w)
          end
        else if String.eqb ext "mrc" && String.eqb extension "mrcs" then
          Some (Some createBinaryLink, w)
        else if endswith ext "hdf" then Some (Some convertStack, w)
        else Some (None, w) in
      match chosen with
      | None => None
      | Some (None, w') => Some (filesDict, w')
      | Some (Some f, w') =>
          match makePath outputRoot w' with
          | None => None
          | Some w'' =>
              map_files outputRoot extension rootDir f stackFiles filesDict w''
          end
      end
  end.
End Planner.

End Assets.

(** ** Path helpers on relative paths

    Executable stand-ins for the helpers of [os.path] and
    [pyworkflow.utils] that [convertBinaryFiles] calls, on relative
    paths without doubled separators.  The planner and its properties
    are stated for arbitrary helpers; these serve the worked examples. *)

Module OsPath.
Import PyStr.

(** Split at the last occurrence of [c]. *)
Fixpoint rsplit (c : ascii) (s : string) : option (string * string) :=
  match s with
  | EmptyString => None
  | String a r =>
      match rsplit c r with
      | Some (h, t) => Some (String a h, t)
      | None => if Ascii.eqb a c then Some (EmptyString, r) else None
      end
  end.

Definition path_join (a b : string) : string :=
  match b with
  | String "/" _ => b
  | _ =>
      match rsplit "/" a with
      | Some (_, EmptyString) => a ++ b
      | _ => if String.eqb a "" then b else a ++ "/" ++ b
      end
  end.

Definition basename (p : string) : string :=
  match rsplit "/" p with Some (_, t) => t | None => p end.

Definition dirname (p : string) : string :=
  match rsplit "/" p with Some (h, _) => h | None => EmptyString end.

(** [os.path.splitext]: the extension starts at the last dot of the
    base name, unless only dots come before it. *)
Definition splitext (p : string) : string * string :=
  match rsplit "." p with
  | Some (h, t) =>
      if contains_char "/" t then (p, EmptyString)
      else if all_chars (fun a => Ascii.eqb a ".") (basename h)
           then (p, EmptyString)
           else (h, String "." t)
  | None => (p, EmptyString)
  end.

Definition removeExt (p : string) : string := fst (splitext p).
Definition getExt (p : string) : string := snd (splitext p).
Definition replaceBaseExt (p ext : string) : string :=
  removeExt (basename p) ++ "." ++ ext.

Fixpoint commonprefix2 (a b : string) : string :=
  match a, b with
  | String x a', String y b' =>
      if Ascii.eqb x y then String x (commonprefix2 a' b') else EmptyString
  | _, _ => EmptyString
  end.

Definition commonPath (l : list string) : string :=
  match l with
  | [] => EmptyString
  | x :: r => dirname (fold_left commonprefix2 r x)
  end.

Fixpoint drop_common (a b : list string) : list string * list string :=
  match a, b with
  | x :: a', y :: b' => if String.eqb x y then drop_common a' b' else (a, b)
  | _, _ => (a, b)
  end.

(** The components of a path, without the empty ones and the dots. *)
Definition parts (p : string) : list string :=
  filter (fun s => negb (String.eqb s "") && negb (String.eqb s "."))
         (split_on "/" p).

(** The components with each [".."] taken against the component before
    it; [seen] holds the components passed, last first. *)
Fixpoint collapse (seen todo : list string) : list string :=
  match todo with
  | [] => List.rev seen
  | x :: r =>
      if String.eqb x ".." then
        match seen with
        | y :: seen' =>
            if String.eqb y ".." then collapse (x :: seen) r
            else collapse seen' r
        | [] => collapse [x] r
        end
      else collapse (x :: seen) r
  end.

(** [os.path.normpath] on a relative path. *)
Definition normpath (p : string) : string :=
  match collapse [] (parts p) with
  | [] => "."
  | l => String.concat "/" l
  end.

(** [os.path.relpath(p, start)] for a path [p] that is not empty. *)
Definition relpath_nonempty (p start : string) : string :=
  let '(pr, sr) :=
    drop_common (collapse [] (parts p)) (collapse [] (parts start)) in
  match (repeat ".." (List.length sr) ++ pr)%list with
  | [] => "."
  | l => String.concat "/" l
  end.

(** [os.path.relpath(p, start)]: [ValueError] on an empty path. *)
Definition relpath (p start : string) : option string :=
  if String.eqb p "" then None else Some (relpath_nonempty p start).

Definition is_substring (a b : string) : bool :=
  match String.index 0 a b with Some _ => true | None => false end.

Definition endswith (s suffix : string) : bool :=
  String.eqb
    (String.substring (String.length s - String.length suffix)
                      (String.length suffix) s)
    suffix
  && (String.length suffix <=? String.length s)%nat.

(** [s.replace(old, new)] for a non-empty [old]; [skip] counts the
    characters of a match still to be passed over. *)
Fixpoint replace_from (old new : string) (skip : nat) (s : string) : string :=
  match s with
  | EmptyString => EmptyString
  | String a r =>
      match skip with
      | S k => replace_from old new k r
      | O =>
          if String.prefix old s
          then new ++ replace_from old new (String.length old - 1) r
          else String a (replace_from old new 0 r)
      end
  end.

Definition str_replace (s old new : string) : string :=
  if String.eqb old "" then s else replace_from old new 0 s.

(** [convertBinaryFiles] with these helpers. *)
Definition convertBinaryFiles :=
  Assets.convertBinaryFiles path_join relpath dirname basename
    replaceBaseExt removeExt getExt commonPath str_replace
    is_substring endswith normpath.

(** A project directory: two runs that each hold a stack
    [particles.mrc], a run with two [mrcs] stacks, a run with two [hdf]
    stacks, and the empty directory [Runs/003/tmp] of a third run. *)
Definition project : Assets.FS :=
  [("Runs", Assets.Dir);
   ("Runs/001", Assets.Dir); ("Runs/001/extra", Assets.Dir);
   ("Runs/001/extra/particles.mrc", Assets.File);
   ("Runs/001/extra/a.hdf", Assets.File);
   ("Runs/002", Assets.Dir); ("Runs/002/extra", Assets.Dir);
   ("Runs/002/extra/particles.mrc", Assets.File);
   ("Runs/002/extra/a.hdf", Assets.File);
   ("Runs/004", Assets.Dir); ("Runs/004/extra", Assets.Dir);
   ("Runs/004/extra/a.mrcs", Assets.File);
   ("Runs/004/extra/b.mrcs", Assets.File);
   ("Runs/003", Assets.Dir); ("Runs/003/tmp", Assets.Dir)].

End OsPath.

(** ** Python values and the objects the writer reads *)

Module Py.
Import PyStr.

(** What a cell of a row, or an attribute of an object, can hold. *)
Inductive value :=
| VNone
| VInt (z : Z)
| VFloat (x : R)
| VStr (s : string).

(** A row under construction: an [OrderedDict] from label to value. *)
Definition row := Dict.t value.

(** [x or d] for an optional string: [None] and [''] are falsy. *)
Definition or_str (x : option string) (d : string) : string :=
  match x with
  | None | Some EmptyString => d
  | Some s => s
  end.

(** [x or 0.] for an optional float: [None] gives [0.], and so does the
    only falsy float, [0.] itself. *)
Definition or_zero (x : option R) : R :=
  match x with
  | None => 0%R
  | Some r => r
  end.

(** [x or d] for a float [x]: [0.] is falsy. *)
Definition or_float (x d : R) : R :=
  if Req_dec_T x 0 then d else x.

(** [str(z)] *)
Definition str_of_int (z : Z) : string :=
  match z with
  | Zneg p => String "-" (decimal (Npos p))
  | _ => decimal (Z.to_N z)
  end.

Definition double_quote : ascii := ascii_of_nat 34.

Definition hex_digit (n : nat) : ascii :=
  nth n (list_ascii_of_string "0123456789abcdef") "0"%char.

(** One character inside [repr] of a string delimited by [quote]. *)
Definition repr_char (quote a : ascii) : string :=
  let n := nat_of_ascii a in
  if Ascii.eqb a quote || Ascii.eqb a "\" then String "\" (String a EmptyString)
  else if (n =? 9)%nat then "\t"
  else if (n =? 10)%nat then "\n"
  else if (n =? 13)%nat then "\r"
  else if (n <? 32)%nat || (n =? 127)%nat then
    String "\" (String "x" (String (hex_digit (n / 16))
                                   (String (hex_digit (n mod 16)) EmptyString)))
  else String a EmptyString.

Fixpoint repr_chars (quote : ascii) (s : string) : string :=
  match s with
  | EmptyString => EmptyString
  | String a r => repr_char quote a ++ repr_chars quote r
  end.

(** [repr(s)] for a string: single quotes, unless the string holds a
    single quote and no double quote. *)
Definition repr_str (s : string) : string :=
  let quote :=
    if contains_char "'" s && negb (contains_char double_quote s)
    then double_quote else "'"%char in
  String quote (repr_chars quote s ++ String quote EmptyString).

(** [repr(l)] for a list of strings: ["['a', 'b']"]. *)
Definition repr_list (l : list string) : string :=
  "[" ++ String.concat ", " (map repr_str l) ++ "]".

(** [s.replace(" ", "")] *)
Fixpoint remove_spaces (s : string) : string :=
  match s with
  | EmptyString => EmptyString
  | String a r => if Ascii.eqb a " " then remove_spaces r
                  else String a (remove_spaces r)
  end.

End Py.

(** ** Geometry: 4x4 homogeneous matrices as numpy holds them *)

Module Geom.

Definition vec3 : Type := R * R * R.

Record mat4 := Mat4 {
  m00 : R; m01 : R; m02 : R; m03 : R;
  m10 : R; m11 : R; m12 : R; m13 : R;
  m20 : R; m21 : R; m22 : R; m23 : R;
  m30 : R; m31 : R; m32 : R; m33 : R
}.

Definition v0 (v : vec3) : R := fst (fst v).
Definition v1 (v : vec3) : R := snd (fst v).
Definition v2 (v : vec3) : R := snd v.

(** [a * v] and [-v] on an array of three floats. *)
Definition scale3 (v : vec3) (a : R) : vec3 :=
  (v0 v * a, v1 v * a, v2 v * a)%R.
Definition neg3 (v : vec3) : vec3 := (- v0 v, - v1 v, - v2 v)%R.

(** [numpy.rad2deg] and [numpy.deg2rad], elementwise. *)
Definition rad2deg (x : R) : R := (x * (180 / PI))%R.
Definition deg2rad (x : R) : R := (x * (PI / 180))%R.
Definition rad2deg3 (v : vec3) : vec3 := (rad2deg (v0 v), rad2deg (v1 v), rad2deg (v2 v)).
Definition deg2rad3 (v : vec3) : vec3 := (deg2rad (v0 v), deg2rad (v1 v), deg2rad (v2 v)).

(** [tfs.translation_from_matrix(M)]: a copy of [M[:3, 3]]. *)
Definition translation_from_matrix (M : mat4) : vec3 := (m03 M, m13 M, m23 M).

(** [M[:3, 3] = t] *)
Definition set_translation (M : mat4) (t : vec3) : mat4 :=
  {| m00 := m00 M; m01 := m01 M; m02 := m02 M; m03 := v0 t;
     m10 := m10 M; m11 := m11 M; m12 := m12 M; m13 := v1 t;
     m20 := m20 M; m21 := m21 M; m22 := m22 M; m23 := v2 t;
     m30 := m30 M; m31 := m31 M; m32 := m32 M; m33 := m33 M |}.

(** The matrix product [A @ B] and the identity matrix, by which the
    properties say what an inverse is. *)
Definition matmul (A B : mat4) : mat4 :=
  {| m00 := m00 A * m00 B + m01 A * m10 B + m02 A * m20 B + m03 A * m30 B;
     m01 := m00 A * m01 B + m01 A * m11 B + m02 A * m21 B + m03 A * m31 B;
     m02 := m00 A * m02 B + m01 A * m12 B + m02 A * m22 B + m03 A * m32 B;
     m03 := m00 A * m03 B + m01 A * m13 B + m02 A * m23 B + m03 A * m33 B;
     m10 := m10 A * m00 B + m11 A * m10 B + m12 A * m20 B + m13 A * m30 B;
     m11 := m10 A * m01 B + m11 A * m11 B + m12 A * m21 B + m13 A * m31 B;
     m12 := m10 A * m02 B + m11 A * m12 B + m12 A * m22 B + m13 A * m32 B;
     m13 := m10 A * m03 B + m11 A * m13 B + m12 A * m23 B + m13 A * m33 B;
     m20 := m20 A * m00 B + m21 A * m10 B + m22 A * m20 B + m23 A * m30 B;
     m21 := m20 A * m01 B + m21 A * m11 B + m22 A * m21 B + m23 A * m31 B;
     m22 := m20 A * m02 B + m21 A * m12 B + m22 A * m22 B + m23 A * m32 B;
     m23 := m20 A * m03 B + m21 A * m13 B + m22 A * m23 B + m23 A * m33 B;
     m30 := m30 A * m00 B + m31 A * m10 B + m32 A * m20 B + m33 A * m30 B;
     m31 := m30 A * m01 B + m31 A * m11 B + m32 A * m21 B + m33 A * m31 B;
     m32 := m30 A * m02 B + m31 A * m12 B + m32 A * m22 B + m33 A * m32 B;
     m33 := m30 A * m03 B + m31 A * m13 B + m32 A * m23 B + m33 A * m33 B |}%R.

Definition identity : mat4 :=
  {| m00 := 1; m01 := 0; m02 := 0; m03 := 0;
     m10 := 0; m11 := 1; m12 := 0; m13 := 0;
     m20 := 0; m21 := 0; m22 := 1; m23 := 0;
     m30 := 0; m31 := 0; m32 := 0; m33 := 1 |}%R.

(** [a * M], entry by entry. *)
Definition scale (a : R) (M : mat4) : mat4 :=
  {| m00 := a * m00 M; m01 := a * m01 M; m02 := a * m02 M; m03 := a * m03 M;
     m10 := a * m10 M; m11 := a * m11 M; m12 := a * m12 M; m13 := a * m13 M;
     m20 := a * m20 M; m21 := a * m21 M; m22 := a * m22 M; m23 := a * m23 M;
     m30 := a * m30 M; m31 := a * m31 M; m32 := a * m32 M; m33 := a * m33 M |}%R.

(** The determinant of three rows of three. *)
Definition det3 (a b c d e f g h i : R) : R :=
  (a * (e * i - f * h) - b * (d * i - f * g) + c * (d * h - e * g))%R.

(** [minor<i><j> M]: the determinant of [M] without row [i] and
    column [j]. *)
Definition minor00 (M : mat4) : R :=
  det3 (m11 M) (m12 M) (m13 M) (m21 M) (m22 M) (m23 M) (m31 M) (m32 M) (m33 M).
Definition minor01 (M : mat4) : R :=
  det3 (m10 M) (m12 M) (m13 M) (m20 M) (m22 M) (m23 M) (m30 M) (m32 M) (m33 M).
Definition minor02 (M : mat4) : R :=
  det3 (m10 M) (m11 M) (m13 M) (m20 M) (m21 M) (m23 M) (m30 M) (m31 M) (m33 M).
Definition minor03 (M : mat4) : R :=
  det3 (m10 M) (m11 M) (m12 M) (m20 M) (m21 M) (m22 M) (m30 M) (m31 M) (m32 M).
Definition minor10 (M : mat4) : R :=
  det3 (m01 M) (m02 M) (m03 M) (m21 M) (m22 M) (m23 M) (m31 M) (m32 M) (m33 M).
Definition minor11 (M : mat4) : R :=
  det3 (m00 M) (m02 M) (m03 M) (m20 M) (m22 M) (m23 M) (m30 M) (m32 M) (m33 M).
Definition minor12 (M : mat4) : R :=
  det3 (m00 M) (m01 M) (m03 M) (m20 M) (m21 M) (m23 M) (m30 M) (m31 M) (m33 M).
Definition minor13 (M : mat4) : R :=
  det3 (m00 M) (m01 M) (m02 M) (m20 M) (m21 M) (m22 M) (m30 M) (m31 M) (m32 M).
Definition minor20 (M : mat4) : R :=
  det3 (m01 M) (m02 M) (m03 M) (m11 M) (m12 M) (m13 M) (m31 M) (m32 M) (m33 M).
Definition minor21 (M : mat4) : R :=
  det3 (m00 M) (m02 M) (m03 M) (m10 M) (m12 M) (m13 M) (m30 M) (m32 M) (m33 M).
Definition minor22 (M : mat4) : R :=
  det3 (m00 M) (m01 M) (m03 M) (m10 M) (m11 M) (m13 M) (m30 M) (m31 M) (m33 M).
Definition minor23 (M : mat4) : R :=
  det3 (m00 M) (m01 M) (m02 M) (m10 M) (m11 M) (m12 M) (m30 M) (m31 M) (m32 M).
Definition minor30 (M : mat4) : R :=
  det3 (m01 M) (m02 M) (m03 M) (m11 M) (m12 M) (m13 M) (m21 M) (m22 M) (m23 M).
Definition minor31 (M : mat4) : R :=
  det3 (m00 M) (m02 M) (m03 M) (m10 M) (m12 M) (m13 M) (m20 M) (m22 M) (m23 M).
Definition minor32 (M : mat4) : R :=
  det3 (m00 M) (m01 M) (m03 M) (m10 M) (m11 M) (m13 M) (m20 M) (m21 M) (m23 M).
Definition minor33 (M : mat4) : R :=
  det3 (m00 M) (m01 M) (m02 M) (m10 M) (m11 M) (m12 M) (m20 M) (m21 M) (m22 M).

(** The determinant, expanded along the first row, and the adjugate
    (the transposed matrix of the signed minors). *)
Definition det (M : mat4) : R :=
  (m00 M * minor00 M - m01 M * minor01 M
   + m02 M * minor02 M - m03 M * minor03 M)%R.

Definition adjugate (M : mat4) : mat4 :=
  {| m00 := minor00 M;   m01 := - minor10 M; m02 := minor20 M;   m03 := - minor30 M;
     m10 := - minor01 M; m11 := minor11 M;   m12 := - minor21 M; m13 := minor31 M;
     m20 := minor02 M;   m21 := - minor12 M; m22 := minor22 M;   m23 := - minor32 M;
     m30 := - minor03 M; m31 := minor13 M;   m32 := - minor23 M; m33 := minor33 M |}%R.

End Geom.

(** ** [numpy.linalg.inv]

    Over the reals a matrix has an inverse exactly when its determinant
    is not zero, and the inverse is the adjugate divided by the
    determinant; on a singular matrix numpy raises [LinAlgError], which
    is [None] here. *)

Module Np.
Import Geom.

Definition linalg_inv (M : mat4) : option mat4 :=
  if Req_dec_T (det M) 0 then None
  else Some (scale (/ det M) (adjugate M)).

End Np.

(** ** The Euler-angle routines of [transformations.py]

    [pwem.convert.transformations] is C. Gohlke's [transformations.py];
    the converters call it with [axes='szyz'] only.  Its table gives
    ['szyz'] the tuple [(2, 1, 1, 0)]: first axis [i = 2], parity 1,
    a repeated axis and a static frame; with [_NEXT_AXIS = [1, 2, 0, 1]]
    that is [j = _NEXT_AXIS[i + 1] = 1] and [k = _NEXT_AXIS[i - 1 + 1] = 0],
    and the parity makes [euler_matrix] negate the three angles on entry
    and [euler_from_matrix] negate them on exit.  The two routines are
    written out here for that case, over the reals. *)

Module Tfs.
Import Geom.

(** [math.atan2(y, x)] *)
Definition atan2 (y x : R) : R :=
  if Rlt_dec 0 x then atan (y / x)
  else if Rlt_dec x 0 then
    if Rle_dec 0 y then (atan (y / x) + PI)%R else (atan (y / x) - PI)%R
  else if Rlt_dec 0 y then (PI / 2)%R
  else if Rlt_dec y 0 then (- (PI / 2))%R
  else 0%R.

(** [_EPS = numpy.finfo(float).eps * 4.0] *)
Definition _EPS : R := (4 * / 2 ^ 52)%R.

(** [euler_from_matrix(M, axes='szyz')]: with [i = 2], [j = 1], [k = 0]
    the routine reads [M[i, j]], [M[i, k]], [M[i, i]], [M[j, i]],
    [M[k, i]], [M[j, k]] and [M[j, j]], and the parity negates the three
    angles it found. *)
Definition euler_from_matrix (M : mat4) : vec3 :=
  let sy := sqrt (m21 M * m21 M + m20 M * m20 M) in
  let '(ax, ay, az) :=
    if Rlt_dec _EPS sy then
      (atan2 (m21 M) (m20 M), atan2 sy (m22 M), atan2 (m12 M) (- m02 M))
    else
      (atan2 (- m10 M) (m11 M), atan2 sy (m22 M), 0%R) in
  (- ax, - ay, - az)%R.

(** [euler_matrix(ai, aj, ak, 'szyz')]: the parity negates the three
    angles first; then [M[i, i] = cj], [M[i, j] = sj*si], [M[i, k] = sj*ci],
    [M[j, i] = sj*sk], [M[j, j] = -cj*ss+cc], [M[j, k] = -cj*cs-sc],
    [M[k, i] = -sj*ck], [M[k, j] = cj*sc+cs], [M[k, k] = cj*cc-ss] with
    [i = 2], [j = 1], [k = 0]. *)
Definition euler_matrix (ai aj ak : R) : mat4 :=
  let '(ai, aj, ak) := (- ai, - aj, - ak)%R in
  let '(si, sj, sk) := (sin ai, sin aj, sin ak) in
  let '(ci, cj, ck) := (cos ai, cos aj, cos ak) in
  let '(cc, cs) := (ci * ck, ci * sk)%R in
  let '(sc, ss) := (si * ck, si * sk)%R in
  {| m00 := cj * cc - ss;   m01 := cj * sc + cs;   m02 := - sj * ck; m03 := 0;
     m10 := - cj * cs - sc; m11 := - cj * ss + cc; m12 := sj * sk;   m13 := 0;
     m20 := sj * ci;        m21 := sj * si;        m22 := cj;        m23 := 0;
     m30 := 0;              m31 := 0;              m32 := 0;         m33 := 1 |}%R.

(** The rotation in the plane with cosine [c] and sine [s], with the
    shift [(x, y)], as a 4x4 matrix. *)
Definition in_plane (c s x y : R) : mat4 :=
  {| m00 := c; m01 := - s; m02 := 0; m03 := x;
     m10 := s; m11 := c;   m12 := 0; m13 := y;
     m20 := 0; m21 := 0;   m22 := 1; m23 := 0;
     m30 := 0; m31 := 0;   m32 := 0; m33 := 1 |}%R.

End Tfs.

(** ** The image objects of [pwem.objects], as far as the writer reads them *)

Module Em.
Import Py Geom.

Record Acquisition := {
  opticsGroupName : option string;
  getVoltage : R;
  getSphericalAberration : R;
  getAmplitudeContrast : R;
  beamTiltX : option R;
  beamTiltY : option R;
  mtfFile : option string
}.

Record CTFModel := {
  getDefocusU : R;
  getDefocusV : R;
  getDefocusAngle : R
}.

Record Coordinate := {
  coord_attributes : Dict.t value;   (* what [hasattr] sees *)
  getPosition : Z * Z;
  getMicName : option string;
  getMicId : option Z
}.

Record Image := {
  attributes : Dict.t value;         (* what [hasattr] sees *)
  getObjId : option Z;
  getAcquisition : Acquisition;
  getSamplingRate : R;
  getXDim : Z;
  getLocation : Z * string;
  getCoordinate : option Coordinate;
  getCTF : option CTFModel;
  getTransform : option mat4
}.

(** The alignment kinds of [pwem]. *)
Inductive alignType := ALIGN_NONE | ALIGN_2D | ALIGN_3D | ALIGN_PROJ.

End Em.

(** ** Star tables *)

Module Star.
Import Py.

(** Modelled from the spec: the class [Table] of [relion/convert/metadata.py],
    which is not among the sources.  A table is its frozen column labels
    and its rows; a row that brings a label outside the columns is
    refused, and a label it lacks reads as the empty string. *)
Record Table := { columns : list string; rows : list (list value) }.

(** Modelled from the spec: [WriterBase._createTableFromDict(d)] of
    [relion/convert/convert_base.py], an empty table whose columns are the
    keys of [d]. *)
Definition createTableFromDict (d : row) : Table :=
  {| columns := Dict.keys d; rows := [] |}.

(** Modelled from the spec: [Table.addRow] called with the items of [d]
    as keyword arguments; [None] is the schema error. *)
Definition addRow (t : Table) (d : row) : option Table :=
  if forallb (fun k => existsb (String.eqb k) (columns t)) (Dict.keys d)
  then Some {| columns := columns t;
               rows := rows t ++
                       [map (fun c => match Dict.get d c with
                                      | Some v => v
                                      | None => VStr ""
                                      end) (columns t)] |}
  else None.

(** What is sent to the open star file, call by call. *)
Inductive output :=
| Text (s : string)                           (* f.write(s) *)
| StarTable (tableName : string) (t : Table)  (* t.writeStar(f, tableName=...) *)
| TableName (tableName : string)              (* Table.Writer(f).writeTableName(...) *)
| Header (cols : list string)                 (* ....writeHeader(cols) *)
| RowValues (vals : list value).              (* ....writeRowValues(vals) *)

(** The data block an output call opens, if it opens one. *)
Definition opens_block (o : output) : option string :=
  match o with
  | StarTable n _ | TableName n => Some n
  | _ => None
  end.

(** Position in the file of the first call that opens block [name]. *)
Fixpoint block_position (name : string) (out : list output) : option nat :=
  match out with
  | [] => None
  | o :: r =>
      match opens_block o with
      | Some n => if String.eqb n name then Some O
                  else option_map S (block_position name r)
      | None => option_map S (block_position name r)
      end
  end.

End Star.

(** ** [convert31.py]: the writer *)

Module Writer.
Import PyStr Py Geom Em Star.

Inductive alignMethod := align2DToRow_m | alignProjToRow_m.

(** The attributes of a [Writer] instance. *)
Record Writer := {
  outputDir : option string;
  outputStack : option string;
  _optics : Dict.t row;
  _imgLabelName : string;
  _imgLabelPixelSize : string;
  _prefix : string;
  _dimensionality : Z;
  _imageSize : Z;
  _pixelSize : R;
  _counter : Z;
  _extraLabels : list string;
  _setAlign : option alignMethod;
  _setCtf : bool;
  _setRandomSubset : bool;
  _relOutputStack : string;
  _filesDict : Dict.t string;
  _postprocessImageRow : option (Image -> row -> row)
}.

Definition set_optics (self : Writer) (o : Dict.t row) : Writer :=
  {| outputDir := outputDir self; outputStack := outputStack self;
     _optics := o;
     _imgLabelName := _imgLabelName self;
     _imgLabelPixelSize := _imgLabelPixelSize self;
     _prefix := _prefix self;
     _dimensionality := _dimensionality self; _imageSize := _imageSize self;
     _pixelSize := _pixelSize self; _counter := _counter self;
     _extraLabels := _extraLabels self; _setAlign := _setAlign self;
     _setCtf := _setCtf self; _setRandomSubset := _setRandomSubset self;
     _relOutputStack := _relOutputStack self; _filesDict := _filesDict self;
     _postprocessImageRow := _postprocessImageRow self |}.

Definition set_counter (self : Writer) (c : Z) : Writer :=
  {| outputDir := outputDir self; outputStack := outputStack self;
     _optics := _optics self;
     _imgLabelName := _imgLabelName self;
     _imgLabelPixelSize := _imgLabelPixelSize self;
     _prefix := _prefix self;
     _dimensionality := _dimensionality self; _imageSize := _imageSize self;
     _pixelSize := _pixelSize self; _counter := c;
     _extraLabels := _extraLabels self; _setAlign := _setAlign self;
     _setCtf := _setCtf self; _setRandomSubset := _setRandomSubset self;
     _relOutputStack := _relOutputStack self; _filesDict := _filesDict self;
     _postprocessImageRow := _postprocessImageRow self |}.

(** Methods run on the instance and may raise: a state and error monad
    over [Writer]. *)
Definition M (A : Type) : Type := Writer -> option (A * Writer).

Definition ret {A} (a : A) : M A := fun self => Some (a, self).
Definition bind {A B} (m : M A) (k : A -> M B) : M B :=
  fun self => match m self with
              | Some (a, self') => k a self'
              | None => None
              end.
Definition raise {A} : M A := fun _ => None.
Definition get : M Writer := fun self => Some (self, self).
Definition put (self' : Writer) : M unit := fun _ => Some (tt, self').

(** A computation that may raise, run on the instance. *)
Definition lift {A} (x : option A) : M A :=
  fun self => match x with
              | Some a => Some (a, self)
              | None => None
              end.

Notation "x <- c ;; k" := (bind c (fun x => k))
  (at level 61, c at next level, right associativity).

(** [_getOpticsGroupNumber(img)] *)
Definition getOpticsGroupNumber (img : Image) : M value :=
  self <- get ;;
  let acq := getAcquisition img in
  let ogName := or_str (opticsGroupName acq) "DefaultOpticsGroup" in
  let ps := getSamplingRate img in
  if negb (Dict.mem (_optics self) ogName) then
    let ogNumber := Dict.len (_optics self) + 1 in
    let entry :=
      Dict.of_list
        [("rlnOpticsGroupName", VStr ogName);
         ("rlnOpticsGroup", VInt ogNumber);
         ("rlnMicrographOriginalPixelSize", VFloat ps);
         (_imgLabelPixelSize self, VFloat ps);
         ("rlnVoltage", VFloat (getVoltage acq));
         ("rlnSphericalAberration", VFloat (getSphericalAberration acq));
         ("rlnAmplitudeContrast", VFloat (getAmplitudeContrast acq));
         ("rlnBeamTiltX", VFloat (or_zero (beamTiltX acq)));
         ("rlnBeamTiltY", VFloat (or_zero (beamTiltY acq)));
         ("rlnImageDimensionality", VInt (_dimensionality self));
         ("rlnImageSize", VInt (_imageSize self))] in
    let entry :=
      match mtfFile acq with
      | Some f => Dict.set entry "rlnMtfFileName" (VStr f)
      | None => entry
      end in
    _ <- put (set_optics self (Dict.set (_optics self) ogName entry)) ;;
    ret (VInt ogNumber)
  else
    match Dict.get (_optics self) ogName with
    | Some entry =>
        match Dict.get entry "rlnOpticsGroup" with
        | Some ogNumber => ret ogNumber
        | None => raise
        end
    | None => raise
    end.

(** The resolver called on the records of a pass, one after the other,
    with the ids it returned. *)
Fixpoint resolve_all (imgs : list Image) : M (list value) :=
  match imgs with
  | [] => ret []
  | img :: rest =>
      n <- getOpticsGroupNumber img ;;
      ns <- resolve_all rest ;;
      ret (n :: ns)
  end.

(** The name a record is filed under. *)
Definition ogNameOf (img : Image) : string :=
  or_str (opticsGroupName (getAcquisition img)) "DefaultOpticsGroup".


(** The names of [l] in the order of their first appearance, after
    those of [seen]. *)
Fixpoint first_seen (seen l : list string) : list string :=
  match l with
  | [] => seen
  | x :: r =>
      if existsb (String.eqb x) seen then first_seen seen r
      else first_seen (seen ++ [x]) r
  end.

(** The 1-based position of [x] in [l]; 0 when it is not there. *)
Fixpoint position (x : string) (l : list string) : Z :=
  match l with
  | [] => 0
  | y :: r =>
      if String.eqb y x then 1
      else if existsb (String.eqb x) r then 1 + position x r else 0
  end.

(** Every stored group carries its number. *)
Definition has_numbers (optics : Dict.t row) : bool :=
  forallb (fun e : string * row => Dict.mem (snd e) "rlnOpticsGroup") optics.

(** The stored groups are numbered 1, 2, ... in the order of the store. *)
Fixpoint numbered_from (n : Z) (optics : Dict.t row) : Prop :=
  match optics with
  | [] => True
  | (_, e) :: r =>
      Dict.get e "rlnOpticsGroup" = Some (VInt n) /\ numbered_from (n + 1) r
  end.

(** The two labels the writers give [_imgLabelPixelSize]. *)
Definition pixel_label (l : string) : bool :=
  String.eqb l "rlnImagePixelSize" || String.eqb l "rlnMicrographPixelSize".

(** [_setAttributes(obj, row, attributes)], with [obj] given by the
    attributes [hasattr] finds on it.  The label looked up is formatted
    from the whole list [attributes], as the source has it. *)
Definition setAttributes (obj : Dict.t value) (row : Py.row)
           (attributes : list string) : Py.row :=
  fold_left
    (fun (row : Py.row) attr =>
       let attrLabel := "_" ++ repr_list attributes in
       match Dict.get obj attrLabel with
       | Some v => Dict.set row attr v
       | None => row
       end)
    attributes row.

(** Truth value of an optional string and of an optional integer. *)
Definition truthy_str (x : option string) : bool :=
  match x with
  | None | Some EmptyString => false
  | Some _ => true
  end.

Definition truthy_int (x : option Z) : bool :=
  match x with
  | None | Some 0 => false
  | Some _ => true
  end.

Definition value_of_objId (x : option Z) : value :=
  match x with
  | Some z => VInt z
  | None => VNone
  end.

Definition set_row_optics (row : Py.row) (v : value) : Py.row :=
  Dict.set row "rlnOpticsGroup" v.

(** A set of particles, as the writer reads it: the items an iteration
    yields, the alignment and acquisition of the set, and its distinct
    stack files. *)
Record SetOfParticles := {
  items : list Image;
  getAlignment : alignType;
  set_getAcquisition : Acquisition;
  getFiles : list string
}.

(** The keyword arguments [writeSetOfParticles] and
    [_writeSetOfMoviesOrMics] look at; [None] is an absent key. *)
Record Kwargs := {
  kw_outputDir : option string;
  kw_outputStack : option string;
  kw_forceConvert : option bool;
  kw_fillRandomSubset : option bool;
  kw_writeCtf : option bool;
  kw_alignType : option alignType;
  kw_extraLabels : option (list string);
  kw_postprocessImageRow : option (Image -> Py.row -> Py.row)
}.

Definition kw_get {A} (x : option A) (default : A) : A :=
  match x with
  | Some a => a
  | None => default
  end.

Section Methods.

(** [pwem.NO_INDEX] *)
Variable NO_INDEX : Z.
(** [tfs.euler_from_matrix(., axes='szyz')] and [numpy.linalg.inv],
    which raises on a singular matrix. *)
Variable euler_from_matrix : mat4 -> vec3.
Variable linalg_inv : mat4 -> option mat4.
(** The methods inherited from [WriterBase] ([convert_base.py], not
    among the sources): what they write into the row. *)
Variable WriterBase_micToRow : Image -> Py.row -> Py.row.
Variable WriterBase_ctfToRow : CTFModel -> Py.row -> Py.row.
Variable WriterBase_convert : Image -> value.
(** [os.path.relpath], [os.path.dirname], and [convertBinaryFiles] as a
    function of the stack files, output directory and force flag. *)
Variable os_path_relpath : string -> string -> string.
Variable os_path_dirname : string -> string.
Variable convertBinaryFiles :
  list string -> string -> bool -> option (Dict.t string).

(** [_align2DToRow(alignment, row)] *)
Definition align2DToRow (self : Writer) (alignment : mat4) (row : Py.row) : Py.row :=
  let matrix := alignment in
  let shifts := translation_from_matrix matrix in
  let shifts := scale3 shifts (_pixelSize self) in
  let angles := neg3 (rad2deg3 (euler_from_matrix matrix)) in
  let row := Dict.set row "rlnOriginXAngst" (VFloat (v0 shifts)) in
  let row := Dict.set row "rlnOriginYAngst" (VFloat (v1 shifts)) in
  Dict.set row "rlnAnglePsi" (VFloat (- (v0 angles + v2 angles))).

(** [_alignProjToRow(alignment, row)]; [None] when the matrix has no
    inverse. *)
Definition alignProjToRow (self : Writer) (alignment : mat4) (row : Py.row)
  : option Py.row :=
  match linalg_inv alignment with
  | None => None
  | Some matrix =>
      let shifts := neg3 (translation_from_matrix matrix) in
      let shifts := scale3 shifts (_pixelSize self) in
      let angles := neg3 (rad2deg3 (euler_from_matrix matrix)) in
      let row := Dict.set row "rlnOriginXAngst" (VFloat (v0 shifts)) in
      let row := Dict.set row "rlnOriginYAngst" (VFloat (v1 shifts)) in
      let row := Dict.set row "rlnOriginZAngst" (VFloat (v2 shifts)) in
      let row := Dict.set row "rlnAngleRot" (VFloat (v0 angles)) in
      let row := Dict.set row "rlnAngleTilt" (VFloat (v1 angles)) in
      Some (Dict.set row "rlnAnglePsi" (VFloat (v2 angles)))
  end.

(** The bound method [self._setAlign]. *)
Definition call_setAlign (m : alignMethod) (self : Writer) (alignment : mat4)
           (row : Py.row) : option Py.row :=
  match m with
  | align2DToRow_m => Some (align2DToRow self alignment row)
  | alignProjToRow_m => alignProjToRow self alignment row
  end.

(** [_micToRow(mic, row)] *)
Definition micToRow (mic : Image) (row : Py.row) : M Py.row :=
  self <- get ;;
  let row := WriterBase_micToRow mic row in
  let row := setAttributes (attributes mic) row (_extraLabels self) in
  n <- getOpticsGroupNumber mic ;;
  ret (Dict.set row "rlnOpticsGroup" n).

(** [_partToRow(part, row)].  The pixels [self._ih.convert] copies into
    the output stack are outside the model. *)
Definition partToRow (part : Image) (row : Py.row) : M Py.row :=
  self <- get ;;
  let row := Dict.set row "rlnImageId" (value_of_objId (getObjId part)) in
  let row :=
    match getCoordinate part with
    | Some coord =>
        let '(x, y) := getPosition coord in
        let row := Dict.set row "rlnCoordinateX" (VInt x) in
        let row := Dict.set row "rlnCoordinateY" (VInt y) in
        let row := setAttributes (coord_attributes coord) row
                     ["rlnClassNumber"; "rlnAutopickFigureOfMerit"; "rlnAnglePsi"] in
        if truthy_str (getMicName coord) then
          Dict.set row "rlnMicrographName"
                   (VStr (remove_spaces (kw_get (getMicName coord) "")))
        else if truthy_int (getMicId coord) then
          Dict.set row "rlnMicrographName"
                   (VStr (str_of_int (kw_get (getMicId coord) 0)))
        else row
    | None => row
    end in
  let '(index, fn) := getLocation part in
  let '(row, index, fn) :=
    if truthy_str (outputStack self) then
      (Dict.set row "rlnOriginalParticleName"
                (VStr (Location.locationToRelion NO_INDEX index fn)),
       _counter self, _relOutputStack self)
    else
      match outputDir self with
      | Some _ => (row, index, kw_get (Dict.get (_filesDict self) fn) fn)
      | None => (row, index, fn)
      end in
  let row := Dict.set row "rlnImageName"
                      (VStr (Location.locationToRelion NO_INDEX index fn)) in
  row <- (if _setRandomSubset self then
            match Dict.get (attributes part) "_rlnRandomSubset" with
            | Some v => ret (Dict.set row "rlnRandomSubset" v)
            | None => raise
            end
          else ret row) ;;
  row <- (if _setCtf self then
            match getCTF part with
            | Some ctf => ret (WriterBase_ctfToRow ctf row)
            | None => raise
            end
          else ret row) ;;
  row <- (match _setAlign self with
          | Some m =>
              match getTransform part with
              | Some alignment => lift (call_setAlign m self alignment row)
              | None => raise
              end
          | None => ret row
          end) ;;
  let row := setAttributes (attributes part) row (_extraLabels self) in
  n <- getOpticsGroupNumber part ;;
  let row := Dict.set row "rlnOpticsGroup" n in
  self <- get ;;
  _ <- put (set_counter self (_counter self + 1)) ;;
  ret row.

(** [row = postprocessImageRow(img, row)] when the callback is set. *)
Definition postprocess (img : Image) (row : Py.row) : M Py.row :=
  self <- get ;;
  match _postprocessImageRow self with
  | Some f => ret (f img row)
  | None => ret row
  end.

(** [for opticsDict in self._optics.values(): opticsTable.addRow(...)] *)
Fixpoint addRows (t : Table) (ds : list Py.row) : option Table :=
  match ds with
  | [] => Some t
  | d :: r =>
      match addRow t d with
      | Some t' => addRows t' r
      | None => None
      end
  end.

(** The loop [for part in partsSet] of [writeSetOfParticles]: one row
    written per particle, the row dictionary being reused. *)
Fixpoint write_particles (parts : list Image) (partRow : Py.row)
         (out : list output) : M (Py.row * list output) :=
  match parts with
  | [] => ret (partRow, out)
  | part :: rest =>
      partRow <- partToRow part partRow ;;
      partRow <- postprocess part partRow ;;
      write_particles rest partRow (out ++ [RowValues (Dict.values partRow)])
  end.

(** [writeSetOfParticles(partsSet, starFile, **kwargs)]: what is written
    to [starFile]. *)
Definition writeSetOfParticles (partsSet : SetOfParticles) (starFile : string)
           (kwargs : Kwargs) : M (list output) :=
  self <- get ;;
  let outputDir' :=
    match kw_outputDir kwargs with Some d => Some d | None => outputDir self end in
  let outputStack' :=
    match kw_outputStack kwargs with Some d => Some d | None => outputStack self end in
  let relOutputStack :=
    if truthy_str outputStack'
    then os_path_relpath (kw_get outputStack' "") (os_path_dirname starFile)
    else _relOutputStack self in
  filesDict <- (match outputDir' with
                | Some d =>
                    lift (convertBinaryFiles (getFiles partsSet) d
                            (kw_get (kw_forceConvert kwargs) false))
                | None => ret (_filesDict self)
                end) ;;
  firstPart <- lift (hd_error (items partsSet)) ;;
  let setRandomSubset :=
    kw_get (kw_fillRandomSubset kwargs) false
    && Dict.mem (attributes firstPart) "_rlnRandomSubset" in
  let setCtf :=
    kw_get (kw_writeCtf kwargs) true
    && match getCTF firstPart with Some _ => true | None => false end in
  let alignType := kw_get (kw_alignType kwargs) (getAlignment partsSet) in
  setAlign <- (match alignType with
               | ALIGN_2D => ret (Some align2DToRow_m)
               | ALIGN_PROJ => ret (Some alignProjToRow_m)
               | ALIGN_3D => raise
               | ALIGN_NONE => ret None
               end) ;;
  let extraLabels :=
    (kw_get (kw_extraLabels kwargs) []
     ++ ["rlnParticleSelectZScore"; "rlnMovieFrameNumber"])%list in
  _ <- put {| outputDir := outputDir';
              outputStack := outputStack';
              _optics := [];
              _imgLabelName := _imgLabelName self;
              _imgLabelPixelSize := "rlnImagePixelSize";
              _prefix := _prefix self;
              _dimensionality := _dimensionality self;
              _imageSize := getXDim firstPart;
              _pixelSize := or_float (getSamplingRate firstPart) 1;
              _counter := 0;
              _extraLabels := extraLabels;
              _setAlign := setAlign;
              _setCtf := setCtf;
              _setRandomSubset := setRandomSubset;
              _relOutputStack := relOutputStack;
              _filesDict := filesDict;
              _postprocessImageRow := kw_postprocessImageRow kwargs |} ;;
  let firstPart :=
    {| attributes := attributes firstPart;
       getObjId := getObjId firstPart;
       getAcquisition := set_getAcquisition partsSet;
       getSamplingRate := getSamplingRate firstPart;
       getXDim := getXDim firstPart;
       getLocation := getLocation firstPart;
       getCoordinate := getCoordinate firstPart;
       getCTF := getCTF firstPart;
       getTransform := getTransform firstPart |} in
  partRow <- partToRow firstPart [] ;;
  partRow <- postprocess firstPart partRow ;;
  self <- get ;;
  firstOptics <- lift (hd_error (Dict.values (_optics self))) ;;
  let opticsTable := createTableFromDict firstOptics in
  let partsTable := createTableFromDict partRow in
  partsTable <- lift (addRow partsTable partRow) ;;
  let out :=
    [Text "# Star file generated with Scipion
";
     Text "# version 30001
";
     TableName "particles";
     Header (columns partsTable)] in
  res <- write_particles (items partsSet) partRow out ;;
  let '(_, out) := res in
  self <- get ;;
  opticsTable <- lift (addRows opticsTable (Dict.values (_optics self))) ;;
  ret (out ++ [Text "
# version 30001
";
               StarTable "optics" opticsTable])%list.

(** The loop [while mic is not None] of [_writeSetOfMoviesOrMics]: the
    rows go into [micsTable], in memory. *)
Fixpoint add_mics (mics : list Image) (imgLabelName : string)
         (micRow : Py.row) (micsTable : Table) : M (Py.row * Table) :=
  match mics with
  | [] => ret (micRow, micsTable)
  | mic :: rest =>
      let micRow := Dict.set micRow imgLabelName (WriterBase_convert mic) in
      micRow <- micToRow mic micRow ;;
      micRow <- postprocess mic micRow ;;
      micsTable <- lift (addRow micsTable micRow) ;;
      add_mics rest imgLabelName micRow micsTable
  end.

(** [_writeSetOfMoviesOrMics(imgIterable, starFile, tableName,
    imgLabelName, **kwargs)]: what is written to [starFile]. *)
Definition writeSetOfMoviesOrMics (imgIterable : list Image) (starFile : string)
           (tableName imgLabelName : string) (kwargs : Kwargs)
  : M (list output) :=
  self <- get ;;
  mic <- lift (hd_error imgIterable) ;;
  _ <- put {| outputDir := outputDir self;
              outputStack := outputStack self;
              _optics := [];
              _imgLabelName := imgLabelName;
              _imgLabelPixelSize := "rlnMicrographPixelSize";
              _prefix := String.substring 0 3 tableName;
              _dimensionality := _dimensionality self;
              _imageSize := getXDim mic;
              _pixelSize := _pixelSize self;
              _counter := _counter self;
              _extraLabels := kw_get (kw_extraLabels kwargs) [];
              _setAlign := _setAlign self;
              _setCtf := _setCtf self;
              _setRandomSubset := _setRandomSubset self;
              _relOutputStack := _relOutputStack self;
              _filesDict := _filesDict self;
              _postprocessImageRow := kw_postprocessImageRow kwargs |} ;;
  let micRow : Py.row := Dict.set [] imgLabelName (VStr "") in
  micRow <- micToRow mic micRow ;;
  micRow <- postprocess mic micRow ;;
  self <- get ;;
  firstOptics <- lift (hd_error (Dict.values (_optics self))) ;;
  let opticsTable := createTableFromDict firstOptics in
  let micsTable := createTableFromDict micRow in
  res <- add_mics imgIterable imgLabelName micRow micsTable ;;
  let '(_, micsTable) := res in
  self <- get ;;
  opticsTable <- lift (addRows opticsTable (Dict.values (_optics self))) ;;
  ret [Text "# Star file generated with Scipion
";
       Text "# version 30001
";
       StarTable "optics" opticsTable;
       Text "# version 30001
";
       StarTable tableName micsTable].

(** [writeSetOfMovies] and [writeSetOfMicrographs] *)
Definition writeSetOfMovies (moviesIterable : list Image) (starFile : string)
           (kwargs : Kwargs) : M (list output) :=
  writeSetOfMoviesOrMics moviesIterable starFile
                         "movies" "rlnMicrographMovieName" kwargs.

Definition writeSetOfMicrographs (micsIterable : list Image) (starFile : string)
           (kwargs : Kwargs) : M (list output) :=
  writeSetOfMoviesOrMics micsIterable starFile
                         "micrographs" "rlnMicrographName" kwargs.

End Methods.

End Writer.

(** ** [convert31.py]: the reader's transforms *)

Module Reader.
Import Py Geom Em.

(** What [self.setParticleTransform] is bound to: the dispatching method
    at first, one of the three private methods after the first call. *)
Inductive bound :=
| setParticleTransform_m
| setParticleTransformNone_m
| setParticleTransform2D_m
| setParticleTransformProj_m.

(** The attributes of a [Reader] instance the transforms use;
    [_angles] and [_shifts] are the two arrays kept from row to row. *)
Record Reader := {
  _alignType : alignType;
  _invPixelSize : R;
  _angles : vec3;
  _shifts : vec3;
  setParticleTransform : bound
}.

Definition ALIGNMENT_LABELS : list string :=
  ["rlnOriginXAngst"; "rlnOriginYAngst"; "rlnOriginZAngst";
   "rlnAngleRot"; "rlnAngleTilt"; "rlnAnglePsi"].

(** [row.hasAnyColumn(labels)] *)
Definition hasAnyColumn (row : Py.row) (labels : list string) : bool :=
  existsb (Dict.mem row) labels.

Section Methods.

(** [float(s)] on a string: its value, or [None] when it raises. *)
Variable float_of_str : string -> option R.
(** [tfs.euler_matrix(., ., ., 'szyz')] and [numpy.linalg.inv], which
    raises on a singular matrix. *)
Variable euler_matrix : R -> R -> R -> mat4.
Variable linalg_inv : mat4 -> option mat4.

(** [float(getattr(row, label, 0.))]: a missing cell reads as [0.], a
    number as itself, a string as the number it spells; [None] when
    [float] raises (on [None], and on a string that spells no number). *)
Definition _get (row : Py.row) (label : string) : option R :=
  match Dict.get row label with
  | None => Some 0%R
  | Some (VFloat x) => Some x
  | Some (VInt z) => Some (IZR z)
  | Some (VStr s) => float_of_str s
  | Some VNone => None
  end.

(** [__setParticleTransform2D(particle, row)]: the reader after the
    call and the matrix set on the particle's transform. *)
Definition setParticleTransform2D (self : Reader) (row : Py.row)
  : option (Reader * mat4) :=
  let angles := _angles self in
  let shifts := _shifts self in
  let ips := _invPixelSize self in
  match _get row "rlnOriginXAngst", _get row "rlnOriginYAngst",
        _get row "rlnAnglePsi" with
  | Some x, Some y, Some psi =>
      let shifts := ((x * ips)%R, (y * ips)%R, v2 shifts) in
      let angles := (v0 angles, v1 angles, (- psi)%R) in
      let radAngles := neg3 (deg2rad3 angles) in
      let M := euler_matrix (v0 radAngles) (v1 radAngles) (v2 radAngles) in
      let M := set_translation M shifts in
      Some ({| _alignType := _alignType self;
               _invPixelSize := ips;
               _angles := angles;
               _shifts := shifts;
               setParticleTransform := setParticleTransform self |}, M)
  | _, _, _ => None
  end.

(** [__setParticleTransformProj(particle, row)] *)
Definition setParticleTransformProj (self : Reader) (row : Py.row)
  : option (Reader * mat4) :=
  let ips := _invPixelSize self in
  match _get row "rlnOriginXAngst", _get row "rlnOriginYAngst",
        _get row "rlnOriginZAngst",
        _get row "rlnAngleRot", _get row "rlnAngleTilt",
        _get row "rlnAnglePsi" with
  | Some x, Some y, Some z, Some rot, Some tilt, Some psi =>
      let shifts := ((x * ips)%R, (y * ips)%R, (z * ips)%R) in
      let angles := (rot, tilt, psi) in
      let radAngles := neg3 (deg2rad3 angles) in
      let M := euler_matrix (v0 radAngles) (v1 radAngles) (v2 radAngles) in
      let M := set_translation M (neg3 shifts) in
      match linalg_inv M with
      | Some M =>
          Some ({| _alignType := _alignType self;
                   _invPixelSize := ips;
                   _angles := angles;
                   _shifts := shifts;
                   setParticleTransform := setParticleTransform self |}, M)
      | None => None
      end
  | _, _, _, _, _, _ => None
  end.

Definition rebind (self : Reader) (b : bound) (zero : bool) : Reader :=
  {| _alignType := _alignType self;
     _invPixelSize := _invPixelSize self;
     _angles := if zero then (0, 0, 0)%R else _angles self;
     _shifts := if zero then (0, 0, 0)%R else _shifts self;
     setParticleTransform := b |}.

(** A call [self.setParticleTransform(particle, row)]: the reader after
    it and the transform of the particle, [None] for no transform. *)
Definition call_setParticleTransform (self : Reader) (row : Py.row)
  : option (Reader * option mat4) :=
  let run (self : Reader) : option (Reader * option mat4) :=
    match setParticleTransform self with
    | setParticleTransformNone_m => Some (self, None)
    | setParticleTransform2D_m =>
        option_map (fun r => (fst r, Some (snd r))) (setParticleTransform2D self row)
    | setParticleTransformProj_m =>
        option_map (fun r => (fst r, Some (snd r))) (setParticleTransformProj self row)
    | setParticleTransform_m => None
    end in
  match setParticleTransform self with
  | setParticleTransform_m =>
      match _alignType self with
      | ALIGN_NONE => run (rebind self setParticleTransformNone_m false)
      | a =>
          if negb (hasAnyColumn row ALIGNMENT_LABELS)
          then run (rebind self setParticleTransformNone_m false)
          else match a with
               | ALIGN_2D => run (rebind self setParticleTransform2D_m true)
               | ALIGN_PROJ => run (rebind self setParticleTransformProj_m true)
               | _ => None
               end
      end
  | _ => run self
  end.

End Methods.

End Reader.

(** ** Sample records *)

Module Fixtures.
Import Py Geom Em Writer.

(** An acquisition at the given voltage, with spherical aberration 2.7
    and amplitude contrast 0.1. *)
Definition acquisition (voltage : R) (name : option string) : Acquisition :=
  {| opticsGroupName := name;
     getVoltage := voltage;
     getSphericalAberration := 27 / 10;
     getAmplitudeContrast := 1 / 10;
     beamTiltX := None;
     beamTiltY := None;
     mtfFile := None |}.

(** Particle number [objId] of one stack. *)
Definition particle (objId : Z) (acq : Acquisition) (pixelSize : R)
           (transform : option mat4) : Image :=
  {| attributes := [];
     getObjId := Some objId;
     getAcquisition := acq;
     getSamplingRate := pixelSize;
     getXDim := 128;
     getLocation := (objId, "Runs/000002_Extract/extra/stack.mrcs");
     getCoordinate := None;
     getCTF := None;
     getTransform := transform |}.

(** A writer as [writeSetOfParticles] sets it up before the first
    particle, for 128-pixel images at 1.0 A/px. *)
Definition particles_writer (setAlign : option alignMethod)
           (extraLabels : list string) : Writer.Writer :=
  {| outputDir := None;
     outputStack := None;
     _optics := [];
     _imgLabelName := "rlnImageName";
     _imgLabelPixelSize := "rlnImagePixelSize";
     _prefix := "";
     _dimensionality := 2;
     _imageSize := 128;
     _pixelSize := 1;
     _counter := 0;
     _extraLabels := extraLabels;
     _setAlign := setAlign;
     _setCtf := false;
     _setRandomSubset := false;
     _relOutputStack := "";
     _filesDict := [];
     _postprocessImageRow := None |}.

(** A particle that carries a value for the extra label
    [rlnParticleSelectZScore]. *)
Definition scored_particle : Image :=
  {| attributes := [("_rlnParticleSelectZScore", VFloat (3 / 2))];
     getObjId := Some 1;
     getAcquisition := acquisition 300 None;
     getSamplingRate := 1;
     getXDim := 128;
     getLocation := (1, "Runs/000002_Extract/extra/stack.mrcs");
     getCoordinate := None;
     getCTF := None;
     getTransform := None |}.

(** [_partToRow] with the library routines of [Tfs], [NO_INDEX = 0] and
    a [_ctfToRow] that writes nothing. *)
Definition partToRow : Image -> Py.row -> Writer.M Py.row :=
  Writer.partToRow 0 Tfs.euler_from_matrix Np.linalg_inv (fun _ row => row).

(** A quarter turn about the first axis with the shift (2, 3, 4), and
    its inverse. *)
Definition quarter_turn : mat4 :=
  {| m00 := 1; m01 := 0; m02 := 0;   m03 := 2;
     m10 := 0; m11 := 0; m12 := - 1; m13 := 3;
     m20 := 0; m21 := 1; m22 := 0;   m23 := 4;
     m30 := 0; m31 := 0; m32 := 0;   m33 := 1 |}%R.

Definition quarter_turn_inv : mat4 :=
  {| m00 := 1; m01 := 0;   m02 := 0; m03 := - 2;
     m10 := 0; m11 := 0;   m12 := 1; m13 := - 4;
     m20 := 0; m21 := - 1; m22 := 0; m23 := 3;
     m30 := 0; m31 := 0;   m32 := 0; m33 := 1 |}%R.

(** A reader in projection mode at 1.0 A/px, after its first row. *)
Definition proj_reader : Reader.Reader :=
  {| Reader._alignType := ALIGN_PROJ;
     Reader._invPixelSize := 1;
     Reader._angles := (0, 0, 0)%R;
     Reader._shifts := (0, 0, 0)%R;
     Reader.setParticleTransform := Reader.setParticleTransformProj_m |}.

(** A row with two shifts and three angles; the third shift is absent. *)
Definition proj_row : Py.row :=
  [("rlnOriginXAngst", VFloat 2); ("rlnOriginYAngst", VFloat 3);
   ("rlnAngleRot", VFloat 10); ("rlnAngleTilt", VFloat 20);
   ("rlnAnglePsi", VFloat 30)].

(** Two particles of one acquisition, with no alignment. *)
Definition two_particles : SetOfParticles :=
  {| items := [particle 1 (acquisition 300 None) 1 None;
               particle 2 (acquisition 300 None) 1 None];
     getAlignment := ALIGN_NONE;
     set_getAcquisition := acquisition 300 None;
     getFiles := ["Runs/000002_Extract/extra/stack.mrcs"] |}.

(** Two micrographs of one acquisition. *)
Definition micrograph (objId : Z) (fileName : string) : Image :=
  {| attributes := [];
     getObjId := Some objId;
     getAcquisition := acquisition 300 None;
     getSamplingRate := 1;
     getXDim := 4096;
     getLocation := (0, fileName);
     getCoordinate := None;
     getCTF := None;
     getTransform := None |}.

Definition two_micrographs : list Image :=
  [micrograph 1 "Runs/000001_Import/extra/mic_0001.mrc";
   micrograph 2 "Runs/000001_Import/extra/mic_0002.mrc"].

(** No keyword argument given. *)
Definition no_kwargs : Kwargs :=
  {| kw_outputDir := None; kw_outputStack := None; kw_forceConvert := None;
     kw_fillRandomSubset := None; kw_writeCtf := None; kw_alignType := None;
     kw_extraLabels := None; kw_postprocessImageRow := None |}.

(** [writeSetOfParticles] and [writeSetOfMicrographs] with the library
    routines of [Tfs] and [OsPath], [NO_INDEX = 0], and inherited
    methods that write the object id, no CTF and the file name. *)
Definition writeSetOfParticles :=
  Writer.writeSetOfParticles 0 Tfs.euler_from_matrix Np.linalg_inv
    (fun _ row => row) OsPath.relpath_nonempty OsPath.dirname
    (fun files dir force =>
       option_map fst
         (OsPath.convertBinaryFiles files dir "mrcs" force
            {| Assets.fs := OsPath.project; Assets.log := [] |})).

Definition writeSetOfMicrographs :=
  Writer.writeSetOfMicrographs
    (fun mic row => Dict.set row "rlnImageId" (value_of_objId (getObjId mic)))
    (fun mic => VStr (snd (getLocation mic))).

(** The writer after one particle at 300 kV and 1.0 A/px went through
    the resolver. *)
Definition writer_after_first : Writer.Writer :=
  match getOpticsGroupNumber (particle 1 (acquisition 300 None) 1 None)
                             (particles_writer None []) with
  | Some (_, self) => self
  | None => particles_writer None []
  end.

End Fixtures.

(** ** Sample records for an output stack *)

Module StackFixtures.
Import Py Geom Em Writer.

(** A writer set up for an output stack next to the star file, about to
    write slot 3 of it. *)
Definition stack_writer : Writer.Writer :=
  {| outputDir := None;
     outputStack := Some "Runs/000003_Refine/extra/particles.mrcs";
     _optics := [];
     _imgLabelName := "rlnImageName";
     _imgLabelPixelSize := "rlnImagePixelSize";
     _prefix := "";
     _dimensionality := 2;
     _imageSize := 128;
     _pixelSize := 1;
     _counter := 3;
     _extraLabels := [];
     _setAlign := None;
     _setCtf := false;
     _setRandomSubset := false;
     _relOutputStack := "particles.mrcs";
     _filesDict := [];
     _postprocessImageRow := None |}.

(** A coordinate picked at (10, 20) on micrograph 1. *)
Definition picked : Coordinate :=
  {| coord_attributes := [];
     getPosition := (10, 20);
     getMicName := Some "mic_0001.mrc";
     getMicId := Some 1 |}.

(** Particle 5 of a stack, with that coordinate. *)
Definition picked_particle : Image :=
  {| attributes := [];
     getObjId := Some 5;
     getAcquisition := Fixtures.acquisition 300 None;
     getSamplingRate := 1;
     getXDim := 128;
     getLocation := (5, "Runs/000002_Extract/extra/stack.mrcs");
     getCoordinate := Some picked;
     getCTF := None;
     getTransform := None |}.

(** A set whose acquisition carries no group name, while its particles
    belong to the group [opticsGroup2]. *)
Definition regrouped_particles : SetOfParticles :=
  {| items := [Fixtures.particle 1 (Fixtures.acquisition 300 (Some "opticsGroup2"))
                                 1 None;
               Fixtures.particle 2 (Fixtures.acquisition 300 (Some "opticsGroup2"))
                                 1 None];
     getAlignment := ALIGN_NONE;
     set_getAcquisition := Fixtures.acquisition 300 None;
     getFiles := ["Runs/000002_Extract/extra/stack.mrcs"] |}.

(** The keyword arguments that ask for an output stack. *)
Definition stack_kwargs : Kwargs :=
  {| kw_outputDir := None;
     kw_outputStack := Some "Runs/000003_Refine/extra/particles.mrcs";
     kw_forceConvert := None;
     kw_fillRandomSubset := None; kw_writeCtf := None; kw_alignType := None;
     kw_extraLabels := None; kw_postprocessImageRow := None |}.

End StackFixtures.

(** ** [convert_utils.py]: names relative to a prefix *)

Module Utils.
Import PyStr Py.

(** Number of occurrences of [c] in [s]. *)
Fixpoint count_char (c : ascii) (s : string) : nat :=
  match s with
  | EmptyString => O
  | String a r => if Ascii.eqb a c then S (count_char c r) else count_char c r
  end.

Section WithHelpers.
(** [pwem.NO_INDEX] and [os.path.relpath], which raises [ValueError]
    on an empty path *)
Variable NO_INDEX : Z.
Variable os_path_relpath : string -> string -> option string.

(** [relativeFromFileName(imgRow, prefixPath)]: the row after the call;
    [None] when the row has no [rlnImageName], when its value is not a
    string, when [relionToLocation] raises, or when [os.path.relpath]
    does. *)
Definition relativeFromFileName (imgRow : row) (prefixPath : string)
  : option row :=
  match Dict.get imgRow "rlnImageName" with
  | Some (VStr name) =>
      match Location.relionToLocation NO_INDEX name with
      | Some (index, imgPath) =>
          match os_path_relpath imgPath prefixPath with
          | Some newImgPath =>
              Some (Dict.set imgRow "rlnImageName"
                      (VStr (Location.locationToRelion NO_INDEX index newImgPath)))
          | None => None
          end
      | None => None
      end
  | _ => None
  end.
End WithHelpers.

End Utils.

(** ** [convert31.py]: the reader over the rows of a table *)

Module ReaderRun.
Import Py Geom Em Reader.

Section Rows.
Variable float_of_str : string -> option R.
Variable euler_matrix : R -> R -> R -> mat4.
Variable linalg_inv : mat4 -> option mat4.

(** The calls [self.setParticleTransform(particle, row)] that
    [readSetOfParticles] makes through [_rowToPart], first on the first
    row and then on each following one: the transform each particle is
    given, and the reader at the end. *)
Fixpoint read_transforms (rows : list Py.row) (self : Reader)
  : option (list (option mat4) * Reader) :=
  match rows with
  | [] => Some ([], self)
  | row :: rest =>
      match call_setParticleTransform float_of_str euler_matrix linalg_inv self row with
      | Some (self', t) =>
          match read_transforms rest self' with
          | Some (ts, self'') => Some (t :: ts, self'')
          | None => None
          end
      | None => None
      end
  end.
End Rows.

(** A reader as [__init__] and [readSetOfParticles] leave it before
    the first row: [setParticleTransform] is still the method of the
    class.  The arrays [_angles] and [_shifts] do not exist yet (or hold
    what an earlier table left); [angles] and [shifts] stand for that. *)
Definition fresh (alignType : Em.alignType) (invPixelSize : R)
           (angles shifts : vec3) : Reader :=
  {| _alignType := alignType;
     _invPixelSize := invPixelSize;
     _angles := angles;
     _shifts := shifts;
     setParticleTransform := setParticleTransform_m |}.

End ReaderRun.

(* ================================================================== *)
(** * Part II: properties *)
(* ================================================================== *)

(** ** Worked examples *)

Example locationToRelion_ex1 :
  Location.locationToRelion 0 12 "Runs/stack.mrcs" = "000012@Runs/stack.mrcs".
Proof. reflexivity. Qed.

Example relionToLocation_ex1 :
  Location.relionToLocation 0 "000012@Runs/stack.mrcs" = Some (12, "Runs/stack.mrcs").
Proof. reflexivity. Qed.

Example locationToRelion_ex2 :
  Location.locationToRelion 0 1234567 "a.mrcs" = "1234567@a.mrcs".
Proof. reflexivity. Qed.

Example relionToLocation_ex2 :
  Location.relionToLocation 0 "1@a@b" = None.
Proof. reflexivity. Qed.

(** Two stacks with the same base name, from two runs, linked as [.mrcs]. *)
Example convertBinaryFiles_ex_links :
  OsPath.convertBinaryFiles
    ["Runs/001/extra/particles.mrc"; "Runs/002/extra/particles.mrc"]
    "Runs/003/tmp" "mrcs" false {| Assets.fs := OsPath.project; Assets.log := [] |}
  = Some
      ([("Runs/001/extra/particles.mrc", "Runs/003/tmp/input/particles.mrcs");
        ("Runs/002/extra/particles.mrc", "Runs/003/tmp/input/particles_00002.mrcs")],
       {| Assets.fs :=
            ("Runs/003/tmp/input/particles_00002.mrcs",
             Assets.Link "Runs/002/extra/particles.mrc")
            :: ("Runs/003/tmp/input/particles.mrcs",
                Assets.Link "Runs/001/extra/particles.mrc")
            :: ("Runs/003/tmp/input", Assets.Dir) :: OsPath.project;
          Assets.log :=
            [Assets.MakePath "Runs/003/tmp/input";
             Assets.CreateLink "Runs/001/extra/particles.mrc"
                               "Runs/003/tmp/input/particles.mrcs";
             Assets.CreateLink "Runs/002/extra/particles.mrc"
                               "Runs/003/tmp/input/particles_00002.mrcs"] |}).
Proof. reflexivity. Qed.

(** Same extension as the target: one link for the common root. *)
Example convertBinaryFiles_ex_root :
  OsPath.convertBinaryFiles
    ["Runs/004/extra/a.mrcs"; "Runs/004/extra/b.mrcs"]
    "Runs/003/tmp" "mrcs" false {| Assets.fs := OsPath.project; Assets.log := [] |}
  = Some
      ([("Runs/004/extra/a.mrcs", "Runs/003/tmp/input/a.mrcs");
        ("Runs/004/extra/b.mrcs", "Runs/003/tmp/input/b.mrcs")],
       {| Assets.fs :=
            ("Runs/003/tmp/input", Assets.Link "Runs/004/extra") :: OsPath.project;
          Assets.log :=
            [Assets.Symlink "../../004/extra" "Runs/003/tmp/input"] |}).
Proof. reflexivity. Qed.

(** What raises.  Stacks in the working directory have the empty common
    root, and [os.path.relpath] refuses it; without the directory the
    output root goes into, [os.symlink] finds no place for the link; and
    links to stacks that are not there do not exist, so a second pass
    makes them again. *)
Example convertBinaryFiles_ex_raises :
  OsPath.convertBinaryFiles ["a.mrcs"; "b.mrcs"] "Runs/003/tmp" "mrcs" false
    {| Assets.fs := OsPath.project; Assets.log := [] |} = None
  /\ OsPath.convertBinaryFiles
       ["Runs/004/extra/a.mrcs"; "Runs/004/extra/b.mrcs"]
       "Runs/003/tmp" "mrcs" false {| Assets.fs := []; Assets.log := [] |} = None
  /\ OsPath.convertBinaryFiles ["Runs/005/extra/particles.mrc"]
       "Runs/003/tmp" "mrcs" false
       {| Assets.fs :=
            ("Runs/003/tmp/input/particles.mrcs",
             Assets.Link "Runs/005/extra/particles.mrc")
            :: ("Runs/003/tmp/input", Assets.Dir) :: OsPath.project;
          Assets.log := [] |}
     = Some
         ([("Runs/005/extra/particles.mrc", "Runs/003/tmp/input/particles.mrcs")],
          {| Assets.fs :=
               ("Runs/003/tmp/input/particles.mrcs",
                Assets.Link "Runs/005/extra/particles.mrc")
               :: ("Runs/003/tmp/input/particles.mrcs",
                   Assets.Link "Runs/005/extra/particles.mrc")
               :: ("Runs/003/tmp/input", Assets.Dir) :: OsPath.project;
             Assets.log :=
               [Assets.CreateLink "Runs/005/extra/particles.mrc"
                                  "Runs/003/tmp/input/particles.mrcs"] |}).
Proof. repeat split. Qed.

Example os_path_examples :
  OsPath.relpath "Runs/004/extra" "Runs/003/tmp" = Some "../../004/extra"
  /\ OsPath.relpath "Runs" "Runs/003/tmp/input" = Some "../../.."
  /\ OsPath.relpath "" "Runs" = None
  /\ OsPath.relpath "Runs" "" = Some "Runs"
  /\ OsPath.normpath "Runs/003/tmp/../../004/extra" = "Runs/004/extra"
  /\ OsPath.commonPath ["Runs/001/extra/a.mrc"; "Runs/002/extra/a.mrc"] = "Runs"
  /\ OsPath.commonPath ["a.mrcs"; "b.mrcs"] = "".
Proof. repeat split. Qed.

(** The label [_setAttributes] looks up for the two labels
    [writeSetOfParticles] always adds. *)
Example setAttributes_label :
  "_" ++ Py.repr_list ["rlnParticleSelectZScore"; "rlnMovieFrameNumber"]
  = "_['rlnParticleSelectZScore', 'rlnMovieFrameNumber']".
Proof. reflexivity. Qed.

Example fmt_0d_examples :
  PyStr.fmt_0d 6 1 = "000001" /\ PyStr.fmt_0d 6 999999 = "999999"
  /\ PyStr.fmt_0d 6 (-5) = "-00005" /\ PyStr.fmt_0d 5 2 = "00002".
Proof. repeat split. Qed.

Example py_int_examples :
  PyStr.py_int "000012" = Some 12 /\ PyStr.py_int " 12 " = Some 12
  /\ PyStr.py_int "1_000" = Some 1000 /\ PyStr.py_int "-7" = Some (-7)
  /\ PyStr.py_int "" = None /\ PyStr.py_int "12a" = None
  /\ PyStr.py_int "1__0" = None.
Proof. repeat split. Qed.

Example float_literal_examples :
  PyStr.float_literal "30" = Some (30, 0)
  /\ PyStr.float_literal " -1.5e3 " = Some (-15, 2)
  /\ PyStr.float_literal "2.50" = Some (250, -2)
  /\ PyStr.float_literal ".5" = Some (5, -1)
  /\ PyStr.float_literal "1." = Some (1, 0)
  /\ PyStr.float_literal "1_000.0E-2" = Some (10000, -3)
  /\ PyStr.float_literal "+7e+2" = Some (7, 2)
  /\ PyStr.float_literal "" = None /\ PyStr.float_literal "." = None
  /\ PyStr.float_literal "e5" = None /\ PyStr.float_literal "1e" = None
  /\ PyStr.float_literal "1__0" = None /\ PyStr.float_literal "1.5.2" = None
  /\ PyStr.float_literal "n/a" = None /\ PyStr.float_literal "- 1" = None.
Proof. repeat split. Qed.

(** ** Strings *)

Section PyStrFacts.
Import PyStr.

Lemma all_chars_app p s t :
  all_chars p (s ++ t) = all_chars p s && all_chars p t.
Proof.
  induction s as [|a s IH]; simpl; [reflexivity|].
  rewrite IH. now rewrite andb_assoc.
Qed.

Lemma all_chars_impl (p q : ascii -> bool) s :
  (forall a, p a = true -> q a = true) ->
  all_chars p s = true -> all_chars q s = true.
Proof.
  intros Hpq. induction s as [|a s IH]; simpl; [easy|].
  rewrite !andb_true_iff. intros [Ha Hs]. auto.
Qed.

Lemma all_chars_zeros p k : p "0"%char = true -> all_chars p (zeros k) = true.
Proof. intros H0. induction k; simpl; [easy|]. now rewrite H0. Qed.

Lemma is_digit_cases a :
  is_digit a = true ->
  In a ["0"; "1"; "2"; "3"; "4"; "5"; "6"; "7"; "8"; "9"]%char.
Proof.
  destruct a as [[|] [|] [|] [|] [|] [|] [|] [|]]; simpl; intros H;
    try discriminate H; intuition.
Qed.

Lemma is_digit_not_space a : is_digit a = true -> is_space a = false.
Proof.
  intros H. apply is_digit_cases in H. simpl in H.
  repeat (destruct H as [<-|H]; [reflexivity|]). contradiction.
Qed.

Lemma is_digit_neq a c :
  is_digit a = true -> is_digit c = false -> Ascii.eqb a c = false.
Proof.
  intros Ha Hc. destruct (Ascii.eqb_spec a c) as [->|]; congruence.
Qed.

Lemma all_digits_string_of_uint d :
  all_chars is_digit (NilEmpty.string_of_uint d) = true.
Proof. induction d; simpl; auto. Qed.

Lemma to_uint_not_nil n : N.to_uint n <> Nil.
Proof.
  destruct n as [|p]; simpl; [discriminate|].
  apply DecimalPos.Unsigned.to_uint_nonnil.
Qed.

Lemma decimal_unfold n : decimal n = NilEmpty.string_of_uint (N.to_uint n).
Proof.
  unfold decimal, NilZero.string_of_uint.
  pose proof (to_uint_not_nil n) as H.
  destruct (N.to_uint n); congruence.
Qed.

Lemma all_digits_decimal n : all_chars is_digit (decimal n) = true.
Proof. rewrite decimal_unfold. apply all_digits_string_of_uint. Qed.

Lemma decimal_nonempty n : decimal n <> EmptyString.
Proof.
  rewrite decimal_unfold. pose proof (to_uint_not_nil n) as H.
  destruct (N.to_uint n); simpl; congruence.
Qed.

Lemma all_digits_zfill w s :
  all_chars is_digit s = true -> all_chars is_digit (zfill w s) = true.
Proof.
  intros H. unfold zfill. rewrite all_chars_app, H, andb_true_r.
  now apply all_chars_zeros.
Qed.

Lemma zfill_nonempty w s : s <> EmptyString -> zfill w s <> EmptyString.
Proof.
  unfold zfill. destruct (zeros _); simpl; [auto|discriminate].
Qed.

(** Zeros in front do not change the value read. *)
Lemma uint_of_string_zeros k s :
  option_map N.of_uint (NilEmpty.uint_of_string (zeros k ++ s))
  = option_map N.of_uint (NilEmpty.uint_of_string s).
Proof.
  induction k as [|k IH]; simpl; [reflexivity|].
  rewrite <- IH. now destruct (NilEmpty.uint_of_string (zeros k ++ s)).
Qed.

Lemma parse_digits_zfill w n : parse_digits (zfill w (decimal n)) = Some n.
Proof.
  unfold parse_digits.
  pose proof (zfill_nonempty w _ (decimal_nonempty n)) as Hne.
  destruct (zfill w (decimal n)) eqn:E; [congruence|]. rewrite <- E.
  unfold zfill. rewrite uint_of_string_zeros, decimal_unfold, NilEmpty.usu.
  simpl. now rewrite DecimalN.Unsigned.of_to.
Qed.

Lemma lstrip_no_space s :
  all_chars (fun a => negb (is_space a)) s = true -> lstrip s = s.
Proof.
  destruct s as [|a s]; simpl; [easy|].
  rewrite andb_true_iff, negb_true_iff. now intros [-> _].
Qed.

Lemma rstrip_no_space s :
  all_chars (fun a => negb (is_space a)) s = true -> rstrip s = s.
Proof.
  induction s as [|a s IH]; simpl; [easy|].
  rewrite andb_true_iff, negb_true_iff. intros [Ha Hs].
  rewrite (IH Hs), Ha. now destruct s.
Qed.

Lemma strip_digits s : all_chars is_digit s = true -> strip s = s.
Proof.
  intros H.
  assert (all_chars (fun a => negb (is_space a)) s = true) as Hs.
  { revert H. apply all_chars_impl. intros a Ha.
    now rewrite (is_digit_not_space a Ha). }
  unfold strip. now rewrite (lstrip_no_space s Hs), (rstrip_no_space s Hs).
Qed.

Lemma drop_underscores_digits s b :
  all_chars is_digit s = true ->
  (s <> EmptyString \/ b = true) ->
  drop_underscores b s = Some s.
Proof.
  revert b. induction s as [|a s IH]; simpl; intros b Hd Hb.
  - destruct Hb as [Hb| ->]; [congruence|reflexivity].
  - apply andb_true_iff in Hd as [Ha Hs].
    rewrite (is_digit_neq a "_" Ha eq_refl).
    rewrite (IH true Hs (or_intror eq_refl)). reflexivity.
Qed.

Lemma string_of_uint_length d :
  String.length (NilEmpty.string_of_uint d) = nb_digits d.
Proof. induction d; simpl; congruence. Qed.

Lemma usize_nb_digits d : DecimalPos.Unsigned.usize d = N.of_nat (nb_digits d).
Proof.
  induction d; cbn [DecimalPos.Unsigned.usize nb_digits]; rewrite ?IHd; lia.
Qed.

Lemma to_uint_normal n : unorm (N.to_uint n) = N.to_uint n.
Proof.
  rewrite <- (DecimalN.Unsigned.to_of (N.to_uint n)).
  now rewrite DecimalN.Unsigned.of_to.
Qed.

Lemma of_lu_lower_bound d h :
  (1 <= DecimalPos.Unsigned.of_lu h)%N ->
  (10 ^ DecimalPos.Unsigned.usize d
   <= DecimalPos.Unsigned.of_lu (revapp d h))%N.
Proof.
  intros Hh. rewrite DecimalPos.Unsigned.of_lu_revapp. nia.
Qed.

(** A number below [10 ^ k] prints with at most [k] digits. *)
Lemma to_uint_digits n k :
  (n < 10 ^ N.of_nat k)%N -> (1 <= k)%nat ->
  (nb_digits (N.to_uint n) <= k)%nat.
Proof.
  intros Hn Hk.
  pose proof (to_uint_normal n) as Hnorm.
  pose proof (DecimalN.Unsigned.of_to n) as Hval.
  unfold N.of_uint in Hval. rewrite DecimalPos.Unsigned.of_uint_alt in Hval.
  destruct (N.to_uint n) as [|d|d|d|d|d|d|d|d|d|d] eqn:E; cbn [nb_digits];
    [ lia
    | unfold unorm in Hnorm; rewrite DecimalFacts.nzhead_D0 in Hnorm;
      destruct (nzhead d) as [|u|u|u|u|u|u|u|u|u|u] eqn:Hz;
      try discriminate Hnorm;
      [ injection Hnorm as <-; simpl; lia
      | exfalso; exact (DecimalFacts.nzhead_nonzero _ _ Hz) ]
    | unfold rev in Hval; cbn [revapp] in Hval;
      match type of Hval with
      | DecimalPos.Unsigned.of_lu (revapp ?u ?h) = _ =>
          pose proof (of_lu_lower_bound u h) as Hlow;
          rewrite Hval in Hlow;
          assert (10 ^ DecimalPos.Unsigned.usize u < 10 ^ N.of_nat k)%N as Hpow
            by (eapply N.le_lt_trans; [apply Hlow; cbn; lia|exact Hn]);
          apply N.pow_lt_mono_r_iff in Hpow; [|lia];
          rewrite usize_nb_digits in Hpow; lia
      end .. ].
Qed.

Lemma zeros_length k : String.length (zeros k) = k.
Proof. induction k; simpl; congruence. Qed.

Lemma append_length s t :
  String.length (s ++ t) = (String.length s + String.length t)%nat.
Proof. induction s; simpl; congruence. Qed.

(** Below [10 ^ w] the zero-padded print has exactly [w] characters. *)
Lemma zfill_decimal_length w n :
  (n < 10 ^ N.of_nat w)%N -> (1 <= w)%nat ->
  String.length (zfill w (decimal n)) = w.
Proof.
  intros Hn Hw. unfold zfill.
  rewrite append_length, zeros_length, decimal_unfold, string_of_uint_length.
  pose proof (to_uint_digits n w Hn Hw). lia.
Qed.

(** [int()] reads back what ["%0wd"] printed. *)
Lemma py_int_fmt_0d w z : py_int (fmt_0d w z) = Some z.
Proof.
  assert (forall w n, all_chars is_digit (zfill w (decimal n)) = true) as Hdig.
  { intros. apply all_digits_zfill, all_digits_decimal. }
  assert (forall w n, drop_underscores false (zfill w (decimal n))
                      = Some (zfill w (decimal n))) as Hdrop.
  { intros. apply drop_underscores_digits; [apply Hdig|].
    left. apply zfill_nonempty, decimal_nonempty. }
  assert (forall w n, py_int (zfill w (decimal n)) = Some (Z.of_N n)) as Hpos.
  { intros w' n. unfold py_int. rewrite (strip_digits _ (Hdig w' n)).
    pose proof (Hdig w' n) as Hd. pose proof (Hdrop w' n) as Hu.
    destruct (zfill w' (decimal n)) as [|a r] eqn:E.
    - simpl in Hu. discriminate.
    - assert (Ascii.eqb a "-" = false /\ Ascii.eqb a "+" = false) as [Hm Hp].
      { simpl in Hd. apply andb_true_iff in Hd as [Ha _].
        split; apply is_digit_neq; auto. }
      assert ((let '(neg, body) :=
                 match String a r with
                 | String "-" r0 => (true, r0)
                 | String "+" r0 => (false, r0)
                 | _ => (false, String a r)
                 end in
               match drop_underscores false body with
               | None => None
               | Some ds =>
                   option_map
                     (fun n0 => if neg : bool then Z.opp (Z.of_N n0) else Z.of_N n0)
                     (parse_digits ds)
               end)
              = match drop_underscores false (String a r) with
                | None => None
                | Some ds => option_map Z.of_N (parse_digits ds)
                end) as ->.
      { apply Ascii.eqb_neq in Hm, Hp.
        destruct a as [[|] [|] [|] [|] [|] [|] [|] [|]];
          try reflexivity; congruence. }
      rewrite Hu, <- E, parse_digits_zfill. reflexivity. }
  destruct z as [|p|p]; simpl.
  - apply (Hpos w 0%N).
  - apply (Hpos w (Npos p)).
  - unfold py_int.
    assert (strip (String "-" (zfill (w - 1) (decimal (N.pos p))))
            = String "-" (zfill (w - 1) (decimal (N.pos p)))) as ->.
    { unfold strip. simpl lstrip.
      change (rstrip (String "-" ?r))
        with (match rstrip r with
              | EmptyString => String "-" EmptyString
              | String b r' => String "-" (String b r')
              end).
      pose proof (Hdig (w - 1)%nat (N.pos p)) as Hd.
      rewrite rstrip_no_space.
      - pose proof (Hdrop (w - 1)%nat (N.pos p)) as Hu.
        destruct (zfill (w - 1) (decimal (N.pos p))); [discriminate|reflexivity].
      - revert Hd. apply all_chars_impl. intros a Ha.
        now rewrite (is_digit_not_space a Ha). }
    rewrite Hdrop, parse_digits_zfill. reflexivity.
Qed.

End PyStrFacts.

(** ** Location strings *)

Section LocationFacts.
Import PyStr Location.

Lemma contains_char_app c s t :
  contains_char c (s ++ t) = contains_char c s || contains_char c t.
Proof.
  induction s as [|a s IH]; simpl; [reflexivity|].
  destruct (Ascii.eqb a c); [reflexivity|exact IH].
Qed.

Lemma split_on_absent c s : contains_char c s = false -> split_on c s = [s].
Proof.
  induction s as [|a s IH]; simpl; [reflexivity|].
  destruct (Ascii.eqb a c); [discriminate|].
  intros H. now rewrite (IH H).
Qed.

Lemma split_on_app c s t :
  contains_char c s = false ->
  split_on c (s ++ String c t) = s :: split_on c t.
Proof.
  induction s as [|a s IH]; simpl.
  - now rewrite Ascii.eqb_refl.
  - destruct (Ascii.eqb a c); [discriminate|].
    intros H. now rewrite (IH H).
Qed.

Lemma digits_no_char c s :
  is_digit c = false -> all_chars is_digit s = true -> contains_char c s = false.
Proof.
  intros Hc. induction s as [|a s IH]; simpl; [reflexivity|].
  rewrite andb_true_iff. intros [Ha Hs].
  now rewrite (is_digit_neq a c Ha Hc), (IH Hs).
Qed.

Lemma fmt_0d_no_at w z : contains_char "@" (fmt_0d w z) = false.
Proof.
  assert (forall w n, contains_char "@" (zfill w (decimal n)) = false) as H.
  { intros. apply digits_no_char; [reflexivity|].
    apply all_digits_zfill, all_digits_decimal. }
  destruct z; simpl; auto.
Qed.

Variable NO_INDEX : Z.

Lemma locationToRelion_indexed index fn :
  index <> NO_INDEX ->
  locationToRelion NO_INDEX index fn = fmt_0d 6 index ++ "@" ++ fn.
Proof.
  intros H. unfold locationToRelion.
  now rewrite (proj2 (Z.eqb_neq index NO_INDEX) H).
Qed.

Lemma relionToLocation_indexed w index fn :
  contains_char "@" fn = false ->
  relionToLocation NO_INDEX (fmt_0d w index ++ "@" ++ fn) = Some (index, fn).
Proof.
  intros Hfn. unfold relionToLocation.
  rewrite contains_char_app. simpl (contains_char _ ("@" ++ fn)).
  rewrite orb_true_r.
  change ("@" ++ fn) with (String "@" fn).
  rewrite (split_on_app _ _ _ (fmt_0d_no_at w index)).
  rewrite (split_on_absent _ _ Hfn), py_int_fmt_0d. reflexivity.
Qed.

Lemma relionToLocation_bare fn :
  contains_char "@" fn = false ->
  relionToLocation NO_INDEX fn = Some (NO_INDEX, fn).
Proof. intros H. unfold relionToLocation. now rewrite H. Qed.

Lemma locationToRelion_sentinel fn : locationToRelion NO_INDEX NO_INDEX fn = fn.
Proof. unfold locationToRelion. now rewrite Z.eqb_refl. Qed.

End LocationFacts.

(** C8.  For a 1-based index that is not the sentinel and a path without
    ['@'], [locationToRelion] gives the index printed with ["%06d"] (zero
    padded to six digits: exactly six up to index 999999), then ['@'],
    then the path, and
    [relionToLocation] gives the pair back; the sentinel encodes as the
    bare path, and a bare path decodes to the sentinel with that path. *)
Theorem location_roundtrip (NO_INDEX index : Z) (path : string) :
  1 <= index -> index <> NO_INDEX ->
  PyStr.contains_char "@" path = false ->
  Location.locationToRelion NO_INDEX index path
    = PyStr.zfill 6 (PyStr.decimal (Z.to_N index)) ++ "@" ++ path
  /\ Location.relionToLocation NO_INDEX
       (Location.locationToRelion NO_INDEX index path) = Some (index, path)
  /\ (index <= 999999 ->
      String.length (PyStr.zfill 6 (PyStr.decimal (Z.to_N index))) = 6%nat)
  /\ Location.locationToRelion NO_INDEX NO_INDEX path = path
  /\ Location.relionToLocation NO_INDEX
       (Location.locationToRelion NO_INDEX NO_INDEX path) = Some (NO_INDEX, path).
Proof.
  intros Hpos Hne Hat.
  rewrite (locationToRelion_sentinel NO_INDEX path).
  rewrite (locationToRelion_indexed NO_INDEX index path Hne).
  repeat split.
  - destruct index; try reflexivity. lia.
  - now apply relionToLocation_indexed.
  - intros Hmax. apply zfill_decimal_length; [|lia].
    change (10 ^ N.of_nat 6)%N with 1000000%N. lia.
  - now apply relionToLocation_bare.
Qed.

Lemma location_roundtrip_witness :
  Location.locationToRelion 0 12 "Extract/job007/stack.mrcs"
    = "000012@Extract/job007/stack.mrcs"
  /\ Location.relionToLocation 0
       (Location.locationToRelion 0 12 "Extract/job007/stack.mrcs")
     = Some (12, "Extract/job007/stack.mrcs")
  /\ (12 <= 999999 -> String.length "000012" = 6%nat)
  /\ Location.locationToRelion 0 0 "Extract/job007/stack.mrcs"
     = "Extract/job007/stack.mrcs"
  /\ Location.relionToLocation 0
       (Location.locationToRelion 0 0 "Extract/job007/stack.mrcs")
     = Some (0, "Extract/job007/stack.mrcs").
Proof.
  apply (location_roundtrip 0 12 "Extract/job007/stack.mrcs");
    [lia | lia | reflexivity].
Defined.

(** ** Dictionaries *)

Section DictFacts.
Context {V : Type}.
Implicit Types (d : Dict.t V) (k : string) (v : V).

Lemma dict_get_set_same d k v : Dict.get (Dict.set d k v) k = Some v.
Proof.
  induction d as [|[k' v'] d IH]; simpl.
  - now rewrite String.eqb_refl.
  - destruct (String.eqb k' k) eqn:E; simpl; rewrite E; auto.
Qed.

Lemma dict_get_set_other d k k' v :
  k' <> k -> Dict.get (Dict.set d k v) k' = Dict.get d k'.
Proof.
  intros Hne. induction d as [|[k0 v0] d IH]; simpl.
  - destruct (String.eqb_spec k k'); congruence.
  - destruct (String.eqb_spec k0 k) as [->|Hk]; simpl.
    + destruct (String.eqb_spec k k'); congruence.
    + now rewrite IH.
Qed.

Lemma dict_values_set d k v x :
  In x (Dict.values (Dict.set d k v)) -> x = v \/ In x (Dict.values d).
Proof.
  induction d as [|[k' v'] d IH]; simpl.
  - intuition.
  - destruct (String.eqb k' k); simpl; intuition.
Qed.

Lemma dict_values_set_NoDup d k v :
  NoDup (Dict.values d) -> ~ In v (Dict.values d) ->
  NoDup (Dict.values (Dict.set d k v)).
Proof.
  induction d as [|[k' v'] d IH]; simpl; intros Hnd Hv.
  - constructor; [easy|constructor].
  - inversion Hnd as [|? ? Hv' Hd]; subst.
    destruct (String.eqb k' k); simpl.
    + constructor; [|assumption]. intuition.
    + constructor.
      * intros Hin. apply dict_values_set in Hin. intuition.
      * apply IH; intuition.
Qed.

Lemma dict_get_In d k v : Dict.get d k = Some v -> In v (Dict.values d).
Proof.
  induction d as [|[k' v'] d IH]; simpl; [discriminate|].
  destruct (String.eqb k' k); [intros [= ->]|]; auto.
Qed.

(** With pairwise distinct values, a value belongs to one key only. *)
Lemma dict_get_inj d k1 k2 v :
  NoDup (Dict.values d) ->
  Dict.get d k1 = Some v -> Dict.get d k2 = Some v -> k1 = k2.
Proof.
  induction d as [|[k' v'] d IH]; simpl; intros Hnd; [discriminate|].
  inversion Hnd as [|? ? Hv' Hd]; subst.
  destruct (String.eqb_spec k' k1) as [<-|H1];
    destruct (String.eqb_spec k' k2) as [<-|H2]; auto.
  - intros [= ->] H. apply dict_get_In in H. contradiction.
  - intros H [= ->]. apply dict_get_In in H. contradiction.
Qed.

Lemma dict_keys_set d k v x :
  In x (Dict.keys (Dict.set d k v)) <-> x = k \/ In x (Dict.keys d).
Proof.
  induction d as [|[k' v'] d IH]; simpl.
  - intuition.
  - destruct (String.eqb_spec k' k) as [->|Hk]; simpl; intuition.
Qed.

Lemma dict_get_keys d k : In k (Dict.keys d) -> exists v, Dict.get d k = Some v.
Proof.
  induction d as [|[k' v'] d IH]; simpl; [easy|].
  intros [->|H]; [rewrite String.eqb_refl; eauto|].
  destruct (String.eqb k' k); eauto.
Qed.

(** Setting a key that is absent appends the entry. *)
Lemma dict_set_absent d k v :
  Dict.get d k = None -> Dict.set d k v = (d ++ [(k, v)])%list.
Proof.
  induction d as [|[k' v'] d IH]; simpl; [reflexivity|].
  destruct (String.eqb k' k); [discriminate|]. intros H. now rewrite IH.
Qed.

Lemma dict_get_app_None d d' k :
  Dict.get d k = None -> Dict.get (d ++ d')%list k = Dict.get d' k.
Proof.
  induction d as [|[k' v'] d IH]; simpl; [reflexivity|].
  destruct (String.eqb k' k); [discriminate|]. exact IH.
Qed.

End DictFacts.

(** ** Unique output names *)

Section UniqueNameFacts.
Import PyStr Assets.

Lemma append_inj_l s a b : s ++ a = s ++ b -> a = b.
Proof. induction s as [|c s IH]; simpl; [easy|]. intros [= H]. auto. Qed.

Lemma fmt_0d_no_char c w z :
  is_digit c = false -> c <> "-"%char -> contains_char c (fmt_0d w z) = false.
Proof.
  intros Hc Hm.
  assert (forall w n, contains_char c (zfill w (decimal n)) = false) as H.
  { intros. apply digits_no_char; [assumption|].
    apply all_digits_zfill, all_digits_decimal. }
  destruct z as [|q|q]; unfold fmt_0d; [apply H|apply H|].
  cbn [contains_char].
  destruct (Ascii.eqb_spec "-" c) as [E|_]; [congruence|apply H].
Qed.

Lemma suffixed_inj r e c1 c2 : suffixed r c1 e = suffixed r c2 e -> c1 = c2.
Proof.
  unfold suffixed. intros H.
  apply append_inj_l in H. simpl in H. injection H as H.
  apply (f_equal (split_on ".")) in H.
  change ("." ++ e) with (String "." e) in H.
  rewrite !split_on_app in H
    by (apply fmt_0d_no_char; [reflexivity|discriminate]).
  injection H as H.
  apply (f_equal py_int) in H. rewrite !py_int_fmt_0d in H. congruence.
Qed.

Lemma in_values_In x l : in_values x l = true <-> In x l.
Proof.
  unfold in_values. rewrite existsb_exists. split.
  - intros [y [Hy E]]. apply String.eqb_eq in E. now subst.
  - intros H. exists x. now rewrite String.eqb_refl.
Qed.

Lemma in_values_not_In x l : in_values x l = false <-> ~ In x l.
Proof.
  rewrite <- in_values_In. destruct (in_values x l); intuition congruence.
Qed.

Section Loop.
Variables (values : list string) (newRoot ext : string).

(** The candidates tried from a counter on are pairwise distinct, so
    at most [length values] of them can be taken. *)
Lemma unique_loop_suffixed (fuel : nat) :
  forall (counter : Z) (seen : list string),
    NoDup seen -> incl seen values ->
    (forall s, In s seen ->
               exists k, k < counter /\ s = suffixed newRoot k ext) ->
    (List.length values < List.length seen + fuel)%nat ->
    exists k,
      counter <= k
      /\ unique_loop fuel values newRoot ext counter
                     (suffixed newRoot counter ext)
         = Some (suffixed newRoot k ext)
      /\ in_values (suffixed newRoot k ext) values = false
      /\ forall j, counter <= j < k ->
                   in_values (suffixed newRoot j ext) values = true.
Proof.
  induction fuel as [|fuel IH]; intros counter seen Hnd Hincl Hseen Hlen.
  - pose proof (NoDup_incl_length Hnd Hincl). lia.
  - simpl.
    destruct (in_values (suffixed newRoot counter ext) values) eqn:E.
    + destruct (IH (counter + 1) (suffixed newRoot counter ext :: seen))
        as (k & Hk & Hrun & Hfree & Hbelow).
      * constructor; [|assumption].
        intros Hin. destruct (Hseen _ Hin) as (k & Hk & Heq).
        apply suffixed_inj in Heq. lia.
      * intros s [<-|Hs]; [now apply in_values_In|auto].
      * intros s [<-|Hs].
        -- exists counter. split; [lia|reflexivity].
        -- destruct (Hseen _ Hs) as (k & Hk & ->).
           exists k. split; [lia|reflexivity].
      * simpl. lia.
      * exists k. repeat split; try assumption; [lia|].
        intros j Hj. destruct (Z.eq_dec j counter) as [->|Hne]; [assumption|].
        apply Hbelow. lia.
    + exists counter. repeat split; try assumption; [lia|].
      intros j Hj. lia.
Qed.

(** The loop of [getUniqueFileName] ends within its fuel, on the first
    candidate that is not a value yet. *)
Lemma unique_loop_spec (newFn : string) :
  exists r,
    unique_loop (2 + List.length values) values newRoot ext 1 newFn = Some r
    /\ ~ In r values
    /\ (r = newFn
        \/ In newFn values
           /\ exists k, 2 <= k /\ r = suffixed newRoot k ext
              /\ forall j, 2 <= j < k -> In (suffixed newRoot j ext) values).
Proof.
  simpl. destruct (in_values newFn values) eqn:E.
  - destruct (unique_loop_suffixed (1 + List.length values) 2 [])
      as (k & Hk & Hrun & Hfree & Hbelow).
    + constructor.
    + intros s [].
    + intros s [].
    + simpl. lia.
    + exists (suffixed newRoot k ext). split; [exact Hrun|].
      split; [now apply in_values_not_In|].
      right. split; [now apply in_values_In|].
      exists k. repeat split; [assumption|].
      intros j Hj. apply in_values_In. auto.
  - exists newFn. split; [reflexivity|].
    split; [now apply in_values_not_In|now left].
Qed.
End Loop.

End UniqueNameFacts.

(** ** The disk *)

Section DiskFacts.
Import Assets.

Lemma lookup_cons fs q x p :
  lookup ((q, x) :: fs) p = if String.eqb q p then Some x else lookup fs p.
Proof. reflexivity. Qed.

Lemma stat_from_eq n fs p :
  stat_from (S n) fs p
  = match lookup fs p with
    | Some (Link target) => stat_from n fs target
    | other => other
    end.
Proof. reflexivity. Qed.

(** More fuel does not change an answer. *)
Lemma stat_from_S fs n :
  forall p k, stat_from n fs p = Some k -> stat_from (S n) fs p = Some k.
Proof.
  induction n as [|n IH]; intros p k; [discriminate|].
  rewrite (stat_from_eq (S n) fs p), (stat_from_eq n fs p).
  destruct (lookup fs p) as [[| |t]|]; auto.
Qed.

Lemma stat_from_le fs n m p k :
  (n <= m)%nat -> stat_from n fs p = Some k -> stat_from m fs p = Some k.
Proof.
  induction 1 as [|m Hle IH]; [auto|]. intros H. apply stat_from_S. auto.
Qed.

(** A new file or directory hides no path. *)
Lemma stat_from_cons_node fs q x n :
  x = File \/ x = Dir ->
  forall p k, stat_from n fs p = Some k ->
              exists k', stat_from n ((q, x) :: fs) p = Some k'.
Proof.
  intros Hx. induction n as [|n IH]; intros p k; [discriminate|].
  cbn [stat_from]. rewrite lookup_cons.
  destruct (String.eqb q p).
  - intros _. destruct Hx as [-> | ->]; eauto.
  - destruct (lookup fs p) as [[| |t]|]; eauto.
Qed.

(** A new entry at a path that led nowhere hides no path either. *)
Lemma stat_from_cons_absent fs q x :
  stat_from (S (List.length fs)) fs q = None ->
  forall n p k,
    (n <= S (List.length fs))%nat ->
    stat_from n fs p = Some k -> stat_from n ((q, x) :: fs) p = Some k.
Proof.
  intros Hq. induction n as [|n IH]; intros p k Hn; [discriminate|].
  cbn [stat_from]. rewrite lookup_cons.
  destruct (String.eqb_spec q p) as [<-|Hne].
  - intros H.
    assert (stat_from (S n) fs q = Some k) as H' by exact H.
    apply (stat_from_le fs (S n) (S (List.length fs)) q k Hn) in H'. congruence.
  - destruct (lookup fs p) as [[| |t]|]; auto. apply IH. lia.
Qed.

Lemma path_exists_stat fs p :
  path_exists fs p = true <->
  p <> "" /\ exists k, stat_from (S (List.length fs)) fs p = Some k.
Proof.
  unfold path_exists, stat. destruct (String.eqb_spec p "") as [->|Hne].
  - split; [discriminate|]. intros [H _]. congruence.
  - destruct (stat_from (S (List.length fs)) fs p) as [k|].
    + split; [eauto|reflexivity].
    + split; [discriminate|]. intros [_ [k H]]. discriminate.
Qed.


Lemma path_exists_cons_node fs q x p :
  x = File \/ x = Dir ->
  path_exists fs p = true -> path_exists ((q, x) :: fs) p = true.
Proof.
  intros Hx H. apply path_exists_stat in H as (Hne & k & H).
  apply path_exists_stat. split; [exact Hne|].
  destruct (stat_from_cons_node fs q x _ Hx p k H) as (k' & H').
  exists k'. cbn [List.length]. now apply stat_from_S.
Qed.

Lemma path_exists_cons_absent fs q x p :
  q <> "" -> path_exists fs q = false ->
  path_exists fs p = true -> path_exists ((q, x) :: fs) p = true.
Proof.
  intros Hq Hnone H. apply path_exists_stat in H as (Hne & k & H).
  apply path_exists_stat. split; [exact Hne|]. exists k.
  cbn [List.length]. apply stat_from_S.
  apply stat_from_cons_absent; [|lia|exact H].
  unfold path_exists, stat in Hnone.
  destruct (String.eqb_spec q "") as [E|_]; [contradiction|].
  now destruct (stat_from (S (List.length fs)) fs q).
Qed.

Lemma path_exists_head_node fs p x :
  p <> "" -> x = File \/ x = Dir -> path_exists ((p, x) :: fs) p = true.
Proof.
  intros Hne Hx. apply path_exists_stat. split; [exact Hne|]. exists x.
  cbn [List.length stat_from]. rewrite lookup_cons, String.eqb_refl.
  now destruct Hx as [-> | ->].
Qed.

(** A link made at a path that led nowhere exists as soon as what it
    points to does. *)
Lemma path_exists_head_link fs q src :
  q <> "" -> path_exists fs q = false -> path_exists fs src = true ->
  path_exists ((q, Link src) :: fs) q = true.
Proof.
  intros Hq Hnone H. apply path_exists_stat in H as (Hne & k & H).
  apply path_exists_stat. split; [exact Hq|]. exists k.
  cbn [List.length]. change (stat_from (S (S (List.length fs))) ((q, Link src) :: fs) q)
    with (match lookup ((q, Link src) :: fs) q with
          | Some (Link target) =>
              stat_from (S (List.length fs)) ((q, Link src) :: fs) target
          | other => other
          end).
  rewrite lookup_cons, String.eqb_refl.
  apply stat_from_cons_absent; [|lia|exact H].
  unfold path_exists, stat in Hnone.
  destruct (String.eqb_spec q "") as [E|_]; [contradiction|].
  now destruct (stat_from (S (List.length fs)) fs q).
Qed.

Lemma lookup_None_path_exists fs p : lookup fs p = None -> path_exists fs p = false.
Proof.
  intros H. unfold path_exists, stat. destruct (String.eqb p ""); [reflexivity|].
  cbn [stat_from]. now rewrite H.
Qed.

Lemma isdir_path_exists fs p : isdir fs p = true -> path_exists fs p = true.
Proof.
  unfold isdir, path_exists. now destruct (stat fs p) as [[| |t]|].
Qed.

Lemma world_le_refl w : world_le w w.
Proof. intros p H. exact H. Qed.


End DiskFacts.

(** ** The planning pass *)

Section PlannerFacts.
Import Assets.

Variable path_join : string -> string -> string.
Variable relpath : string -> string -> option string.
Variable dirname basename : string -> string.
Variable replaceBaseExt : string -> string -> string.
Variable removeExt getExt : string -> string.
Variable commonPath : list string -> string.
Variable str_replace : string -> string -> string -> string.
Variable is_substring : string -> string -> bool.
Variable endswith : string -> string -> bool.
Variable normpath : string -> string.

#[local] Arguments path_exists : simpl never.
#[local] Arguments isdir : simpl never.

#[local] Abbreviation has_parent := (Assets.has_parent dirname).
#[local] Abbreviation os_symlink := (Assets.os_symlink path_join dirname normpath).
#[local] Abbreviation createLink := (Assets.createLink relpath dirname).
#[local] Abbreviation makedirs := (Assets.makedirs dirname).
#[local] Abbreviation makePath := (Assets.makePath dirname).
#[local] Abbreviation ih_convertStack := (Assets.ih_convertStack dirname).
#[local] Abbreviation relativeOutput :=
  (Assets.relativeOutput path_join relpath dirname basename is_substring).
#[local] Abbreviation getUniqueFileName :=
  (Assets.getUniqueFileName path_join replaceBaseExt removeExt).
#[local] Abbreviation call :=
  (Assets.call path_join relpath dirname replaceBaseExt removeExt str_replace).
#[local] Abbreviation map_files :=
  (Assets.map_files path_join relpath dirname replaceBaseExt removeExt str_replace).
#[local] Abbreviation convertBinaryFiles :=
  (Assets.convertBinaryFiles path_join relpath dirname basename
     replaceBaseExt removeExt getExt commonPath str_replace
     is_substring endswith normpath).
#[local] Abbreviation ext_of first :=
  (match getExt first with EmptyString => EmptyString | String _ r => r end).
#[local] Abbreviation root_of outputDir force :=
  (if force then outputDir%string else path_join outputDir "input").

Lemma has_parent_not_empty fs p : has_parent fs p = true -> p <> "".
Proof.
  unfold Assets.has_parent. intros H E. subst. discriminate H.
Qed.

Lemma getUniqueFileName_spec outputRoot d fn ext :
  let newFn := path_join outputRoot (replaceBaseExt fn ext) in
  let newRoot := removeExt newFn in
  exists r,
    getUniqueFileName outputRoot d fn ext = Some r
    /\ ~ In r (Dict.values d)
    /\ (r = newFn
        \/ In newFn (Dict.values d)
           /\ exists k, 2 <= k /\ r = suffixed newRoot k ext
              /\ forall j, 2 <= j < k ->
                           In (suffixed newRoot j ext) (Dict.values d)).
Proof. intros newFn newRoot. apply unique_loop_spec. Qed.

(** What each operation on the disk leaves, when it does not raise. *)
Lemma os_symlink_Some src dst w w' :
  os_symlink src dst w = Some w' ->
  path_exists (fs w) dst = false
  /\ w' = {| fs := (dst, Link (normpath (path_join (dirname dst) src))) :: fs w;
             log := log w ++ [Symlink src dst] |}
  /\ world_le w w'.
Proof.
  unfold Assets.os_symlink.
  destruct (lookup (fs w) dst) eqn:El; [discriminate|].
  destruct (has_parent (fs w) dst) eqn:Ep; [|discriminate].
  intros [= <-]. pose proof (lookup_None_path_exists _ _ El) as Hnone.
  split; [exact Hnone|]. split; [reflexivity|].
  intros p Hp. cbn [fs]. apply path_exists_cons_absent; auto.
  exact (has_parent_not_empty _ _ Ep).
Qed.

Lemma createLink_Some src dst w w' :
  path_exists (fs w) dst = false ->
  createLink src dst w = Some w' ->
  w' = {| fs := (dst, Link src) :: fs w; log := log w ++ [CreateLink src dst] |}
  /\ world_le w w'
  /\ (path_exists (fs w) src = true -> path_exists (fs w') dst = true).
Proof.
  intros Hnone. unfold Assets.createLink.
  assert (has_parent (fs w) dst = true ->
          world_le w {| fs := (dst, Link src) :: fs w;
                        log := log w ++ [CreateLink src dst] |}
          /\ (path_exists (fs w) src = true ->
              path_exists ((dst, Link src) :: fs w) dst = true)) as Hok.
  { intros Ep. pose proof (has_parent_not_empty _ _ Ep) as Hne. split.
    - intros p Hp. cbn [fs]. now apply path_exists_cons_absent.
    - intros Hsrc. now apply path_exists_head_link. }
  destruct (lookup (fs w) dst) as [[| |t]|]; try discriminate;
    (destruct (relpath (dirname src) (dirname dst)); [|discriminate]);
    (destruct (has_parent (fs w) dst); [|discriminate]);
    intros [= <-]; (split; [reflexivity|]); apply Hok; reflexivity.
Qed.

Lemma makedirs_Some n :
  forall p fs fs',
    makedirs n p fs = Some fs' ->
    (forall q, path_exists fs q = true -> path_exists fs' q = true)
    /\ (p <> "" -> path_exists fs' p = true).
Proof.
  induction n as [|n IH]; intros p fs fs'; [discriminate|].
  cbn [Assets.makedirs]. destruct (String.eqb_spec p "") as [->|Hne].
  - intros [= <-]. split; [auto|congruence].
  - destruct (lookup fs p) as [x|].
    + destruct (isdir fs p) eqn:Ed; [|discriminate].
      intros [= <-]. split; [auto|]. intros _. now apply isdir_path_exists.
    + destruct (makedirs n (dirname p) fs) as [fs1|] eqn:E; [|discriminate].
      intros [= <-]. apply IH in E as [Hle _]. split.
      * intros q Hq. apply path_exists_cons_node; auto.
      * intros _. apply path_exists_head_node; auto.
Qed.

Lemma makePath_Some p w w' :
  makePath p w = Some w' ->
  world_le w w'
  /\ (p <> "" -> path_exists (fs w') p = true)
  /\ log w' = (log w ++ if path_exists (fs w) p || String.eqb p ""
                        then [] else [MakePath p])%list
  /\ (path_exists (fs w) p || String.eqb p "" = true -> w' = w).
Proof.
  unfold Assets.makePath.
  destruct (path_exists (fs w) p || String.eqb p "") eqn:E.
  - intros [= <-]. split; [apply world_le_refl|]. split.
    + intros Hne. apply orb_true_iff in E as [E|E]; [exact E|].
      apply String.eqb_eq in E. contradiction.
    + split; [now rewrite app_nil_r|reflexivity].
  - destruct (makedirs (S (String.length p)) p (fs w)) as [fs'|] eqn:Em;
      [|discriminate].
    intros [= <-]. apply makedirs_Some in Em as [Hle Hex].
    split; [exact Hle|]. split; [exact Hex|]. split; [reflexivity|discriminate].
Qed.

Lemma makePath_exists p w :
  path_exists (fs w) p || String.eqb p "" = true -> makePath p w = Some w.
Proof. intros H. unfold Assets.makePath. now rewrite H. Qed.

Lemma ih_convertStack_Some src dst w w' :
  ih_convertStack src dst w = Some w' ->
  w' = {| fs := (dst, File) :: fs w; log := log w ++ [ConvertStack src dst] |}
  /\ world_le w w'
  /\ path_exists (fs w') dst = true.
Proof.
  unfold Assets.ih_convertStack.
  destruct (path_exists (fs w) src); [|discriminate].
  destruct (has_parent (fs w) dst) eqn:Ep; [|discriminate].
  destruct (isdir (fs w) dst); [discriminate|].
  intros [= <-]. split; [reflexivity|]. split.
  - intros p Hp. cbn [fs]. apply path_exists_cons_node; auto.
  - cbn [fs]. apply path_exists_head_node; auto.
    exact (has_parent_not_empty _ _ Ep).
Qed.

Section Closures.
Variables outputRoot extension rootDir : string.

(** One call of the chosen [mapFunc] that returns: the name it returns
    (which does not depend on the disk), and what it did. *)
Lemma call_Some f d fn w newFn w' :
  call outputRoot extension rootDir f d fn w = Some (newFn, w') ->
  match f with
  | convertStack =>
      getUniqueFileName outputRoot d fn "mrcs" = Some newFn
      /\ ih_convertStack fn newFn w = Some w'
  | replaceRoot => newFn = str_replace fn rootDir outputRoot /\ w' = w
  | createBinaryLink =>
      getUniqueFileName outputRoot d fn extension = Some newFn
      /\ if path_exists (fs w) newFn then w' = w
         else createLink fn newFn w = Some w'
  end.
Proof.
  destruct f; cbn [Assets.call].
  - destruct (getUniqueFileName outputRoot d fn "mrcs") as [r|]; [|discriminate].
    destruct (ih_convertStack fn r w) as [w1|] eqn:E; [|discriminate].
    intros [= <- <-]. auto.
  - intros [= <- <-]. auto.
  - destruct (getUniqueFileName outputRoot d fn extension) as [r|]; [|discriminate].
    destruct (path_exists (fs w) r) eqn:Ex; cbn [negb].
    + intros [= <- <-]. rewrite Ex. auto.
    + destruct (createLink fn r w) as [w1|] eqn:E; [|discriminate].
      intros [= <- <-]. rewrite Ex. auto.
Qed.

(** The name is new among the values, and the same on every disk. *)
Lemma call_name f d fn w newFn w' :
  call outputRoot extension rootDir f d fn w = Some (newFn, w') ->
  (f <> replaceRoot -> ~ In newFn (Dict.values d))
  /\ forall v newFn' v',
      call outputRoot extension rootDir f d fn v = Some (newFn', v') ->
      newFn' = newFn.
Proof.
  intros H. apply call_Some in H. split.
  - intros Hf. destruct f; [|congruence|]; destruct H as [Hn _].
    + destruct (getUniqueFileName_spec outputRoot d fn "mrcs") as (r & Hr & Hfree & _).
      congruence.
    + destruct (getUniqueFileName_spec outputRoot d fn extension)
        as (r & Hr & Hfree & _).
      congruence.
  - intros v newFn' v' H'. apply call_Some in H'.
    destruct f; destruct H as [Hn _]; destruct H' as [Hn' _]; congruence.
Qed.

(** The disk only grows, the history only gets longer, and the new name
    exists afterwards when the file it stands for does. *)
Lemma call_disk f d fn w newFn w' :
  call outputRoot extension rootDir f d fn w = Some (newFn, w') ->
  world_le w w'
  /\ (exists extra, log w' = (log w ++ extra)%list)
  /\ (f <> replaceRoot ->
      (f = createBinaryLink -> path_exists (fs w) fn = true) ->
      path_exists (fs w') newFn = true).
Proof.
  intros H. apply call_Some in H. destruct f.
  - destruct H as [_ H]. apply ih_convertStack_Some in H as (-> & Hle & Hex).
    split; [exact Hle|]. split; [now exists [ConvertStack fn newFn]|auto].
  - destruct H as [_ ->]. split; [apply world_le_refl|].
    split; [exists []; now rewrite app_nil_r|congruence].
  - destruct H as [_ H]. destruct (path_exists (fs w) newFn) eqn:Ex.
    + subst w'. split; [apply world_le_refl|].
      split; [exists []; now rewrite app_nil_r|auto].
    + apply (createLink_Some _ _ _ _ Ex) in H as (-> & Hle & Hex).
      split; [exact Hle|]. split; [now exists [CreateLink fn newFn]|auto].
Qed.




Lemma map_files_NoDup f files :
  f <> replaceRoot ->
  forall d w d' w',
    NoDup (Dict.values d) ->
    map_files outputRoot extension rootDir f files d w = Some (d', w') ->
    NoDup (Dict.values d').
Proof.
  intros Hf. induction files as [|fn rest IH]; intros d w d' w' Hnd;
    cbn [Assets.map_files].
  - now intros [= <- _].
  - destruct (call outputRoot extension rootDir f d fn w) as [[newFn w1]|] eqn:E;
      [|discriminate].
    apply call_name in E as [Hfree _]. apply IH.
    apply dict_values_set_NoDup; auto.
Qed.

Lemma map_files_keys f files :
  forall d w d' w',
    map_files outputRoot extension rootDir f files d w = Some (d', w') ->
    forall k, In k (Dict.keys d') <-> In k files \/ In k (Dict.keys d).
Proof.
  induction files as [|fn rest IH]; intros d w d' w'; cbn [Assets.map_files].
  - intros [= <- _] k. cbn [In]. clear. intuition.
  - destruct (call outputRoot extension rootDir f d fn w) as [[newFn w1]|];
      [|discriminate].
    intros H k. rewrite (IH _ _ _ _ H k), dict_keys_set. cbn [In].
    clear. intuition congruence.
Qed.




End Closures.

(** The pass over the files, written out branch by branch. *)
Lemma convertBinaryFiles_selected
      (first : string) (rest : list string) (outputDir extension : string)
      (force : bool) (w : world) :
  let files := first :: rest in
  let outputRoot := root_of outputDir force in
  let rootDir := commonPath files in
  convertBinaryFiles files outputDir extension force w
  = match selected endswith force (ext_of first) extension with
    | None => Some ([], w)
    | Some replaceRoot =>
        match relativeOutput rootDir outputRoot with
        | None => None
        | Some rel =>
            match (if path_exists (fs w) outputRoot then Some w
                   else os_symlink rel outputRoot w) with
            | None => None
            | Some ws =>
                match makePath outputRoot ws with
                | None => None
                | Some w0 =>
                    map_files outputRoot extension rootDir replaceRoot files [] w0
                end
            end
        end
    | Some f =>
        match makePath outputRoot w with
        | None => None
        | Some w0 => map_files outputRoot extension rootDir f files [] w0
        end
    end.
Proof.
  cbv zeta. unfold Assets.convertBinaryFiles, selected.
  destruct force; [reflexivity|].
  destruct (String.eqb _ extension).
  - destruct (relativeOutput _ _) as [rel|]; [|reflexivity].
    destruct (path_exists (fs w) (path_join outputDir "input")); cbn [negb];
      [reflexivity|].
    destruct (os_symlink rel (path_join outputDir "input") w); reflexivity.
  - destruct (String.eqb _ "mrc" && String.eqb extension "mrcs");
      [reflexivity|].
    destruct (endswith _ "hdf"); reflexivity.
Qed.

(** The link at the output root in the relocating branch: when the run
    returns, the output root exists once the link is there, and
    [makePath] has nothing to do. *)
Lemma relocating_prepared rel outputRoot w ws w0 :
  (if path_exists (fs w) outputRoot then Some w
   else os_symlink rel outputRoot w) = Some ws ->
  makePath outputRoot ws = Some w0 ->
  w0 = ws
  /\ path_exists (fs ws) outputRoot = true
  /\ world_le w ws
  /\ ws = if path_exists (fs w) outputRoot then w
          else {| fs := (outputRoot,
                         Link (normpath (path_join (dirname outputRoot) rel)))
                        :: fs w;
                  log := log w ++ [Symlink rel outputRoot] |}.
Proof.
  destruct (path_exists (fs w) outputRoot) eqn:Ex.
  - intros [= <-] Hmk. rewrite makePath_exists in Hmk by (now rewrite Ex).
    injection Hmk as <-. split; [reflexivity|]. split; [exact Ex|].
    split; [apply world_le_refl|reflexivity].
  - intros Hsym Hmk. pose proof Hsym as Hsym'.
    apply os_symlink_Some in Hsym' as (_ & Hws & Hle).
    assert (outputRoot <> "") as Hne.
    { unfold Assets.os_symlink in Hsym.
      destruct (lookup (fs w) outputRoot); [discriminate|].
      destruct (has_parent (fs w) outputRoot) eqn:Ep; [|discriminate].
      exact (has_parent_not_empty _ _ Ep). }
    assert (path_exists (fs ws) outputRoot = true) as Hex.
    { destruct (path_exists (fs ws) outputRoot) eqn:Ex'; [reflexivity|].
      exfalso. revert Hmk. unfold Assets.makePath. rewrite Ex'.
      apply String.eqb_neq in Hne. rewrite Hne. cbn [orb Assets.makedirs].
      rewrite Hne. rewrite Hws at 1. cbn [fs]. rewrite lookup_cons, String.eqb_refl.
      assert (isdir (fs ws) outputRoot = false) as Hd.
      { destruct (isdir (fs ws) outputRoot) eqn:Ed; [|reflexivity].
        apply isdir_path_exists in Ed. congruence. }
      rewrite Hd. discriminate. }
    rewrite makePath_exists in Hmk by (now rewrite Hex). injection Hmk as <-.
    split; [reflexivity|]. split; [exact Hex|]. split; [exact Hle|exact Hws].
Qed.

(** A run that returns: the branch, the disk the pass over the files
    starts from, and the pass. *)
Lemma convertBinaryFiles_Some files outputDir extension force w d w' :
  convertBinaryFiles files outputDir extension force w = Some (d, w') ->
  let outputRoot := root_of outputDir force in
  let rootDir := commonPath files in
  files <> []
  /\ match selected endswith force (ext_of (hd "" files)) extension with
     | None => d = [] /\ w' = w
     | Some f =>
         exists w0,
           world_le w w0
           /\ (exists extra, log w0 = (log w ++ extra)%list)
           /\ (outputRoot <> "" -> path_exists (fs w0) outputRoot = true)
           /\ map_files outputRoot extension rootDir f files [] w0 = Some (d, w')
     end.
Proof.
  destruct files as [|first rest]; [discriminate|]. cbn [hd]. cbv zeta.
  rewrite convertBinaryFiles_selected. intros H. split; [discriminate|].
  destruct (selected endswith force (ext_of first) extension) as [f|].
  - assert (match makePath (root_of outputDir force) w with
            | Some w0 =>
                map_files (root_of outputDir force) extension
                          (commonPath (first :: rest)) f (first :: rest) [] w0
            | None => None
            end = Some (d, w') ->
            exists w0,
              world_le w w0
              /\ (exists extra, log w0 = (log w ++ extra)%list)
              /\ (root_of outputDir force <> "" ->
                  path_exists (fs w0) (root_of outputDir force) = true)
              /\ map_files (root_of outputDir force) extension
                           (commonPath (first :: rest)) f (first :: rest) [] w0
                 = Some (d, w')) as Hplain.
    { destruct (makePath (root_of outputDir force) w) as [w0|] eqn:Emk;
        [|discriminate].
      intros Hrun. exists w0. apply makePath_Some in Emk as (Hle & Hex & Hlog & _).
      split; [exact Hle|]. split; [eauto|]. split; [exact Hex|exact Hrun]. }
    destruct f; try exact (Hplain H).
    destruct (relativeOutput _ _) as [rel|]; [|discriminate].
    destruct (if path_exists (fs w) (root_of outputDir force) then Some w
              else os_symlink rel (root_of outputDir force) w) as [ws|] eqn:Es;
      [|discriminate].
    destruct (makePath (root_of outputDir force) ws) as [w0|] eqn:Emk;
      [|discriminate].
    destruct (relocating_prepared _ _ _ _ _ Es Emk) as (-> & Hex & Hle & Hws).
    exists ws. split; [exact Hle|]. split.
    + rewrite Hws. destruct (path_exists (fs w) (root_of outputDir force)).
      * exists []. now rewrite app_nil_r.
      * eexists. reflexivity.
    + split; [auto|exact H].
  - injection H as <- <-. auto.
Qed.



End PlannerFacts.

Section PlannerTheorems.
Import Assets.

Variable path_join : string -> string -> string.
Variable relpath : string -> string -> option string.
Variable dirname basename : string -> string.
Variable replaceBaseExt : string -> string -> string.
Variable removeExt getExt : string -> string.
Variable commonPath : list string -> string.
Variable str_replace : string -> string -> string -> string.
Variable is_substring : string -> string -> bool.
Variable endswith : string -> string -> bool.
Variable normpath : string -> string.

#[local] Arguments path_exists : simpl never.

#[local] Abbreviation getUniqueFileName :=
  (Assets.getUniqueFileName path_join replaceBaseExt removeExt).
#[local] Abbreviation map_files :=
  (Assets.map_files path_join relpath dirname replaceBaseExt removeExt str_replace).
#[local] Abbreviation convertBinaryFiles :=
  (Assets.convertBinaryFiles path_join relpath dirname basename
     replaceBaseExt removeExt getExt commonPath str_replace
     is_substring endswith normpath).
#[local] Abbreviation ext_of first :=
  (match getExt first with EmptyString => EmptyString | String _ r => r end).
#[local] Abbreviation root_of outputDir force :=
  (if force then outputDir%string else path_join outputDir "input").

(** C9.  [getUniqueFileName] always returns, with a name that is not a
    value of the mapping yet: the plain name, or, when that one is
    taken, the name with the first suffix [_00002], [_00003], ... that
    is free.  Hence, whenever a pass returns, in every branch that names
    its outputs this way (every branch but the root substitution) the
    values of the returned mapping are pairwise distinct: no name is
    given to two source files. *)
Theorem unique_output_names
        (files : list string) (outputDir extension : string)
        (forceConvert : bool) (w : world) :
  (forall outputRoot d fn ext,
      let newFn := path_join outputRoot (replaceBaseExt fn ext) in
      exists r,
        getUniqueFileName outputRoot d fn ext = Some r
        /\ ~ In r (Dict.values d)
        /\ (r = newFn
            \/ In newFn (Dict.values d)
               /\ exists k, 2 <= k
                  /\ r = suffixed (removeExt newFn) k ext
                  /\ forall j, 2 <= j < k ->
                       In (suffixed (removeExt newFn) j ext) (Dict.values d)))
  /\ forall d w',
      convertBinaryFiles files outputDir extension forceConvert w = Some (d, w') ->
      (selected endswith forceConvert (ext_of (hd "" files)) extension <> None ->
       forall fn, In fn (Dict.keys d) <-> In fn files)
      /\ (selected endswith forceConvert (ext_of (hd "" files)) extension
            <> Some replaceRoot ->
          NoDup (Dict.values d)
          /\ forall fn1 fn2 newFn,
              Dict.get d fn1 = Some newFn -> Dict.get d fn2 = Some newFn ->
              fn1 = fn2).
Proof.
  split.
  - intros outputRoot d fn ext. apply getUniqueFileName_spec.
  - intros d w' Hrun.
    apply convertBinaryFiles_Some in Hrun as [_ Hrun]. cbv zeta in Hrun.
    destruct (selected endswith forceConvert (ext_of (hd "" files)) extension)
      as [f|] eqn:Hsel.
    + destruct Hrun as (w0 & _ & _ & _ & Hpass). split.
      * intros _ fn. pose proof Hpass as Hkeys.
        eapply map_files_keys in Hkeys. rewrite Hkeys.
        cbn [Dict.keys map In]. clear. intuition.
      * intros Hf.
        assert (NoDup (Dict.values d)) as Hnd.
        { assert (f <> replaceRoot) as Hf' by congruence.
          eapply map_files_NoDup; [exact Hf'| |exact Hpass]. constructor. }
        split; [exact Hnd|].
        intros fn1 fn2 newFn. now apply dict_get_inj.
    + destruct Hrun as [-> _]. split; [congruence|].
      intros _. split; [constructor|]. intros fn1 fn2 newFn [=].
Qed.


End PlannerTheorems.

Lemma unique_output_names_witness :
  let files := ["Runs/001/extra/particles.mrc"; "Runs/002/extra/particles.mrc"] in
  let w := {| Assets.fs := OsPath.project; Assets.log := [] |} in
  exists d w',
    OsPath.convertBinaryFiles files "Runs/003/tmp" "mrcs" false w = Some (d, w')
    /\ d = [("Runs/001/extra/particles.mrc", "Runs/003/tmp/input/particles.mrcs");
            ("Runs/002/extra/particles.mrc",
             "Runs/003/tmp/input/particles_00002.mrcs")]
    /\ NoDup (Dict.values d)
    /\ forall fn1 fn2 newFn,
        Dict.get d fn1 = Some newFn -> Dict.get d fn2 = Some newFn -> fn1 = fn2.
Proof.
  intros files w.
  destruct (OsPath.convertBinaryFiles files "Runs/003/tmp" "mrcs" false w)
    as [[d w']|] eqn:Hrun; [|discriminate Hrun].
  exists d, w'. split; [reflexivity|].
  split; [injection Hrun as <- _; reflexivity|].
  destruct (unique_output_names
              OsPath.path_join OsPath.relpath OsPath.dirname OsPath.basename
              OsPath.replaceBaseExt OsPath.removeExt OsPath.getExt
              OsPath.commonPath OsPath.str_replace OsPath.is_substring
              OsPath.endswith OsPath.normpath files "Runs/003/tmp" "mrcs" false w)
    as (_ & Hpass).
  apply (Hpass d w' Hrun). vm_compute. discriminate.
Defined.


(** C10 as stated fails for a set iterated in another order: with two
    stacks of the same base name, the suffix goes to the file that comes
    second, so the same set of files gives another mapping; and on the
    disk the first run left, the second run makes no link and maps the
    file that now comes first to the link of the other file. *)
Lemma planner_order_counterexample :
  let a := "Runs/001/extra/particles.mrc" in
  let b := "Runs/002/extra/particles.mrc" in
  let w := {| Assets.fs := OsPath.project; Assets.log := [] |} in
  exists d1 w1 d2,
    OsPath.convertBinaryFiles [a; b] "Runs/003/tmp" "mrcs" false w = Some (d1, w1)
    /\ OsPath.convertBinaryFiles [b; a] "Runs/003/tmp" "mrcs" false w1
       = Some (d2, w1)
    /\ Dict.get d1 b = Some "Runs/003/tmp/input/particles_00002.mrcs"
    /\ Dict.get d2 b = Some "Runs/003/tmp/input/particles.mrcs"
    /\ Dict.get d1 b <> Dict.get d2 b
    /\ Assets.lookup (Assets.fs w1) "Runs/003/tmp/input/particles.mrcs"
       = Some (Assets.Link a).
Proof.
  intros a b w. do 3 eexists.
  split; [reflexivity|]. split; [reflexivity|].
  split; [reflexivity|]. split; [reflexivity|].
  split; [discriminate|reflexivity].
Qed.

(** ** Optics groups *)

Section OpticsFacts.
Import Py Em Writer.

Lemma dict_get_app_l {V} (d d' : Dict.t V) k v :
  Dict.get d k = Some v -> Dict.get (d ++ d')%list k = Some v.
Proof.
  induction d as [|[k' v'] d IH]; simpl; [discriminate|].
  destruct (String.eqb k' k); auto.
Qed.

Lemma dict_get_None_keys {V} (d : Dict.t V) k :
  Dict.get d k = None <-> existsb (String.eqb k) (Dict.keys d) = false.
Proof.
  induction d as [|[k' v'] d IH]; simpl; [easy|].
  rewrite (String.eqb_sym k k').
  destruct (String.eqb k' k); simpl; [easy|exact IH].
Qed.

Lemma dict_keys_app {V} (d d' : Dict.t V) :
  Dict.keys (d ++ d')%list = (Dict.keys d ++ Dict.keys d')%list.
Proof. apply map_app. Qed.

Lemma pixel_label_cases l :
  pixel_label l = true -> l = "rlnImagePixelSize" \/ l = "rlnMicrographPixelSize".
Proof.
  unfold pixel_label. rewrite orb_true_iff, !String.eqb_eq. tauto.
Qed.

(** A record whose name is not in the store: a new entry goes to the
    end of the store, numbered with the size of the store plus one and
    holding the record's pixel size. *)
Lemma getOpticsGroupNumber_miss self img :
  pixel_label (_imgLabelPixelSize self) = true ->
  Dict.get (_optics self) (ogNameOf img) = None ->
  exists entry,
    getOpticsGroupNumber img self
    = Some (VInt (Dict.len (_optics self) + 1),
            set_optics self (_optics self ++ [(ogNameOf img, entry)])%list)
    /\ Dict.get entry "rlnOpticsGroup" = Some (VInt (Dict.len (_optics self) + 1))
    /\ Dict.get entry (_imgLabelPixelSize self) = Some (VFloat (getSamplingRate img)).
Proof.
  intros Hl Hmiss.
  unfold getOpticsGroupNumber, bind, get, put, ret, Dict.mem.
  fold (ogNameOf img). rewrite Hmiss. cbn [negb].
  rewrite (dict_set_absent _ _ _ Hmiss).
  eexists. split; [reflexivity|].
  apply pixel_label_cases in Hl.
  destruct Hl as [-> | ->]; destruct (mtfFile (getAcquisition img));
    split; reflexivity.
Qed.

(** A record whose name is in the store: the stored number comes back
    and the writer is left as it was. *)
Lemma getOpticsGroupNumber_hit self img entry ogNumber :
  Dict.get (_optics self) (ogNameOf img) = Some entry ->
  Dict.get entry "rlnOpticsGroup" = Some ogNumber ->
  getOpticsGroupNumber img self = Some (ogNumber, self).
Proof.
  intros Hhit Hnum.
  unfold getOpticsGroupNumber, bind, get, put, ret, Dict.mem.
  fold (ogNameOf img). rewrite Hhit. cbn [negb]. now rewrite Hnum.
Qed.

Lemma has_numbers_get optics name entry :
  has_numbers optics = true ->
  Dict.get optics name = Some entry ->
  exists ogNumber, Dict.get entry "rlnOpticsGroup" = Some ogNumber.
Proof.
  unfold has_numbers. induction optics as [|[k e] o IH]; simpl; [discriminate|].
  rewrite andb_true_iff. intros [He Ho].
  destruct (String.eqb k name).
  - intros [= <-]. unfold Dict.mem in He.
    destruct (Dict.get e "rlnOpticsGroup"); [eauto|discriminate].
  - auto.
Qed.

Lemma has_numbers_app o1 o2 :
  has_numbers (o1 ++ o2)%list = has_numbers o1 && has_numbers o2.
Proof. apply forallb_app. Qed.

(** One call on a store whose groups carry their numbers: it returns,
    the groups stored before are kept as they are, and so are the labels
    of the writer. *)
Lemma getOpticsGroupNumber_keeps self img :
  pixel_label (_imgLabelPixelSize self) = true ->
  has_numbers (_optics self) = true ->
  exists n self',
    getOpticsGroupNumber img self = Some (n, self')
    /\ _imgLabelPixelSize self' = _imgLabelPixelSize self
    /\ has_numbers (_optics self') = true
    /\ forall name entry,
        Dict.get (_optics self) name = Some entry ->
        Dict.get (_optics self') name = Some entry.
Proof.
  intros Hl Hwf.
  destruct (Dict.get (_optics self) (ogNameOf img)) as [entry|] eqn:E.
  - destruct (has_numbers_get _ _ _ Hwf E) as (n & Hn).
    exists n, self. rewrite (getOpticsGroupNumber_hit _ _ _ _ E Hn). auto.
  - destruct (getOpticsGroupNumber_miss self img Hl E) as (entry & -> & Hn & _).
    eexists. eexists. split; [reflexivity|]. cbn [_imgLabelPixelSize _optics set_optics].
    split; [reflexivity|]. split.
    + rewrite has_numbers_app, Hwf. simpl. unfold Dict.mem. now rewrite Hn.
    + intros name e He. now apply dict_get_app_l.
Qed.

Lemma resolve_all_keeps imgs :
  forall self,
    pixel_label (_imgLabelPixelSize self) = true ->
    has_numbers (_optics self) = true ->
    exists ids self',
      resolve_all imgs self = Some (ids, self')
      /\ List.length ids = List.length imgs
      /\ forall name entry,
          Dict.get (_optics self) name = Some entry ->
          Dict.get (_optics self') name = Some entry.
Proof.
  induction imgs as [|img rest IH]; intros self Hl Hwf; simpl.
  - exists [], self. auto.
  - unfold bind.
    destruct (getOpticsGroupNumber_keeps self img Hl Hwf)
      as (n & self1 & -> & Hl1 & Hwf1 & Hkeep1).
    rewrite <- Hl1 in Hl.
    destruct (IH self1 Hl Hwf1) as (ids & self' & -> & Hlen & Hkeep).
    exists (n :: ids), self'. split; [reflexivity|].
    split; [simpl; congruence|auto].
Qed.

End OpticsFacts.

(** C5.  On a store whose groups carry their numbers, resolving any
    sequence of records returns and leaves every group that was stored
    as it was; and a record whose group name is stored gets the stored
    number back with the writer untouched, whatever its own pixel size
    is. *)
Theorem optics_first_seen_wins
        (self : Writer.Writer) (imgs : list Em.Image) :
  Writer.pixel_label (Writer._imgLabelPixelSize self) = true ->
  Writer.has_numbers (Writer._optics self) = true ->
  (exists ids self',
      Writer.resolve_all imgs self = Some (ids, self')
      /\ forall name entry,
          Dict.get (Writer._optics self) name = Some entry ->
          Dict.get (Writer._optics self') name = Some entry)
  /\ forall img entry,
      Dict.get (Writer._optics self) (Writer.ogNameOf img) = Some entry ->
      exists ogNumber,
        Dict.get entry "rlnOpticsGroup" = Some ogNumber
        /\ Writer.getOpticsGroupNumber img self = Some (ogNumber, self).
Proof.
  intros Hl Hwf. split.
  - destruct (resolve_all_keeps imgs self Hl Hwf) as (ids & self' & Hrun & _ & Hkeep).
    eauto.
  - intros img entry Hhit.
    destruct (has_numbers_get _ _ _ Hwf Hhit) as (n & Hn).
    exists n. split; [exact Hn|].
    exact (getOpticsGroupNumber_hit self img entry n Hhit Hn).
Qed.

Section OpticsNumbering.
Import Py Em Writer.

Lemma first_seen_prefix l :
  forall seen, exists more, first_seen seen l = (seen ++ more)%list.
Proof.
  induction l as [|x l IH]; intros seen; simpl.
  - exists []. now rewrite app_nil_r.
  - destruct (existsb (String.eqb x) seen); [apply IH|].
    destruct (IH (seen ++ [x])%list) as (more & ->).
    exists (x :: more). now rewrite <- app_assoc.
Qed.



Lemma position_app x l more :
  existsb (String.eqb x) l = true -> position x (l ++ more) = position x l.
Proof.
  induction l as [|y l IH]; simpl; [discriminate|].
  rewrite (String.eqb_sym x y).
  destruct (String.eqb y x); simpl; [reflexivity|].
  intros H. rewrite existsb_app, H, (IH H). reflexivity.
Qed.

Lemma position_snoc x l :
  existsb (String.eqb x) l = false ->
  position x (l ++ [x]) = Z.of_nat (List.length l) + 1.
Proof.
  induction l as [|y l IH].
  - intros _. simpl. now rewrite String.eqb_refl.
  - change (position x ((y :: l) ++ [x]))
      with (if String.eqb y x then 1
            else if existsb (String.eqb x) (l ++ [x])
                 then 1 + position x (l ++ [x]) else 0).
    cbn [existsb]. rewrite (String.eqb_sym x y).
    destruct (String.eqb y x); cbn [orb]; [discriminate|].
    intros H. rewrite existsb_app, H, (IH H). cbn [existsb].
    rewrite String.eqb_refl. cbn [orb List.length]. lia.
Qed.

Lemma numbered_get optics :
  forall n name entry,
    numbered_from n optics ->
    Dict.get optics name = Some entry ->
    Dict.get entry "rlnOpticsGroup"
    = Some (VInt (n - 1 + position name (Dict.keys optics))).
Proof.
  induction optics as [|[k e] o IH]; intros n name entry;
    cbn [Dict.get Dict.keys map fst position numbered_from]; [discriminate|].
  intros [He Ho]. destruct (String.eqb k name) eqn:E.
  - intros [= <-]. rewrite He. do 2 f_equal. lia.
  - intros Hget.
    assert (existsb (String.eqb name) (Dict.keys o) = true) as Hin.
    { destruct (existsb (String.eqb name) (Dict.keys o)) eqn:Hex; [reflexivity|].
      apply dict_get_None_keys in Hex. congruence. }
    unfold Dict.keys in Hin. rewrite Hin.
    rewrite (IH (n + 1) name entry Ho Hget). unfold Dict.keys.
    do 2 f_equal. lia.
Qed.

Lemma numbered_app optics :
  forall n k e,
    numbered_from n optics ->
    Dict.get e "rlnOpticsGroup" = Some (VInt (n + Dict.len optics)) ->
    numbered_from n (optics ++ [(k, e)])%list.
Proof.
  unfold Dict.len.
  induction optics as [|[k' e'] o IH]; intros n k e; simpl.
  - intros _ He. split; [|exact I]. rewrite He. do 2 f_equal. lia.
  - intros [He' Ho] He. split; [exact He'|].
    apply IH; [exact Ho|]. rewrite He. do 2 f_equal. lia.
Qed.

(** Resolving a sequence of records on a store numbered 1, 2, ...: each
    record gets the position of its name among the names in first-seen
    order, and the store ends up holding exactly these names. *)
Lemma resolve_all_numbers imgs :
  forall self,
    pixel_label (_imgLabelPixelSize self) = true ->
    numbered_from 1 (_optics self) ->
    let names := first_seen (Dict.keys (_optics self)) (map ogNameOf imgs) in
    exists self',
      resolve_all imgs self
      = Some (map (fun img => VInt (position (ogNameOf img) names)) imgs, self')
      /\ Dict.keys (_optics self') = names
      /\ numbered_from 1 (_optics self').
Proof.
  induction imgs as [|img rest IH]; intros self Hl Hnum; cbn zeta.
  - exists self. simpl. auto.
  - cbn [resolve_all map first_seen]. unfold bind.
    destruct (Dict.get (_optics self) (ogNameOf img)) as [entry|] eqn:E.
    + assert (existsb (String.eqb (ogNameOf img)) (Dict.keys (_optics self)) = true)
        as Hin.
      { destruct (existsb _ (Dict.keys (_optics self))) eqn:Hex; [reflexivity|].
        apply dict_get_None_keys in Hex. congruence. }
      rewrite Hin.
      pose proof (numbered_get _ _ _ _ Hnum E) as Hn.
      rewrite (getOpticsGroupNumber_hit _ _ _ _ E Hn).
      destruct (IH self Hl Hnum) as (self' & -> & Hkeys & Hnum').
      exists self'. split; [|auto]. unfold ret.
      destruct (first_seen_prefix (map ogNameOf rest) (Dict.keys (_optics self)))
        as (more & Hmore).
      rewrite Hmore at 1. rewrite (position_app _ _ _ Hin).
      replace (1 - 1 + position (ogNameOf img) (Dict.keys (_optics self)))
        with (position (ogNameOf img) (Dict.keys (_optics self))) by lia.
      reflexivity.
    + assert (existsb (String.eqb (ogNameOf img)) (Dict.keys (_optics self)) = false)
        as Hout by (now apply dict_get_None_keys).
      rewrite Hout.
      destruct (getOpticsGroupNumber_miss self img Hl E) as (entry & -> & Hn & _).
      destruct (IH (set_optics self (_optics self ++ [(ogNameOf img, entry)])%list))
        as (self' & Hrun & Hkeys & Hnum').
      * exact Hl.
      * cbn [_optics set_optics]. apply numbered_app; [exact Hnum|].
        rewrite Hn. do 2 f_equal. lia.
      * cbn [_optics set_optics] in Hrun, Hkeys.
        rewrite dict_keys_app in Hrun, Hkeys. cbn [Dict.keys map fst] in Hrun, Hkeys.
        rewrite Hrun. exists self'. split; [|auto]. unfold ret.
        destruct (first_seen_prefix (map ogNameOf rest)
                    (Dict.keys (_optics self) ++ [ogNameOf img])%list)
          as (more & Hmore).
        rewrite Hmore at 1. rewrite position_app.
        -- rewrite (position_snoc _ _ Hout). unfold Dict.len, Dict.keys.
           now rewrite length_map.
        -- rewrite existsb_app. cbn [existsb]. rewrite String.eqb_refl.
           now rewrite orb_true_r.
Qed.

End OpticsNumbering.

Lemma optics_first_seen_wins_witness :
  let later := Fixtures.particle 2 (Fixtures.acquisition 300 None) 2 None in
  exists ids self',
    Writer.resolve_all [later] Fixtures.writer_after_first = Some (ids, self')
    /\ exists entry,
        Dict.get (Writer._optics self') "DefaultOpticsGroup" = Some entry
        /\ Dict.get entry "rlnImagePixelSize" = Some (Py.VFloat 1).
Proof.
  intros later.
  destruct (optics_first_seen_wins Fixtures.writer_after_first [later]
              eq_refl eq_refl) as [(ids & self' & Hrun & Hkeep) _].
  exists ids, self'. split; [exact Hrun|].
  eexists. split; [apply Hkeep; reflexivity|reflexivity].
Defined.




(** ** Extra attribute labels *)

Section AttributeFacts.
Import PyStr Py Writer.

Lemma dict_get_not_key {V} (d : Dict.t V) k :
  ~ In k (Dict.keys d) -> Dict.get d k = None.
Proof.
  induction d as [|[k' v] d IH]; simpl; [reflexivity|].
  intros H. destruct (String.eqb_spec k' k) as [->|_]; [tauto|].
  apply IH. tauto.
Qed.

(** When the label formatted from the whole list is not an attribute of
    the object, nothing is copied, whatever the list holds. *)
Lemma setAttributes_unchanged obj row attributes :
  Dict.get obj ("_" ++ repr_list attributes) = None ->
  setAttributes obj row attributes = row.
Proof.
  intros Hnone. unfold setAttributes.
  remember ("_" ++ repr_list attributes) as label eqn:Hlabel. clear Hlabel.
  rewrite Hnone. revert row.
  induction attributes as [|attr l IH]; intros row; cbn [fold_left];
    [reflexivity|apply IH].
Qed.

(** The label looked up starts with ["_["]: no attribute whose name is
    free of brackets is ever found. *)
Lemma setAttributes_identifiers obj row attributes :
  forallb (fun k => negb (contains_char "[" k)) (Dict.keys obj) = true ->
  setAttributes obj row attributes = row.
Proof.
  intros Hkeys. apply setAttributes_unchanged, dict_get_not_key.
  intros Hin. rewrite forallb_forall in Hkeys. apply Hkeys in Hin.
  unfold repr_list in Hin. simpl in Hin. discriminate.
Qed.

End AttributeFacts.

(** C7 (the code departs from it).  A particle carries the attribute
    [_rlnParticleSelectZScore] and the label [rlnParticleSelectZScore] is
    among the extra labels: [_setAttributes] copies nothing, and the row
    [_partToRow] builds has no such label. *)
Theorem extra_label_not_copied :
  let labels := ["rlnParticleSelectZScore"; "rlnMovieFrameNumber"] in
  Dict.get (Em.attributes Fixtures.scored_particle) "_rlnParticleSelectZScore"
  = Some (Py.VFloat (3 / 2))
  /\ Writer.setAttributes (Em.attributes Fixtures.scored_particle) [] labels = []
  /\ option_map fst
       (Fixtures.partToRow Fixtures.scored_particle []
                           (Fixtures.particles_writer None labels))
     = Some [("rlnImageId", Py.VInt 1);
             ("rlnImageName",
              Py.VStr "000001@Runs/000002_Extract/extra/stack.mrcs");
             ("rlnOpticsGroup", Py.VInt 1)].
Proof.
  intros labels. split; [reflexivity|]. split; reflexivity.
Qed.

(** ** Alignment rows *)

Section TransformFacts.
Import Py Geom Em.
Open Scope R_scope.

(** Two matrices with the same sixteen entries are equal. *)
Lemma mat4_eq a00 a01 a02 a03 a10 a11 a12 a13 a20 a21 a22 a23 a30 a31 a32 a33
      b00 b01 b02 b03 b10 b11 b12 b13 b20 b21 b22 b23 b30 b31 b32 b33 :
  a00 = b00 -> a01 = b01 -> a02 = b02 -> a03 = b03 ->
  a10 = b10 -> a11 = b11 -> a12 = b12 -> a13 = b13 ->
  a20 = b20 -> a21 = b21 -> a22 = b22 -> a23 = b23 ->
  a30 = b30 -> a31 = b31 -> a32 = b32 -> a33 = b33 ->
  Mat4 a00 a01 a02 a03 a10 a11 a12 a13 a20 a21 a22 a23 a30 a31 a32 a33
  = Mat4 b00 b01 b02 b03 b10 b11 b12 b13 b20 b21 b22 b23 b30 b31 b32 b33.
Proof. intros. subst. reflexivity. Qed.

#[local] Ltac entries :=
  cbn [m00 m01 m02 m03 m10 m11 m12 m13 m20 m21 m22 m23 m30 m31 m32 m33].

#[local] Ltac minors :=
  unfold det, adjugate, minor00, minor01, minor02, minor03,
    minor10, minor11, minor12, minor13, minor20, minor21, minor22, minor23,
    minor30, minor31, minor32, minor33, det3; entries.

(** The adjugate is the inverse up to the determinant. *)
Lemma adjugate_left M : matmul (adjugate M) M = scale (det M) identity.
Proof.
  destruct M. unfold matmul, scale, identity. minors. apply mat4_eq; ring.
Qed.

Lemma adjugate_right M : matmul M (adjugate M) = scale (det M) identity.
Proof.
  destruct M. unfold matmul, scale, identity. minors. apply mat4_eq; ring.
Qed.

Lemma matmul_scale_l a A B : matmul (scale a A) B = scale a (matmul A B).
Proof. destruct A, B. unfold matmul, scale; entries. apply mat4_eq; ring. Qed.

Lemma matmul_scale_r a A B : matmul A (scale a B) = scale a (matmul A B).
Proof. destruct A, B. unfold matmul, scale; entries. apply mat4_eq; ring. Qed.

Lemma scale_scale a b A : scale a (scale b A) = scale (a * b) A.
Proof. destruct A. unfold scale; entries. apply mat4_eq; ring. Qed.

Lemma scale_1 A : scale 1 A = A.
Proof. destruct A. unfold scale; entries. apply mat4_eq; ring. Qed.

Lemma matmul_identity_l A : matmul identity A = A.
Proof. destruct A. unfold matmul, identity; entries. apply mat4_eq; ring. Qed.

Lemma matmul_identity_r A : matmul A identity = A.
Proof. destruct A. unfold matmul, identity; entries. apply mat4_eq; ring. Qed.

Lemma matmul_assoc A B C : matmul (matmul A B) C = matmul A (matmul B C).
Proof. destruct A, B, C. unfold matmul; entries. apply mat4_eq; ring. Qed.

(** A matrix has at most one inverse. *)
Lemma inverse_unique M N N' :
  matmul N M = identity -> matmul M N' = identity -> N = N'.
Proof.
  intros HN HN'.
  rewrite <- (matmul_identity_r N), <- HN', <- matmul_assoc, HN.
  apply matmul_identity_l.
Qed.

Lemma linalg_inv_Some M N :
  Np.linalg_inv M = Some N -> det M <> 0 /\ N = scale (/ det M) (adjugate M).
Proof.
  unfold Np.linalg_inv. destruct (Req_dec_T (det M) 0) as [|Hd]; [discriminate|].
  intros [= <-]. auto.
Qed.

(** [numpy.linalg.inv] returns a matrix that is an inverse on both
    sides, and raises only on a matrix whose determinant is zero. *)
Lemma linalg_inv_spec M :
  match Np.linalg_inv M with
  | Some N => matmul N M = identity /\ matmul M N = identity
  | None => det M = 0
  end.
Proof.
  destruct (Np.linalg_inv M) as [N|] eqn:E.
  - apply linalg_inv_Some in E as [Hd ->].
    rewrite matmul_scale_l, matmul_scale_r, adjugate_left, adjugate_right, scale_scale.
    replace (/ det M * det M) with 1 by (field; exact Hd).
    split; apply scale_1.
  - unfold Np.linalg_inv in E.
    destruct (Req_dec_T (det M) 0) as [Hd|]; [exact Hd|discriminate].
Qed.

(** On a matrix whose determinant is not zero it returns the inverse. *)
Lemma linalg_inv_of_inverse M N :
  det M <> 0 -> matmul M N = identity -> Np.linalg_inv M = Some N.
Proof.
  intros Hd HN. pose proof (linalg_inv_spec M) as H.
  destruct (Np.linalg_inv M) as [N0|]; [|contradiction].
  destruct H as [H0 _]. f_equal. exact (inverse_unique M N0 N H0 HN).
Qed.

Lemma rad2deg_deg2rad x : rad2deg (deg2rad x) = x.
Proof. unfold rad2deg, deg2rad. field. apply PI_neq0. Qed.

Lemma deg2rad_rad2deg x : deg2rad (rad2deg x) = x.
Proof. unfold rad2deg, deg2rad. field. apply PI_neq0. Qed.

Lemma EPS_pos : 0 < Tfs._EPS.
Proof.
  unfold Tfs._EPS. apply Rmult_lt_0_compat; [lra|].
  apply Rinv_0_lt_compat, pow_lt. lra.
Qed.

Lemma atan2_pos y x : 0 < x -> Tfs.atan2 y x = atan (y / x).
Proof. intros Hx. unfold Tfs.atan2. now destruct (Rlt_dec 0 x). Qed.

Lemma atan2_0_1 : Tfs.atan2 0 1 = 0.
Proof.
  rewrite atan2_pos by lra. replace (0 / 1) with 0 by field. apply atan_0.
Qed.



Section Writer2D.
Variable euler_from_matrix : mat4 -> vec3.

Lemma align2DToRow_cells self M row :
  let e := euler_from_matrix M in
  let row' := Writer.align2DToRow euler_from_matrix self M row in
  Dict.get row' "rlnAnglePsi" = Some (VFloat (rad2deg (v0 e) + rad2deg (v2 e)))
  /\ Dict.get row' "rlnOriginXAngst" = Some (VFloat (m03 M * Writer._pixelSize self))
  /\ Dict.get row' "rlnOriginYAngst" = Some (VFloat (m13 M * Writer._pixelSize self)).
Proof.
  intros e row'. unfold row', Writer.align2DToRow. repeat split.
  - rewrite dict_get_set_same. do 2 f_equal.
    unfold neg3, rad2deg3, v0, v2. cbn [fst snd]. fold e. unfold v0, v2. ring.
  - rewrite !dict_get_set_other by discriminate. now rewrite dict_get_set_same.
  - rewrite dict_get_set_other by discriminate. now rewrite dict_get_set_same.
Qed.

End Writer2D.

Section WriterProj.
Variable euler_from_matrix : mat4 -> vec3.
Variable linalg_inv : mat4 -> option mat4.

Lemma alignProjToRow_cells self M N row :
  linalg_inv M = Some N ->
  let e := euler_from_matrix N in
  let ps := Writer._pixelSize self in
  exists row',
    Writer.alignProjToRow euler_from_matrix linalg_inv self M row = Some row'
    /\ Dict.get row' "rlnOriginXAngst" = Some (VFloat (- m03 N * ps))
    /\ Dict.get row' "rlnOriginYAngst" = Some (VFloat (- m13 N * ps))
    /\ Dict.get row' "rlnOriginZAngst" = Some (VFloat (- m23 N * ps))
    /\ Dict.get row' "rlnAngleRot" = Some (VFloat (- rad2deg (v0 e)))
    /\ Dict.get row' "rlnAngleTilt" = Some (VFloat (- rad2deg (v1 e)))
    /\ Dict.get row' "rlnAnglePsi" = Some (VFloat (- rad2deg (v2 e))).
Proof.
  intros HN. cbv zeta. unfold Writer.alignProjToRow. rewrite HN.
  eexists. split; [reflexivity|].
  repeat split;
    rewrite ?dict_get_set_other by discriminate;
    rewrite dict_get_set_same; reflexivity.
Qed.

Lemma alignProjToRow_None self M row :
  linalg_inv M = None ->
  Writer.alignProjToRow euler_from_matrix linalg_inv self M row = None.
Proof. intros HN. unfold Writer.alignProjToRow. now rewrite HN. Qed.

End WriterProj.

End TransformFacts.



(** The determinant of a rotation built by [euler_matrix], with any
    translation put in its last column, is 1. *)
Lemma det_euler_matrix ai aj ak t :
  (Geom.det (Geom.set_translation (Tfs.euler_matrix ai aj ak) t) = 1)%R.
Proof.
  unfold Tfs.euler_matrix, Geom.set_translation.
  cbn [Geom.m00 Geom.m01 Geom.m02 Geom.m03 Geom.m10 Geom.m11 Geom.m12 Geom.m13
       Geom.m20 Geom.m21 Geom.m22 Geom.m23 Geom.m30 Geom.m31 Geom.m32 Geom.m33].
  unfold Geom.det, Geom.minor00, Geom.minor01, Geom.minor02, Geom.minor03, Geom.det3.
  cbn [Geom.m00 Geom.m01 Geom.m02 Geom.m03 Geom.m10 Geom.m11 Geom.m12 Geom.m13
       Geom.m20 Geom.m21 Geom.m22 Geom.m23 Geom.m30 Geom.m31 Geom.m32 Geom.m33].
  pose proof (sin2_cos2 (- ai)) as Hi. pose proof (sin2_cos2 (- aj)) as Hj.
  pose proof (sin2_cos2 (- ak)) as Hk. unfold Rsqr in Hi, Hj, Hk.
  set (si := sin (- ai)) in *. set (ci := cos (- ai)) in *.
  set (sj := sin (- aj)) in *. set (cj := cos (- aj)) in *.
  set (sk := sin (- ak)) in *. set (ck := cos (- ak)) in *.
  transitivity ((si * si + ci * ci) * (sj * sj + cj * cj) * (sk * sk + ck * ck))%R;
    [ring|rewrite Hi, Hj, Hk; ring].
Qed.

(** The library routines at a rotation out of the plane: the inverse of
    the quarter turn, the szyz angles of that inverse (a tilt of a
    quarter turn), the matrix rebuilt from them, and the row the writer
    makes of it at 1.0 A/px. *)
Example linalg_inv_quarter_turn :
  Np.linalg_inv Fixtures.quarter_turn = Some Fixtures.quarter_turn_inv.
Proof.
  apply linalg_inv_of_inverse.
  - unfold Fixtures.quarter_turn, Geom.det, Geom.minor00, Geom.minor01,
      Geom.minor02, Geom.minor03, Geom.det3.
    cbn [Geom.m00 Geom.m01 Geom.m02 Geom.m03 Geom.m10 Geom.m11 Geom.m12 Geom.m13
         Geom.m20 Geom.m21 Geom.m22 Geom.m23 Geom.m30 Geom.m31 Geom.m32 Geom.m33].
    lra.
  - unfold Fixtures.quarter_turn, Fixtures.quarter_turn_inv, Geom.matmul,
      Geom.identity.
    cbn [Geom.m00 Geom.m01 Geom.m02 Geom.m03 Geom.m10 Geom.m11 Geom.m12 Geom.m13
         Geom.m20 Geom.m21 Geom.m22 Geom.m23 Geom.m30 Geom.m31 Geom.m32 Geom.m33].
    apply mat4_eq; ring.
Qed.

Example euler_from_matrix_quarter_turn :
  Tfs.euler_from_matrix Fixtures.quarter_turn_inv
  = (PI / 2, - (PI / 2), - (PI / 2))%R.
Proof.
  unfold Tfs.euler_from_matrix, Fixtures.quarter_turn_inv.
  cbn [Geom.m20 Geom.m21 Geom.m22 Geom.m10 Geom.m11 Geom.m12 Geom.m02].
  replace (-1 * -1 + 0 * 0)%R with 1%R by ring. rewrite sqrt_1.
  destruct (Rlt_dec Tfs._EPS 1) as [_|H].
  - unfold Tfs.atan2. rewrite Ropp_0.
    destruct (Rlt_dec 0 0) as [H|_]; [lra|].
    destruct (Rlt_dec 0 1) as [_|H]; [|lra].
    destruct (Rlt_dec 0 (-1)) as [H|_]; [lra|].
    destruct (Rlt_dec (-1) 0) as [_|H]; [|lra].
    apply f_equal2; [apply f_equal2|]; ring.
  - exfalso. apply H. unfold Tfs._EPS.
    apply (Rmult_lt_reg_r (2 ^ 52)); [apply pow_lt; lra|].
    rewrite Rmult_assoc, Rinv_l by (apply pow_nonzero; lra).
    assert (8 <= 2 ^ 52)%R as Hpow; [|lra].
    change 52%nat with (3 + 49)%nat. rewrite pow_add.
    assert (1 <= 2 ^ 49)%R by (apply pow_R1_Rle; lra).
    assert (2 ^ 3 = 8)%R by ring. nra.
Qed.

Example euler_matrix_quarter_turn :
  Geom.set_translation
    (Tfs.euler_matrix (PI / 2) (- (PI / 2)) (- (PI / 2))) (- 2, - 4, 3)%R
  = Fixtures.quarter_turn_inv.
Proof.
  unfold Tfs.euler_matrix, Geom.set_translation, Fixtures.quarter_turn_inv.
  cbn [Geom.m00 Geom.m01 Geom.m02 Geom.m03 Geom.m10 Geom.m11 Geom.m12 Geom.m13
       Geom.m20 Geom.m21 Geom.m22 Geom.m23 Geom.m30 Geom.m31 Geom.m32 Geom.m33
       Geom.v0 Geom.v1 Geom.v2 fst snd].
  rewrite !Ropp_involutive, !cos_neg, !sin_neg, cos_PI2, sin_PI2.
  apply mat4_eq; ring.
Qed.

Example alignProjToRow_quarter_turn :
  Writer.alignProjToRow Tfs.euler_from_matrix Np.linalg_inv
    (Fixtures.particles_writer (Some Writer.alignProjToRow_m) [])
    Fixtures.quarter_turn []
  = Some [("rlnOriginXAngst", Py.VFloat 2); ("rlnOriginYAngst", Py.VFloat 4);
          ("rlnOriginZAngst", Py.VFloat (- 3));
          ("rlnAngleRot", Py.VFloat (- 90)); ("rlnAngleTilt", Py.VFloat 90);
          ("rlnAnglePsi", Py.VFloat 90)]%R.
Proof.
  unfold Writer.alignProjToRow.
  rewrite linalg_inv_quarter_turn, euler_from_matrix_quarter_turn.
  unfold Geom.neg3, Geom.scale3, Geom.rad2deg3, Geom.rad2deg,
    Geom.translation_from_matrix, Fixtures.quarter_turn_inv.
  cbn [Geom.v0 Geom.v1 Geom.v2 fst snd Geom.m03 Geom.m13 Geom.m23
       Fixtures.particles_writer Writer._pixelSize Dict.set String.eqb Ascii.eqb
       Bool.eqb].
  repeat (f_equal; try (field; apply PI_neq0)).
Qed.

(** C3.  In projection mode the writer inverts the matrix (it raises
    when the matrix has no inverse), stores the translation of the
    inverse negated and multiplied by the pixel size, and stores the three
    szyz Euler angles of the inverse negated, in degrees.  The reader
    negates the three stored angles (in radians), builds the rotation
    from them, puts the stored translation, scaled by the inverse pixel
    size and negated, in the translation column, and returns the inverse
    of the matrix so assembled (it raises when that one has none).  The
    inverse is told by what it is: a matrix whose product with the given
    one, on either side, is the identity. *)
Theorem projection_codec
        (euler_from_matrix : Geom.mat4 -> Geom.vec3)
        (euler_matrix : R -> R -> R -> Geom.mat4)
        (linalg_inv : Geom.mat4 -> option Geom.mat4)
        (float_of_str : string -> option R)
        (writer : Writer.Writer) (M : Geom.mat4) (row : Py.row)
        (reader : Reader.Reader) (stored : Py.row)
        (x y z rot tilt psi : R) :
  (forall A,
      match linalg_inv A with
      | Some B => Geom.matmul B A = Geom.identity /\ Geom.matmul A B = Geom.identity
      | None => Geom.det A = 0%R
      end) ->
  Reader._get float_of_str stored "rlnOriginXAngst" = Some x ->
  Reader._get float_of_str stored "rlnOriginYAngst" = Some y ->
  Reader._get float_of_str stored "rlnOriginZAngst" = Some z ->
  Reader._get float_of_str stored "rlnAngleRot" = Some rot ->
  Reader._get float_of_str stored "rlnAngleTilt" = Some tilt ->
  Reader._get float_of_str stored "rlnAnglePsi" = Some psi ->
  match Writer.alignProjToRow euler_from_matrix linalg_inv writer M row with
  | Some row' =>
      exists N,
        Geom.matmul N M = Geom.identity /\ Geom.matmul M N = Geom.identity
        /\ (let e := euler_from_matrix N in
            let ps := Writer._pixelSize writer in
            Dict.get row' "rlnOriginXAngst" = Some (Py.VFloat (- Geom.m03 N * ps))
            /\ Dict.get row' "rlnOriginYAngst" = Some (Py.VFloat (- Geom.m13 N * ps))
            /\ Dict.get row' "rlnOriginZAngst" = Some (Py.VFloat (- Geom.m23 N * ps))
            /\ Dict.get row' "rlnAngleRot"
               = Some (Py.VFloat (- Geom.rad2deg (Geom.v0 e)))
            /\ Dict.get row' "rlnAngleTilt"
               = Some (Py.VFloat (- Geom.rad2deg (Geom.v1 e)))
            /\ Dict.get row' "rlnAnglePsi"
               = Some (Py.VFloat (- Geom.rad2deg (Geom.v2 e))))%R
  | None => Geom.det M = 0%R
  end
  /\ (let ips := Reader._invPixelSize reader in
      let E := euler_matrix (- Geom.deg2rad rot) (- Geom.deg2rad tilt)
                            (- Geom.deg2rad psi) in
      let A :=
        {| Geom.m00 := Geom.m00 E; Geom.m01 := Geom.m01 E; Geom.m02 := Geom.m02 E;
           Geom.m03 := - (x * ips);
           Geom.m10 := Geom.m10 E; Geom.m11 := Geom.m11 E; Geom.m12 := Geom.m12 E;
           Geom.m13 := - (y * ips);
           Geom.m20 := Geom.m20 E; Geom.m21 := Geom.m21 E; Geom.m22 := Geom.m22 E;
           Geom.m23 := - (z * ips);
           Geom.m30 := Geom.m30 E; Geom.m31 := Geom.m31 E; Geom.m32 := Geom.m32 E;
           Geom.m33 := Geom.m33 E |} in
      match option_map snd
              (Reader.setParticleTransformProj float_of_str euler_matrix linalg_inv
                 reader stored)
      with
      | Some T => Geom.matmul T A = Geom.identity /\ Geom.matmul A T = Geom.identity
      | None => Geom.det A = 0
      end)%R.
Proof.
  intros Hinv Hx Hy Hz Hrot Htilt Hpsi. split.
  - pose proof (Hinv M) as HM.
    destruct (linalg_inv M) as [N|] eqn:EN.
    + destruct (alignProjToRow_cells euler_from_matrix linalg_inv writer M N row EN)
        as (row' & -> & Hcells).
      exists N. split; [apply HM|]. split; [apply HM|]. exact Hcells.
    + now rewrite (alignProjToRow_None euler_from_matrix linalg_inv writer M row EN).
  - cbv zeta. unfold Reader.setParticleTransformProj.
    rewrite Hx, Hy, Hz, Hrot, Htilt, Hpsi.
    unfold Geom.set_translation, Geom.neg3, Geom.deg2rad3.
    cbn [Geom.v0 Geom.v1 Geom.v2 fst snd].
    match goal with
    | |- context [linalg_inv ?A] =>
        pose proof (Hinv A) as HA; destruct (linalg_inv A) as [T|]
    end; cbn [option_map snd]; exact HA.
Qed.

Lemma projection_codec_witness :
  let M := Fixtures.quarter_turn in
  let writer := Fixtures.particles_writer (Some Writer.alignProjToRow_m) [] in
  (exists row' N,
      Writer.alignProjToRow Tfs.euler_from_matrix Np.linalg_inv writer M []
      = Some row'
      /\ Geom.matmul N M = Geom.identity
      /\ Dict.get row' "rlnOriginXAngst" = Some (Py.VFloat (- Geom.m03 N * 1))
      /\ Dict.get row' "rlnAngleTilt"
         = Some (Py.VFloat (- Geom.rad2deg (Geom.v1 (Tfs.euler_from_matrix N)))))%R
  /\ (exists T,
        option_map snd
          (Reader.setParticleTransformProj PyStr.py_float Tfs.euler_matrix Np.linalg_inv
             Fixtures.proj_reader Fixtures.proj_row) = Some T
        /\ Geom.matmul T
             (Geom.set_translation
                (Tfs.euler_matrix (- Geom.deg2rad 10) (- Geom.deg2rad 20)
                                  (- Geom.deg2rad 30))
                (- (2 * 1), - (3 * 1), - (0 * 1)))
           = Geom.identity)%R.
Proof.
  intros M writer.
  destruct (projection_codec
              Tfs.euler_from_matrix Tfs.euler_matrix Np.linalg_inv PyStr.py_float
              writer M [] Fixtures.proj_reader Fixtures.proj_row
              2 3 0 10 20 30 linalg_inv_spec
              eq_refl eq_refl eq_refl eq_refl eq_refl eq_refl) as [Hw Hr].
  split.
  - destruct (Writer.alignProjToRow Tfs.euler_from_matrix Np.linalg_inv writer M [])
      as [row'|].
    + destruct Hw as (N & HN & _ & HX & _ & _ & _ & Htilt & _).
      exists row', N. split; [reflexivity|]. split; [exact HN|].
      split; [exact HX|exact Htilt].
    + exfalso. revert Hw. unfold M, Fixtures.quarter_turn, Geom.det,
        Geom.minor00, Geom.minor01, Geom.minor02, Geom.minor03, Geom.det3.
      cbn [Geom.m00 Geom.m01 Geom.m02 Geom.m03 Geom.m10 Geom.m11 Geom.m12 Geom.m13
           Geom.m20 Geom.m21 Geom.m22 Geom.m23 Geom.m30 Geom.m31 Geom.m32 Geom.m33].
      lra.
  - cbv zeta in Hr.
    destruct (option_map snd
                (Reader.setParticleTransformProj PyStr.py_float Tfs.euler_matrix Np.linalg_inv
                   Fixtures.proj_reader Fixtures.proj_row)) as [T|].
    + exists T. split; [reflexivity|]. exact (proj1 Hr).
    + exfalso.
      pose proof (det_euler_matrix (- Geom.deg2rad 10) (- Geom.deg2rad 20)
                    (- Geom.deg2rad 30) (- (2 * 1), - (3 * 1), - (0 * 1))%R) as Hd.
      unfold Geom.set_translation in Hd.
      cbn [Geom.v0 Geom.v1 Geom.v2 fst snd] in Hd.
      change (Reader._invPixelSize Fixtures.proj_reader) with 1%R in Hr.
      rewrite Hr in Hd. lra.
Defined.

(** ** Order of the blocks in the star file *)

Section BlockOrder.
Import Py Geom Em Star Writer.

Variable NO_INDEX : Z.
Variable euler_from_matrix : mat4 -> vec3.
Variable linalg_inv : mat4 -> option mat4.
Variable WriterBase_micToRow : Image -> Py.row -> Py.row.
Variable WriterBase_ctfToRow : CTFModel -> Py.row -> Py.row.
Variable WriterBase_convert : Image -> value.
Variable os_path_relpath : string -> string -> string.
Variable os_path_dirname : string -> string.
Variable convertBinaryFiles :
  list string -> string -> bool -> option (Dict.t string).

#[local] Abbreviation write_particles :=
  (Writer.write_particles NO_INDEX euler_from_matrix linalg_inv WriterBase_ctfToRow).
#[local] Abbreviation writeSetOfParticles :=
  (Writer.writeSetOfParticles NO_INDEX euler_from_matrix linalg_inv
     WriterBase_ctfToRow os_path_relpath os_path_dirname convertBinaryFiles).
#[local] Abbreviation writeSetOfMoviesOrMics :=
  (Writer.writeSetOfMoviesOrMics WriterBase_micToRow WriterBase_convert).

Lemma bind_Some {A B} (m : M A) (k : A -> M B) self r :
  bind m k self = Some r ->
  exists a self', m self = Some (a, self') /\ k a self' = Some r.
Proof.
  unfold bind. destruct (m self) as [[a self']|]; [eauto|discriminate].
Qed.

Lemma write_particles_out parts :
  forall partRow out self partRow' out' self',
    write_particles parts partRow out self = Some (partRow', out', self') ->
    exists rows,
      out' = (out ++ map RowValues rows)%list
      /\ List.length rows = List.length parts.
Proof.
  induction parts as [|part rest IH]; intros partRow out self partRow' out' self';
    cbn [Writer.write_particles].
  - intros [= _ <- _]. exists []. now rewrite app_nil_r.
  - intros H.
    apply bind_Some in H as (row1 & self1 & _ & H).
    apply bind_Some in H as (row2 & self2 & _ & H).
    apply IH in H as (rows & -> & Hlen).
    exists (Dict.values row2 :: rows). rewrite <- app_assoc. simpl.
    split; [reflexivity|congruence].
Qed.

(** The particle writer: two comment lines, the header of the
    [particles] block, one line per particle, and only then the [optics]
    table. *)
Lemma writeSetOfParticles_layout partsSet starFile kwargs self out self' :
  writeSetOfParticles partsSet starFile kwargs self = Some (out, self') ->
  exists t1 t2 t3 cols rows opticsTable,
    out = ([Text t1; Text t2; TableName "particles"; Header cols]
           ++ map RowValues rows
           ++ [Text t3; StarTable "optics" opticsTable])%list
    /\ List.length rows = List.length (items partsSet).
Proof.
  unfold Writer.writeSetOfParticles. intros H.
  apply bind_Some in H as (self0 & s0 & _ & H). cbv zeta in H.
  apply bind_Some in H as (filesDict & s1 & _ & H).
  apply bind_Some in H as (firstPart & s2 & _ & H).
  apply bind_Some in H as (setAlign & s3 & _ & H).
  apply bind_Some in H as (u & s4 & _ & H).
  apply bind_Some in H as (partRow & s5 & _ & H).
  apply bind_Some in H as (partRow' & s6 & _ & H).
  apply bind_Some in H as (self6 & s7 & _ & H).
  apply bind_Some in H as (firstOptics & s8 & _ & H).
  apply bind_Some in H as (partsTable & s9 & _ & H).
  apply bind_Some in H as ([row' out'] & s10 & Hloop & H).
  apply bind_Some in H as (self10 & s11 & _ & H).
  apply bind_Some in H as (opticsTable & s12 & _ & H).
  unfold ret in H. injection H as <- _.
  apply write_particles_out in Hloop as (rows & -> & Hlen).
  do 3 eexists. exists (columns partsTable), rows, opticsTable.
  split; [|exact Hlen]. now rewrite <- app_assoc.
Qed.

(** The micrograph and movie writer: the [optics] table goes first, the
    table of the set after it. *)
Lemma writeSetOfMoviesOrMics_layout imgs starFile tableName imgLabelName
      kwargs self out self' :
  writeSetOfMoviesOrMics imgs starFile tableName imgLabelName kwargs self
  = Some (out, self') ->
  exists t1 t2 t3 opticsTable micsTable,
    out = [Text t1; Text t2; StarTable "optics" opticsTable;
           Text t3; StarTable tableName micsTable].
Proof.
  unfold Writer.writeSetOfMoviesOrMics. intros H.
  apply bind_Some in H as (self0 & s0 & _ & H).
  apply bind_Some in H as (mic & s1 & _ & H).
  apply bind_Some in H as (u & s2 & _ & H). cbv zeta in H.
  apply bind_Some in H as (micRow & s3 & _ & H).
  apply bind_Some in H as (micRow' & s4 & _ & H).
  apply bind_Some in H as (self4 & s5 & _ & H).
  apply bind_Some in H as (firstOptics & s6 & _ & H).
  apply bind_Some in H as ([row' micsTable] & s7 & _ & H).
  apply bind_Some in H as (self7 & s8 & _ & H).
  apply bind_Some in H as (opticsTable & s9 & _ & H).
  unfold ret in H. injection H as <- _. eauto 10.
Qed.

Lemma block_position_skip name out1 out2 :
  (forall o, In o out1 -> opens_block o <> Some name) ->
  block_position name (out1 ++ out2)
  = option_map (fun n => (List.length out1 + n)%nat) (block_position name out2).
Proof.
  induction out1 as [|o out1 IH]; intros Hskip; simpl.
  - now destruct (block_position name out2).
  - rewrite IH by (intros o' Ho'; apply Hskip; now right).
    pose proof (Hskip o (or_introl eq_refl)) as Ho.
    destruct (opens_block o) as [n|].
    + destruct (String.eqb_spec n name) as [->|_]; [congruence|].
      now destruct (block_position name out2).
    + now destruct (block_position name out2).
Qed.

End BlockOrder.

(** C6 (amended).  When [writeSetOfParticles] returns, the [particles]
    block opens at the third write, every particle row follows its
    header, and the [optics] table is the last thing written.  When
    [_writeSetOfMoviesOrMics] returns, it is the other way round: the
    [optics] table is written first (third write) and the table of the
    set after it (fifth write). *)
Theorem optics_block_position
        (NO_INDEX : Z)
        (euler_from_matrix : Geom.mat4 -> Geom.vec3)
        (linalg_inv : Geom.mat4 -> option Geom.mat4)
        (WriterBase_micToRow : Em.Image -> Py.row -> Py.row)
        (WriterBase_ctfToRow : Em.CTFModel -> Py.row -> Py.row)
        (WriterBase_convert : Em.Image -> Py.value)
        (os_path_relpath : string -> string -> string)
        (os_path_dirname : string -> string)
        (convertBinaryFiles :
           list string -> string -> bool -> option (Dict.t string))
        (partsSet : Writer.SetOfParticles) (imgs : list Em.Image)
        (starFile starFile' tableName imgLabelName : string)
        (kwargs kwargs' : Writer.Kwargs)
        (self self1 self' self1' : Writer.Writer)
        (out out1 : list Star.output) :
  Writer.writeSetOfParticles NO_INDEX euler_from_matrix linalg_inv
    WriterBase_ctfToRow os_path_relpath os_path_dirname convertBinaryFiles
    partsSet starFile kwargs self = Some (out, self') ->
  Writer.writeSetOfMoviesOrMics WriterBase_micToRow WriterBase_convert
    imgs starFile' tableName imgLabelName kwargs' self1 = Some (out1, self1') ->
  tableName <> "optics" ->
  (Star.block_position "particles" out = Some 2%nat
   /\ Star.block_position "optics" out
      = Some (5 + List.length (Writer.items partsSet))%nat
   /\ List.length out = (6 + List.length (Writer.items partsSet))%nat)
  /\ (Star.block_position "optics" out1 = Some 2%nat
      /\ Star.block_position tableName out1 = Some 4%nat
      /\ List.length out1 = 5%nat).
Proof.
  intros Hparts Hmics Hname. split.
  - apply writeSetOfParticles_layout in Hparts
      as (t1 & t2 & t3 & cols & rows & opticsTable & -> & Hlen).
    split; [reflexivity|]. split.
    + change ([Star.Text t1; Star.Text t2; Star.TableName "particles"; Star.Header cols]
              ++ map Star.RowValues rows
              ++ [Star.Text t3; Star.StarTable "optics" opticsTable])%list
        with (Star.Text t1 :: Star.Text t2 :: Star.TableName "particles"
              :: Star.Header cols
              :: (map Star.RowValues rows
                  ++ [Star.Text t3; Star.StarTable "optics" opticsTable]))%list.
      cbn [Star.block_position Star.opens_block String.eqb Ascii.eqb Bool.eqb].
      rewrite block_position_skip.
      * cbn. rewrite length_map, Hlen. do 2 f_equal. lia.
      * intros o Ho. apply in_map_iff in Ho as (r & <- & _). discriminate.
    + rewrite !length_app, length_map, Hlen. cbn. lia.
  - apply writeSetOfMoviesOrMics_layout in Hmics
      as (t1 & t2 & t3 & opticsTable & micsTable & ->).
    split; [reflexivity|]. split; [|reflexivity].
    cbn [Star.block_position Star.opens_block].
    apply String.eqb_neq in Hname. rewrite (String.eqb_sym "optics" tableName), Hname.
    rewrite String.eqb_refl. reflexivity.
Qed.

Lemma optics_block_position_witness :
  exists out out1,
    option_map fst
      (Fixtures.writeSetOfParticles Fixtures.two_particles "particles.star"
         Fixtures.no_kwargs (Fixtures.particles_writer None []))
    = Some out
    /\ option_map fst
         (Fixtures.writeSetOfMicrographs Fixtures.two_micrographs
            "micrographs.star" Fixtures.no_kwargs
            (Fixtures.particles_writer None []))
       = Some out1
    /\ (Star.block_position "particles" out = Some 2%nat
        /\ Star.block_position "optics" out = Some 7%nat
        /\ List.length out = 8%nat)
    /\ (Star.block_position "optics" out1 = Some 2%nat
        /\ Star.block_position "micrographs" out1 = Some 4%nat
        /\ List.length out1 = 5%nat).
Proof.
  destruct (Fixtures.writeSetOfParticles Fixtures.two_particles "particles.star"
              Fixtures.no_kwargs (Fixtures.particles_writer None []))
    as [[out self']|] eqn:Hparts.
  - destruct (Fixtures.writeSetOfMicrographs Fixtures.two_micrographs
                "micrographs.star" Fixtures.no_kwargs
                (Fixtures.particles_writer None []))
      as [[out1 self1']|] eqn:Hmics.
    + exists out, out1. split; [reflexivity|]. split; [reflexivity|].
      unfold Fixtures.writeSetOfParticles in Hparts.
      unfold Fixtures.writeSetOfMicrographs, Writer.writeSetOfMicrographs in Hmics.
      refine (optics_block_position _ _ _ _ _ _ _ _ _ _ _ _ _ _ _ _ _ _ _ _ _ _ _
                Hparts Hmics _).
      discriminate.
    + exfalso.
      assert (option_map (fun _ => tt)
                (Fixtures.writeSetOfMicrographs Fixtures.two_micrographs
                   "micrographs.star" Fixtures.no_kwargs
                   (Fixtures.particles_writer None []))
              = Some tt) as E by reflexivity.
      rewrite Hmics in E. discriminate E.
  - exfalso.
    assert (option_map (fun _ => tt)
              (Fixtures.writeSetOfParticles Fixtures.two_particles "particles.star"
                 Fixtures.no_kwargs (Fixtures.particles_writer None []))
            = Some tt) as E by reflexivity.
    rewrite Hparts in E. discriminate E.
Defined.

(** C6 as stated fails for micrographs: the star file of a set of two
    micrographs has its [optics] table at the third write and its
    [micrographs] table at the fifth, after it. *)
Lemma optics_first_for_micrographs_counterexample :
  exists opticsTable micsTable,
    option_map fst
      (Fixtures.writeSetOfMicrographs Fixtures.two_micrographs
         "micrographs.star" Fixtures.no_kwargs
         (Fixtures.particles_writer None []))
    = Some [Star.Text "# Star file generated with Scipion
";
            Star.Text "# version 30001
";
            Star.StarTable "optics" opticsTable;
            Star.Text "# version 30001
";
            Star.StarTable "micrographs" micsTable]
    /\ List.length (Star.rows opticsTable) = 1%nat
    /\ Star.rows micsTable
       = [[Py.VStr "Runs/000001_Import/extra/mic_0001.mrc"; Py.VInt 1; Py.VInt 1];
          [Py.VStr "Runs/000001_Import/extra/mic_0002.mrc"; Py.VInt 2; Py.VInt 1]].
Proof.
  eexists. eexists. split; [reflexivity|]. split; reflexivity.
Qed.

(** ** The two codecs in exact arithmetic

    With floats read as reals and the cells of a row read back as they
    were written, what the reader builds from a written row is the matrix
    the writer was given: for every in-plane rotation in 2-D mode, and in
    projection mode whenever the library routines invert each other on
    the inverted matrix. *)

Section ExactRoundTrip.
Import Py Geom Em.
Open Scope R_scope.

Lemma sqrt_unit_ratio s c :
  c <> 0 -> c * c + s * s = 1 -> sqrt (1 + (s / c)²) = / Rabs c.
Proof.
  intros Hc Hunit.
  replace (1 + (s / c)²) with ((/ c)²).
  - rewrite sqrt_Rsqr_abs. now apply Rabs_inv.
  - unfold Rsqr.
    assert (1 + s / c * (s / c) = (c * c + s * s) / (c * c)) as E
        by (field; exact Hc).
    rewrite E, Hunit. field. exact Hc.
Qed.

Lemma atan_unit_ratio s c :
  c <> 0 -> c * c + s * s = 1 ->
  cos (atan (s / c)) = Rabs c /\ sin (atan (s / c)) = s / c * Rabs c.
Proof.
  intros Hc Hunit.
  rewrite cos_atan, sin_atan, (sqrt_unit_ratio s c Hc Hunit).
  assert (Rabs c <> 0) as Ha by (now apply Rabs_no_R0).
  split; field; auto.
Qed.

(** [atan2] returns an angle with the given sine and cosine. *)
Lemma atan2_cos_sin s c :
  c * c + s * s = 1 ->
  cos (Tfs.atan2 s c) = c /\ sin (Tfs.atan2 s c) = s.
Proof.
  intros Hunit. unfold Tfs.atan2.
  destruct (Rlt_dec 0 c) as [Hpos|Hnpos].
  - destruct (atan_unit_ratio s c) as [Hcos Hsin]; [lra|exact Hunit|].
    rewrite Hcos, Hsin, Rabs_right by lra. split; [reflexivity|field; lra].
  - destruct (Rlt_dec c 0) as [Hneg|Hnneg].
    + destruct (atan_unit_ratio s c) as [Hcos Hsin]; [lra|exact Hunit|].
      rewrite Rabs_left in Hcos, Hsin by exact Hneg.
      destruct (Rle_dec 0 s).
      * rewrite neg_cos, neg_sin, Hcos, Hsin. split; field; lra.
      * rewrite cos_minus, sin_minus, cos_PI, sin_PI, Hcos, Hsin.
        split; field; lra.
    + assert (c = 0) as -> by lra.
      assert (s * s = 1) as Hs by lra.
      destruct (Rlt_dec 0 s) as [Hs1|Hs1].
      * rewrite cos_PI2, sin_PI2. split; [reflexivity|nra].
      * destruct (Rlt_dec s 0) as [Hs2|Hs2].
        -- rewrite cos_neg, sin_neg, cos_PI2, sin_PI2. split; [reflexivity|nra].
        -- nra.
Qed.

(** The Euler angles of any in-plane rotation: the whole angle is in the
    first one. *)
Lemma euler_from_matrix_in_plane_any c s x y :
  Tfs.euler_from_matrix (Tfs.in_plane c s x y) = (- Tfs.atan2 (- s) c, 0, 0).
Proof.
  unfold Tfs.euler_from_matrix, Tfs.in_plane. cbn [m20 m21 m22 m10 m11 m12 m02].
  replace (0 * 0 + 0 * 0) with 0 by ring. rewrite sqrt_0.
  destruct (Rlt_dec Tfs._EPS 0) as [H|_]; [pose proof EPS_pos; lra|].
  rewrite atan2_0_1. f_equal; [f_equal|]; ring.
Qed.

(** That angle has the cosine and the sine of the rotation. *)
Lemma in_plane_angle s c :
  c * c + s * s = 1 ->
  cos (- Tfs.atan2 (- s) c) = c /\ sin (- Tfs.atan2 (- s) c) = s.
Proof.
  intros Hunit.
  assert (c * c + - s * - s = 1) as Hunit'
      by (transitivity (c * c + s * s); [ring|exact Hunit]).
  destruct (atan2_cos_sin (- s) c Hunit') as [Hc Hs].
  rewrite cos_neg, sin_neg, Hc, Hs. split; ring.
Qed.

(** [euler_matrix(0, 0, theta)] is the rotation by [theta] in the plane. *)
Lemma euler_matrix_in_plane theta :
  Tfs.euler_matrix 0 0 theta = Tfs.in_plane (cos theta) (sin theta) 0 0.
Proof.
  unfold Tfs.euler_matrix, Tfs.in_plane.
  replace (- 0) with 0 by ring. rewrite sin_0, cos_0, cos_neg, sin_neg.
  apply mat4_eq; ring.
Qed.

(** X19.  2-D mode, in exact arithmetic: reading back the row written
    for an in-plane rotation with a shift gives the matrix back, for
    every angle (the half turn and the quarter turns included) and every
    pixel size other than zero. *)
Lemma roundtrip_2D (float_of_str : string -> option R)
      (writer : Writer.Writer) (reader : Reader.Reader) c s x y :
  c * c + s * s = 1 ->
  Writer._pixelSize writer <> 0 ->
  Reader._invPixelSize reader = 1 / Writer._pixelSize writer ->
  Reader._angles reader = (0, 0, 0) ->
  Reader._shifts reader = (0, 0, 0) ->
  option_map snd
    (Reader.setParticleTransform2D float_of_str Tfs.euler_matrix reader
       (Writer.align2DToRow Tfs.euler_from_matrix writer
                            (Tfs.in_plane c s x y) []))
  = Some (Tfs.in_plane c s x y).
Proof.
  intros Hunit Hps Hips Hangles Hshifts.
  unfold Reader.setParticleTransform2D, Reader._get.
  destruct (align2DToRow_cells Tfs.euler_from_matrix writer
              (Tfs.in_plane c s x y) []) as (Hpsi & Hx & Hy).
  cbv zeta in Hpsi, Hx, Hy. rewrite Hpsi, Hx, Hy, Hangles, Hshifts, Hips.
  rewrite euler_from_matrix_in_plane_any.
  cbn [option_map snd fst v0 v1 v2 neg3 deg2rad3 m03 m13 Tfs.in_plane].
  replace (- deg2rad 0) with 0 by (unfold deg2rad; ring).
  replace (- deg2rad (- (rad2deg (- Tfs.atan2 (- s) c) + rad2deg 0)))
    with (- Tfs.atan2 (- s) c).
  - rewrite euler_matrix_in_plane.
    destruct (in_plane_angle s c Hunit) as [-> ->].
    unfold set_translation, Tfs.in_plane.
    cbn [m00 m01 m02 m03 m10 m11 m12 m13 m20 m21 m22 m23 m30 m31 m32 m33 v0 v1 v2 fst snd].
    f_equal. apply mat4_eq; try reflexivity; field; exact Hps.
  - unfold deg2rad, rad2deg. field. apply PI_neq0.
Qed.

(** X20.  Projection mode, in exact arithmetic: reading back the row
    written for [M] gives [M] back, when inverting twice gives [M] and
    the Euler angles of the inverse rebuild its rotation. *)
Lemma roundtrip_proj
      (euler_from_matrix : mat4 -> vec3) (euler_matrix : R -> R -> R -> mat4)
      (linalg_inv : mat4 -> option mat4) (float_of_str : string -> option R)
      (writer : Writer.Writer) (reader : Reader.Reader) (M N : mat4) :
  linalg_inv M = Some N ->
  let e := euler_from_matrix N in
  linalg_inv N = Some M ->
  set_translation (euler_matrix (v0 e) (v1 e) (v2 e)) (translation_from_matrix N) = N ->
  Writer._pixelSize writer <> 0 ->
  Reader._invPixelSize reader = 1 / Writer._pixelSize writer ->
  match Writer.alignProjToRow euler_from_matrix linalg_inv writer M [] with
  | Some row =>
      option_map snd
        (Reader.setParticleTransformProj float_of_str euler_matrix linalg_inv
           reader row)
  | None => None
  end = Some M.
Proof.
  intros HN e Hinv Heuler Hps Hips.
  destruct (alignProjToRow_cells euler_from_matrix linalg_inv writer M N [] HN)
    as (row & -> & Hx & Hy & Hz & Hrot & Htilt & Hpsi).
  fold e in Hrot, Htilt, Hpsi.
  unfold Reader.setParticleTransformProj, Reader._get.
  rewrite Hx, Hy, Hz, Hrot, Htilt, Hpsi, Hips.
  cbn [v0 v1 v2 neg3 deg2rad3 fst snd].
  repeat match goal with
         | |- context [- deg2rad (- rad2deg ?a)] =>
             replace (- deg2rad (- rad2deg a)) with a
               by (unfold deg2rad, rad2deg; field; apply PI_neq0)
         end.
  replace (neg3 (- m03 N * Writer._pixelSize writer * (1 / Writer._pixelSize writer),
                 - m13 N * Writer._pixelSize writer * (1 / Writer._pixelSize writer),
                 - m23 N * Writer._pixelSize writer * (1 / Writer._pixelSize writer)))
    with (translation_from_matrix N).
  - now rewrite Heuler, Hinv.
  - unfold neg3, translation_from_matrix. cbn [v0 v1 v2 fst snd].
    do 2 f_equal; field; exact Hps.
Qed.

End ExactRoundTrip.

(* ================================================================== *)
(** * Part III: further properties of the converters *)
(* ================================================================== *)

(** ** Decoding location strings *)

Section DecodingFacts.
Import PyStr Location Utils.

Lemma split_on_length c s :
  List.length (split_on c s) = S (count_char c s).
Proof.
  induction s as [|a s IH]; cbn [split_on count_char]; [reflexivity|].
  destruct (Ascii.eqb a c); cbn [List.length]; [now rewrite IH|].
  destruct (split_on c s) as [|h t]; [discriminate IH|exact IH].
Qed.

Lemma contains_char_count c s :
  contains_char c s = negb (Nat.eqb (count_char c s) 0).
Proof.
  induction s as [|a s IH]; cbn [contains_char count_char]; [reflexivity|].
  destruct (Ascii.eqb a c); [reflexivity|exact IH].
Qed.

(** No piece of a split holds the separator. *)
Lemma split_on_pieces c s :
  Forall (fun p => contains_char c p = false) (split_on c s).
Proof.
  induction s as [|a s IH]; cbn [split_on].
  - constructor; [reflexivity|constructor].
  - destruct (Ascii.eqb a c) eqn:E.
    + constructor; [reflexivity|exact IH].
    + destruct (split_on c s) as [|h t].
      * constructor; [|constructor]. cbn [contains_char]. now rewrite E.
      * inversion IH as [|? ? Hh Ht]; subst.
        constructor; [|exact Ht]. cbn [contains_char]. now rewrite E.
Qed.

Variable NO_INDEX : Z.

(** Decoding what was encoded, for every index, the sentinel included. *)
Lemma relionToLocation_locationToRelion index fn :
  contains_char "@" fn = false ->
  relionToLocation NO_INDEX (locationToRelion NO_INDEX index fn) = Some (index, fn).
Proof.
  intros Hfn. destruct (Z.eq_dec index NO_INDEX) as [->|Hne].
  - rewrite locationToRelion_sentinel. now apply relionToLocation_bare.
  - rewrite (locationToRelion_indexed NO_INDEX index fn Hne).
    now apply relionToLocation_indexed.
Qed.

(** What a successful decoding looks like. *)
Lemma relionToLocation_Some filename index fn :
  relionToLocation NO_INDEX filename = Some (index, fn) ->
  contains_char "@" fn = false
  /\ (contains_char "@" filename = false /\ index = NO_INDEX /\ fn = filename
      \/ exists indexStr,
           split_on "@" filename = [indexStr; fn]
           /\ py_int indexStr = Some index).
Proof.
  unfold relionToLocation.
  destruct (contains_char "@" filename) eqn:Hat.
  - pose proof (split_on_pieces "@" filename) as Hp.
    destruct (split_on "@" filename) as [|a [|b [|? ?]]]; try discriminate.
    destruct (py_int a) as [i|] eqn:Hi; [|discriminate].
    intros [= <- <-].
    inversion Hp as [|? ? _ Hp']; subst. inversion Hp' as [|? ? Hb _]; subst.
    split; [exact Hb|]. right. exists a. auto.
  - intros [= <- <-]. split; [exact Hat|]. left. auto.
Qed.

End DecodingFacts.

(** X1.  [relionToLocation] raises on a name that holds two or more ['@']
    (the split gives more than two pieces, so the unpacking fails) and on
    a name that starts with its only ['@'] ([int('')] fails): such names
    are never read as a bare path. *)
Theorem relionToLocation_rejects (NO_INDEX : Z) (filename : string) :
  (2 <= Utils.count_char "@" filename)%nat
  \/ (exists fn, filename = String "@" fn) ->
  Location.relionToLocation NO_INDEX filename = None.
Proof.
  intros [Hcount | [fn ->]]; unfold Location.relionToLocation.
  - rewrite contains_char_count.
    pose proof (split_on_length "@" filename) as Hlen.
    destruct (Utils.count_char "@" filename) as [|[|n]]; [lia|lia|].
    cbn [Nat.eqb negb].
    destruct (PyStr.split_on "@" filename) as [|a [|b [|c l]]];
      try reflexivity; discriminate Hlen.
  - cbn [PyStr.contains_char PyStr.split_on]. rewrite Ascii.eqb_refl.
    destruct (PyStr.split_on "@" fn) as [|b [|c l]]; reflexivity.
Qed.

Lemma relionToLocation_rejects_witness :
  (2 <= Utils.count_char "@" "000001@run@stack.mrcs")%nat
  /\ Location.relionToLocation 0 "000001@run@stack.mrcs" = None.
Proof.
  split; [vm_compute; lia|].
  apply (relionToLocation_rejects 0 "000001@run@stack.mrcs").
  left. vm_compute. lia.
Defined.

(** X2.  Whatever [relionToLocation] returns is in normal form: the path
    it returns holds no ['@'], and encoding the pair again with
    [locationToRelion] and decoding it gives the same pair, whatever the
    padding or sign the index was written with. *)
Theorem relionToLocation_normal_form
        (NO_INDEX : Z) (filename : string) (index : Z) (fn : string) :
  Location.relionToLocation NO_INDEX filename = Some (index, fn) ->
  PyStr.contains_char "@" fn = false
  /\ Location.relionToLocation NO_INDEX
       (Location.locationToRelion NO_INDEX index fn) = Some (index, fn).
Proof.
  intros H. apply relionToLocation_Some in H as [Hfn _].
  split; [exact Hfn|]. now apply relionToLocation_locationToRelion.
Qed.

Lemma relionToLocation_normal_form_witness :
  Location.relionToLocation 0 " +12@Extract/stack.mrcs"
  = Some (12, "Extract/stack.mrcs")
  /\ Location.locationToRelion 0 12 "Extract/stack.mrcs"
     = "000012@Extract/stack.mrcs"
  /\ Location.relionToLocation 0
       (Location.locationToRelion 0 12 "Extract/stack.mrcs")
     = Some (12, "Extract/stack.mrcs").
Proof.
  split; [reflexivity|]. split; [reflexivity|].
  apply (relionToLocation_normal_form 0 " +12@Extract/stack.mrcs" 12
           "Extract/stack.mrcs" eq_refl).
Defined.

(** X3.  On paths without ['@'], [locationToRelion] is injective: two
    locations that differ in the index or in the path never get the same
    Relion name, the index being the sentinel or not. *)
Theorem locationToRelion_injective
        (NO_INDEX index1 index2 : Z) (fn1 fn2 : string) :
  PyStr.contains_char "@" fn1 = false ->
  PyStr.contains_char "@" fn2 = false ->
  Location.locationToRelion NO_INDEX index1 fn1
  = Location.locationToRelion NO_INDEX index2 fn2 ->
  index1 = index2 /\ fn1 = fn2.
Proof.
  intros H1 H2 E.
  pose proof (relionToLocation_locationToRelion NO_INDEX index1 fn1 H1) as D1.
  pose proof (relionToLocation_locationToRelion NO_INDEX index2 fn2 H2) as D2.
  rewrite E, D2 in D1. injection D1 as <- <-. auto.
Qed.

Lemma locationToRelion_injective_witness :
  Location.locationToRelion 0 7 "a.mrcs" = Location.locationToRelion 0 7 "a.mrcs"
  /\ (7 = 7 /\ "a.mrcs" = "a.mrcs").
Proof.
  split; [reflexivity|].
  apply (locationToRelion_injective 0 7 7 "a.mrcs" "a.mrcs");
    reflexivity.
Defined.

(** ** Names relative to a prefix *)

Section RelativeFacts.

Lemma dict_keys_set_present {V} (d : Dict.t V) k v v0 :
  Dict.get d k = Some v0 -> Dict.keys (Dict.set d k v) = Dict.keys d.
Proof.
  induction d as [|[k' v'] d IH]; cbn [Dict.get Dict.set]; [discriminate|].
  destruct (String.eqb k' k); [reflexivity|].
  intros H. unfold Dict.keys in *. cbn [map fst]. now rewrite (IH H).
Qed.

End RelativeFacts.

(** X4.  [relativeFromFileName] rewrites the cell [rlnImageName] only.
    When [os.path.relpath] raises (the decoded path is empty, as in
    ['000003@']) so does the function; otherwise the row keeps its
    labels in their order and its other cells, the new name carries the
    path made relative to the prefix, and (when that path holds no
    ['@']) it decodes to the index the old name had. *)
Theorem relativeFromFileName_keeps_index
        (NO_INDEX : Z) (os_path_relpath : string -> string -> option string)
        (imgRow : Py.row) (prefixPath name : string)
        (index : Z) (imgPath : string) :
  Dict.get imgRow "rlnImageName" = Some (Py.VStr name) ->
  Location.relionToLocation NO_INDEX name = Some (index, imgPath) ->
  match os_path_relpath imgPath prefixPath with
  | None =>
      Utils.relativeFromFileName NO_INDEX os_path_relpath imgRow prefixPath = None
  | Some newImgPath =>
      PyStr.contains_char "@" newImgPath = false ->
      exists row' name',
        Utils.relativeFromFileName NO_INDEX os_path_relpath imgRow prefixPath
        = Some row'
        /\ Dict.keys row' = Dict.keys imgRow
        /\ (forall k, k <> "rlnImageName" -> Dict.get row' k = Dict.get imgRow k)
        /\ Dict.get row' "rlnImageName" = Some (Py.VStr name')
        /\ Location.relionToLocation NO_INDEX name' = Some (index, newImgPath)
  end.
Proof.
  intros Hget Hdec. unfold Utils.relativeFromFileName.
  rewrite Hget, Hdec.
  destruct (os_path_relpath imgPath prefixPath) as [newImgPath|]; [|reflexivity].
  intros Hrel. eexists. eexists. split; [reflexivity|].
  split; [eapply dict_keys_set_present; exact Hget|].
  split; [intros k Hk; now apply dict_get_set_other|].
  split; [apply dict_get_set_same|].
  now apply relionToLocation_locationToRelion.
Qed.

Lemma relativeFromFileName_keeps_index_witness :
  (exists row',
      Utils.relativeFromFileName 0 OsPath.relpath
        [("rlnImageName", Py.VStr "000003@Runs/Extract/stack.mrcs");
         ("rlnOpticsGroup", Py.VInt 1)] "Runs"
      = Some row'
      /\ Dict.get row' "rlnImageName" = Some (Py.VStr "000003@Extract/stack.mrcs")
      /\ Dict.get row' "rlnOpticsGroup" = Some (Py.VInt 1))
  /\ Utils.relativeFromFileName 0 OsPath.relpath
       [("rlnImageName", Py.VStr "000003@")] "Runs" = None.
Proof.
  split.
  - destruct (relativeFromFileName_keeps_index 0 OsPath.relpath
                [("rlnImageName", Py.VStr "000003@Runs/Extract/stack.mrcs");
                 ("rlnOpticsGroup", Py.VInt 1)] "Runs"
                "000003@Runs/Extract/stack.mrcs" 3 "Runs/Extract/stack.mrcs"
                eq_refl eq_refl eq_refl)
      as (row' & name' & Hrun & _ & Hother & _ & _).
    exists row'. split; [exact Hrun|].
    injection Hrun as <-. split; reflexivity.
  - exact (relativeFromFileName_keeps_index 0 OsPath.relpath
             [("rlnImageName", Py.VStr "000003@")] "Runs" "000003@" 3 ""
             eq_refl eq_refl).
Defined.

(** ** What the planning pass does to the disk *)

Section PlannerTrace.
Import Assets.

Variable path_join : string -> string -> string.
Variable relpath : string -> string -> option string.
Variable dirname basename : string -> string.
Variable replaceBaseExt : string -> string -> string.
Variable removeExt getExt : string -> string.
Variable commonPath : list string -> string.
Variable str_replace : string -> string -> string -> string.
Variable is_substring : string -> string -> bool.
Variable endswith : string -> string -> bool.
Variable normpath : string -> string.

#[local] Arguments path_exists : simpl never.
#[local] Arguments isdir : simpl never.

#[local] Abbreviation os_symlink := (Assets.os_symlink path_join dirname normpath).
#[local] Abbreviation createLink := (Assets.createLink relpath dirname).
#[local] Abbreviation makePath := (Assets.makePath dirname).
#[local] Abbreviation ih_convertStack := (Assets.ih_convertStack dirname).
#[local] Abbreviation relativeOutput :=
  (Assets.relativeOutput path_join relpath dirname basename is_substring).
#[local] Abbreviation getUniqueFileName :=
  (Assets.getUniqueFileName path_join replaceBaseExt removeExt).
#[local] Abbreviation call :=
  (Assets.call path_join relpath dirname replaceBaseExt removeExt str_replace).
#[local] Abbreviation map_files :=
  (Assets.map_files path_join relpath dirname replaceBaseExt removeExt str_replace).
#[local] Abbreviation convertBinaryFiles :=
  (Assets.convertBinaryFiles path_join relpath dirname basename
     replaceBaseExt removeExt getExt commonPath str_replace
     is_substring endswith normpath).
#[local] Abbreviation ext_of first :=
  (match getExt first with EmptyString => EmptyString | String _ r => r end).
#[local] Abbreviation root_of outputDir force :=
  (if force then outputDir%string else path_join outputDir "input").

Section Closures.
Variables outputRoot extension rootDir : string.

(** The relocating branch maps every file to its name with the root
    replaced. *)
Lemma map_files_replaceRoot_dict files :
  forall d w,
    map_files outputRoot extension rootDir replaceRoot files d w
    = Some (fold_left (fun d fn => Dict.set d fn (str_replace fn rootDir outputRoot))
                      files d, w).
Proof.
  induction files as [|fn rest IH]; intros d w; cbn [Assets.map_files Assets.call fold_left];
    [reflexivity|apply IH].
Qed.

Lemma fold_set_get (g : string -> string) files :
  forall (d : Dict.t string) fn,
    Dict.get (fold_left (fun d fn => Dict.set d fn (g fn)) files d) fn
    = if existsb (String.eqb fn) files then Some (g fn) else Dict.get d fn.
Proof.
  induction files as [|x rest IH]; intros d fn; cbn [fold_left existsb];
    [reflexivity|].
  rewrite IH. destruct (existsb (String.eqb fn) rest); [now rewrite orb_true_r|].
  rewrite orb_false_r. destruct (String.eqb_spec fn x) as [->|Hne].
  - apply dict_get_set_same.
  - now apply dict_get_set_other.
Qed.

(** A pass over pairwise distinct files that are not mapped yet: the new
    entries come in the order of the files, and what is done to the disk
    is read off them. *)
Lemma map_files_trace f files :
  NoDup files ->
  forall d w d' w',
    (forall fn, In fn files -> Dict.get d fn = None) ->
    map_files outputRoot extension rootDir f files d w = Some (d', w') ->
    exists new,
      d' = (d ++ new)%list
      /\ Dict.keys new = files
      /\ match f with
         | convertStack =>
             log w' = (log w ++ map (fun e => ConvertStack (fst e) (snd e)) new)%list
         | replaceRoot => w' = w
         | createBinaryLink =>
             exists created,
               log w' = (log w ++ map (fun e => CreateLink (fst e) (snd e)) created)%list
               /\ incl created new
               /\ forall e, In e created -> path_exists (fs w) (snd e) = false
         end.
Proof.
  induction 1 as [|fn rest Hfn Hnd IH]; intros d w d' w' Hfree;
    cbn [Assets.map_files].
  - intros [= <- <-]. exists []. rewrite !app_nil_r. split; [reflexivity|].
    split; [reflexivity|].
    destruct f; [cbn [map]; now rewrite ?app_nil_r|reflexivity|].
    exists []. cbn [map]. rewrite ?app_nil_r. split; [reflexivity|].
    split; [apply incl_refl|intros e []].
  - destruct (call outputRoot extension rootDir f d fn w) as [[newFn w1]|] eqn:E;
      [|discriminate].
    rewrite (dict_set_absent d fn newFn (Hfree fn (or_introl eq_refl))).
    intros Hrest. apply IH in Hrest as (new & -> & Hkeys & Hdone).
    + exists ((fn, newFn) :: new). rewrite <- app_assoc. split; [reflexivity|].
      split; [unfold Dict.keys in *; cbn [map fst]; now rewrite Hkeys|].
      pose proof E as Hle. apply call_disk in Hle as (Hle & _ & _).
      apply call_Some in E. destruct f.
      * destruct E as [_ E]. apply ih_convertStack_Some in E as (-> & _ & _).
        rewrite Hdone. cbn [log map fst snd]. now rewrite <- app_assoc.
      * destruct E as [_ ->]. exact Hdone.
      * destruct E as [_ E]. destruct Hdone as (created & Hlog & Hincl & Hnew).
        assert (forall e, In e created -> path_exists (fs w) (snd e) = false)
          as Hnew'.
        { intros e He. specialize (Hnew e He).
          destruct (path_exists (fs w) (snd e)) eqn:Ee; [|reflexivity].
          apply Hle in Ee. congruence. }
        destruct (path_exists (fs w) newFn) eqn:Hex.
        -- subst w1. exists created. split; [exact Hlog|].
           split; [now apply incl_tl|exact Hnew'].
        -- apply (createLink_Some _ _ _ _ _ _ Hex) in E as (-> & _ & _).
           exists ((fn, newFn) :: created). rewrite Hlog.
           cbn [log map fst snd]. rewrite <- app_assoc.
           split; [reflexivity|]. split.
           ++ intros e [<-|He]; [now left|right; now apply Hincl].
           ++ intros e [<-|He]; [exact Hex|now apply Hnew'].
    + intros fn' Hin. rewrite dict_get_app_None by (apply Hfree; now right).
      cbn [Dict.get]. destruct (String.eqb_spec fn fn') as [->|_]; [contradiction|].
      reflexivity.
Qed.
End Closures.


(** The pass of a branch that is not the relocating one starts right
    after [makePath]. *)
Lemma convertBinaryFiles_plain f files outputDir extension forceConvert w d w' :
  selected endswith forceConvert (ext_of (hd "" files)) extension = Some f ->
  f <> replaceRoot ->
  convertBinaryFiles files outputDir extension forceConvert w = Some (d, w') ->
  exists w0,
    makePath (root_of outputDir forceConvert) w = Some w0
    /\ map_files (root_of outputDir forceConvert) extension (commonPath files)
                 f files [] w0 = Some (d, w').
Proof.
  destruct files as [|first rest]; [discriminate|]. cbn [hd].
  intros Hsel Hf. rewrite convertBinaryFiles_selected, Hsel.
  destruct (makePath (root_of outputDir forceConvert) w) as [w0|] eqn:Emk.
  - intros Hrun. exists w0. split; [reflexivity|].
    destruct f; [exact Hrun|congruence|exact Hrun].
  - destruct f; [discriminate|congruence|discriminate].
Qed.

(** X6.  In a converting branch (forced conversion, or files ending in
    [hdf]) over pairwise distinct files, the mapping lists the files in
    their order and the disk history gets, after the creation of the
    output root when it was missing, exactly one conversion per file, in
    that order, each into the name the mapping gives the file. *)
Theorem converting_branch_trace
        (files : list string) (outputDir extension : string)
        (forceConvert : bool) (w w' : world) (d : Dict.t string) :
  NoDup files ->
  selected endswith forceConvert (ext_of (hd "" files)) extension
  = Some convertStack ->
  convertBinaryFiles files outputDir extension forceConvert w = Some (d, w') ->
  let outputRoot := root_of outputDir forceConvert in
  Dict.keys d = files
  /\ log w'
     = (log w
        ++ (if path_exists (fs w) outputRoot || String.eqb outputRoot ""
            then [] else [MakePath outputRoot])
        ++ map (fun e => ConvertStack (fst e) (snd e)) d)%list.
Proof.
  intros Hnd Hsel Hrun. cbv zeta.
  eapply convertBinaryFiles_plain in Hrun as (w0 & Hmk & Hpass);
    [|exact Hsel|discriminate].
  apply makePath_Some in Hmk as (_ & _ & Hlog0 & _).
  eapply map_files_trace in Hpass as (new & -> & Hkeys & Hlog);
    [|exact Hnd|reflexivity].
  cbn [app]. split; [exact Hkeys|]. now rewrite Hlog, Hlog0, <- app_assoc.
Qed.

(** X7.  In the linking branch ([mrc] files for an [mrcs] reader) over
    pairwise distinct files, the mapping lists the files in their order,
    and besides the creation of the output root the only actions are
    links from a file to the name the mapping gives it, made only where
    no path of that name existed before the run. *)
Theorem linking_branch_trace
        (files : list string) (outputDir extension : string)
        (forceConvert : bool) (w w' : world) (d : Dict.t string) :
  NoDup files ->
  selected endswith forceConvert (ext_of (hd "" files)) extension
  = Some createBinaryLink ->
  convertBinaryFiles files outputDir extension forceConvert w = Some (d, w') ->
  let outputRoot := root_of outputDir forceConvert in
  Dict.keys d = files
  /\ exists created,
      log w'
      = (log w
         ++ (if path_exists (fs w) outputRoot || String.eqb outputRoot ""
             then [] else [MakePath outputRoot])
         ++ map (fun e => CreateLink (fst e) (snd e)) created)%list
      /\ incl created d
      /\ forall e, In e created -> path_exists (fs w) (snd e) = false.
Proof.
  intros Hnd Hsel Hrun. cbv zeta.
  eapply convertBinaryFiles_plain in Hrun as (w0 & Hmk & Hpass);
    [|exact Hsel|discriminate].
  apply makePath_Some in Hmk as (Hle & _ & Hlog0 & _).
  eapply map_files_trace in Hpass as (new & -> & Hkeys & created & Hlog & Hincl & Hnew);
    [|exact Hnd|reflexivity].
  cbn [app]. split; [exact Hkeys|]. exists created.
  split; [|split; [exact Hincl|]].
  - now rewrite Hlog, Hlog0, <- app_assoc.
  - intros e He. specialize (Hnew e He).
    destruct (path_exists (fs w) (snd e)) eqn:E; [|reflexivity].
    apply Hle in E. congruence.
Qed.

(** X8.  In the relocating branch (the files already have the wanted
    extension) a run that returns links, converts and creates no file:
    every file is mapped to its own name with the common root replaced
    by the output root, nothing else is mapped, and the only thing done
    to the disk is one symbolic link at the output root, made when no
    path of that name existed; the output root exists afterwards. *)
Theorem relocating_branch
        (files : list string) (outputDir extension : string)
        (forceConvert : bool) (w w' : world) (d : Dict.t string) :
  selected endswith forceConvert (ext_of (hd "" files)) extension
  = Some replaceRoot ->
  convertBinaryFiles files outputDir extension forceConvert w = Some (d, w') ->
  let outputRoot := path_join outputDir "input" in
  let rootDir := commonPath files in
  (forall fn, In fn files ->
              Dict.get d fn = Some (str_replace fn rootDir outputRoot))
  /\ (forall fn, ~ In fn files -> Dict.get d fn = None)
  /\ (exists rel,
         relativeOutput rootDir outputRoot = Some rel
         /\ w' = if path_exists (fs w) outputRoot then w
                 else {| fs := (outputRoot,
                                Link (normpath (path_join (dirname outputRoot) rel)))
                               :: fs w;
                         log := log w ++ [Symlink rel outputRoot] |})
  /\ path_exists (fs w') outputRoot = true.
Proof.
  destruct files as [|first rest]; [discriminate|]. cbn [hd].
  intros Hsel. rewrite convertBinaryFiles_selected, Hsel.
  destruct forceConvert; [discriminate Hsel|].
  destruct (relativeOutput _ _) as [rel|]; [|discriminate].
  destruct (if path_exists (fs w) (path_join outputDir "input") then Some w
            else os_symlink rel (path_join outputDir "input") w) as [ws|] eqn:Es;
    [|discriminate].
  destruct (makePath (path_join outputDir "input") ws) as [w0|] eqn:Emk;
    [|discriminate].
  destruct (relocating_prepared _ _ _ _ _ _ _ _ Es Emk) as (-> & Hex & _ & Hws).
  rewrite map_files_replaceRoot_dict.
  match goal with
  | |- Some (?D, _) = _ -> _ => remember D as d0 eqn:Hd0
  end.
  intros [= <- <-]. cbv zeta.
  split; [|split; [|split; [exists rel; split; [reflexivity|exact Hws]|exact Hex]]].
  - intros fn Hin. rewrite Hd0, fold_set_get.
    apply in_values_In in Hin. unfold in_values in Hin. now rewrite Hin.
  - intros fn Hout. rewrite Hd0, fold_set_get.
    apply in_values_not_In in Hout. unfold in_values in Hout. now rewrite Hout.
Qed.

End PlannerTrace.


Lemma converting_branch_trace_witness :
  let files := ["Runs/001/extra/a.hdf"; "Runs/002/extra/a.hdf"] in
  let w := {| Assets.fs := OsPath.project; Assets.log := [] |} in
  exists d w',
    OsPath.convertBinaryFiles files "Runs/003/out" "mrcs" true w = Some (d, w')
    /\ Dict.keys d = files
    /\ Assets.log w'
       = [Assets.MakePath "Runs/003/out";
          Assets.ConvertStack "Runs/001/extra/a.hdf" "Runs/003/out/a.mrcs";
          Assets.ConvertStack "Runs/002/extra/a.hdf" "Runs/003/out/a_00002.mrcs"].
Proof.
  intros files w.
  destruct (OsPath.convertBinaryFiles files "Runs/003/out" "mrcs" true w)
    as [[d w']|] eqn:Hrun; [|discriminate Hrun].
  exists d, w'. split; [reflexivity|].
  assert (NoDup files) as Hnd.
  { repeat constructor; cbn; intuition discriminate. }
  destruct (converting_branch_trace
              OsPath.path_join OsPath.relpath OsPath.dirname OsPath.basename
              OsPath.replaceBaseExt OsPath.removeExt OsPath.getExt
              OsPath.commonPath OsPath.str_replace OsPath.is_substring
              OsPath.endswith OsPath.normpath
              files "Runs/003/out" "mrcs" true w w' d
              Hnd eq_refl Hrun) as (Hkeys & Hlog).
  split; [exact Hkeys|]. rewrite Hlog.
  injection Hrun as <- _. reflexivity.
Defined.

Lemma linking_branch_trace_witness :
  let files := ["Runs/001/extra/particles.mrc"; "Runs/002/extra/particles.mrc"] in
  let w := {| Assets.fs :=
                ("Runs/003/tmp/input/particles.mrcs",
                 Assets.Link "Runs/001/extra/particles.mrc")
                :: ("Runs/003/tmp/input", Assets.Dir) :: OsPath.project;
              Assets.log := [] |} in
  exists d w' created,
    OsPath.convertBinaryFiles files "Runs/003/tmp" "mrcs" false w = Some (d, w')
    /\ Dict.keys d = files
    /\ Assets.log w' = map (fun e => Assets.CreateLink (fst e) (snd e)) created
    /\ incl created d
    /\ Assets.log w'
       = [Assets.CreateLink "Runs/002/extra/particles.mrc"
                            "Runs/003/tmp/input/particles_00002.mrcs"].
Proof.
  intros files w.
  destruct (OsPath.convertBinaryFiles files "Runs/003/tmp" "mrcs" false w)
    as [[d w']|] eqn:Hrun; [|discriminate Hrun].
  assert (NoDup files) as Hnd.
  { repeat constructor; cbn; intuition discriminate. }
  destruct (linking_branch_trace
              OsPath.path_join OsPath.relpath OsPath.dirname OsPath.basename
              OsPath.replaceBaseExt OsPath.removeExt OsPath.getExt
              OsPath.commonPath OsPath.str_replace OsPath.is_substring
              OsPath.endswith OsPath.normpath
              files "Runs/003/tmp" "mrcs" false w w' d
              Hnd eq_refl Hrun) as (Hkeys & created & Hlog & Hincl & _).
  exists d, w', created. split; [reflexivity|]. split; [exact Hkeys|].
  split; [exact Hlog|]. split; [exact Hincl|].
  injection Hrun as _ <-. reflexivity.
Defined.

Lemma relocating_branch_witness :
  let files := ["Runs/004/extra/a.mrcs"; "Runs/004/extra/b.mrcs"] in
  let w := {| Assets.fs := OsPath.project; Assets.log := [] |} in
  exists d w',
    OsPath.convertBinaryFiles files "Runs/003/tmp" "mrcs" false w = Some (d, w')
    /\ Assets.isdir (Assets.fs w) "Runs/003/tmp" = true
    /\ Assets.isdir (Assets.fs w) (OsPath.commonPath files) = true
    /\ Dict.get d "Runs/004/extra/b.mrcs" = Some "Runs/003/tmp/input/b.mrcs"
    /\ Assets.log w' = [Assets.Symlink "../../004/extra" "Runs/003/tmp/input"]
    /\ Assets.lookup (Assets.fs w') "Runs/003/tmp/input"
       = Some (Assets.Link "Runs/004/extra")
    /\ Assets.path_exists (Assets.fs w') "Runs/003/tmp/input" = true.
Proof.
  intros files w.
  destruct (OsPath.convertBinaryFiles files "Runs/003/tmp" "mrcs" false w)
    as [[d w']|] eqn:Hrun; [|discriminate Hrun].
  exists d, w'. split; [reflexivity|].
  split; [reflexivity|]. split; [reflexivity|].
  destruct (relocating_branch
              OsPath.path_join OsPath.relpath OsPath.dirname OsPath.basename
              OsPath.replaceBaseExt OsPath.removeExt OsPath.getExt
              OsPath.commonPath OsPath.str_replace OsPath.is_substring
              OsPath.endswith OsPath.normpath
              files "Runs/003/tmp" "mrcs" false w w' d
              eq_refl Hrun) as (Hmap & _ & (rel & Hrel & Hw) & Hex).
  split; [|split; [|split; [|exact Hex]]].
  - rewrite (Hmap "Runs/004/extra/b.mrcs") by (cbn; auto). reflexivity.
  - rewrite Hw. injection Hrel as <-. reflexivity.
  - rewrite Hw. injection Hrel as <-. reflexivity.
Defined.

(** ** Optics groups: the ids and the store *)

Section OpticsIds.
Import Py Em Writer.

Lemma existsb_eqb_In x l : existsb (String.eqb x) l = true <-> In x l.
Proof.
  rewrite existsb_exists. split.
  - intros (y & Hy & E). apply String.eqb_eq in E. now subst.
  - intros H. exists x. split; [exact H|apply String.eqb_refl].
Qed.

Lemma first_seen_In l :
  forall seen x, In x seen \/ In x l -> In x (first_seen seen l).
Proof.
  induction l as [|y l IH]; intros seen x; cbn [first_seen].
  - intros [H|[]]. exact H.
  - intros H. destruct (existsb (String.eqb y) seen) eqn:E.
    + apply IH. destruct H as [H|[<-|H]]; auto.
      left. now apply existsb_eqb_In.
    + apply IH. destruct H as [H|[<-|H]]; auto.
      * left. apply in_or_app. now left.
      * left. apply in_or_app. right. now left.
Qed.

Lemma position_bounds x l :
  In x l -> 1 <= position x l <= Z.of_nat (List.length l).
Proof.
  induction l as [|y l IH]; [intros []|].
  intros H. cbn [position List.length].
  destruct (String.eqb_spec y x) as [->|Hne]; [lia|].
  destruct H as [H|H]; [congruence|].
  rewrite (proj2 (existsb_eqb_In x l) H). specialize (IH H). lia.
Qed.

Lemma position_inj x y l :
  In x l -> In y l -> position x l = position y l -> x = y.
Proof.
  induction l as [|z l IH]; [intros []|].
  intros Hx Hy. cbn [position].
  destruct (String.eqb_spec z x) as [Ezx|Hzx];
    destruct (String.eqb_spec z y) as [Ezy|Hzy]; [congruence| | |].
  - destruct Hy as [Hy|Hy]; [congruence|].
    rewrite (proj2 (existsb_eqb_In y l) Hy).
    pose proof (position_bounds y l Hy). lia.
  - destruct Hx as [Hx|Hx]; [congruence|].
    rewrite (proj2 (existsb_eqb_In x l) Hx).
    pose proof (position_bounds x l Hx). lia.
  - destruct Hx as [Hx|Hx]; [congruence|].
    destruct Hy as [Hy|Hy]; [congruence|].
    rewrite (proj2 (existsb_eqb_In x l) Hx), (proj2 (existsb_eqb_In y l) Hy).
    intros E. apply IH; auto. lia.
Qed.

(** A stored entry sits at the position of its name among the keys. *)
Lemma dict_get_position {V} (d : Dict.t V) k v :
  Dict.get d k = Some v ->
  nth_error d (Z.to_nat (position k (Dict.keys d) - 1)) = Some (k, v).
Proof.
  induction d as [|[k' v'] d IH]; [discriminate|].
  cbn [Dict.get Dict.keys map fst position].
  destruct (String.eqb_spec k' k) as [->|Hne].
  - now intros [= ->].
  - intros H.
    assert (In k (Dict.keys d)) as Hin.
    { destruct (existsb (String.eqb k) (Dict.keys d)) eqn:E.
      - now apply existsb_eqb_In.
      - apply dict_get_None_keys in E. congruence. }
    unfold Dict.keys in Hin. rewrite (proj2 (existsb_eqb_In k _) Hin).
    pose proof (position_bounds k _ Hin) as Hb.
    replace (Z.to_nat (1 + position k (map fst d) - 1))
      with (S (Z.to_nat (position k (map fst d) - 1))) by lia.
    exact (IH H).
Qed.

(** Every stored group is filed under the name it carries. *)
#[local] Abbreviation named optics :=
  (forall name (entry : row),
      In (name, entry) optics ->
      Dict.get entry "rlnOpticsGroupName" = Some (VStr name)).

(** One call of the resolver: the writer is left as it was, or gets one
    more group, filed under the record's name and carrying that name. *)
Lemma getOpticsGroupNumber_step self img n self' :
  pixel_label (_imgLabelPixelSize self) = true ->
  getOpticsGroupNumber img self = Some (n, self') ->
  self' = self
  \/ exists entry,
       self' = set_optics self (_optics self ++ [(ogNameOf img, entry)])%list
       /\ Dict.get entry "rlnOpticsGroupName" = Some (VStr (ogNameOf img)).
Proof.
  intros Hl.
  destruct (Dict.get (_optics self) (ogNameOf img)) as [entry|] eqn:E.
  - unfold getOpticsGroupNumber, bind, get, put, ret, raise, Dict.mem.
    fold (ogNameOf img). rewrite E. cbn [negb].
    destruct (Dict.get entry "rlnOpticsGroup"); [|discriminate].
    intros [= _ <-]. now left.
  - unfold getOpticsGroupNumber, bind, get, put, ret, Dict.mem.
    fold (ogNameOf img). rewrite E. cbn [negb].
    rewrite (dict_set_absent _ _ _ E).
    intros [= _ <-]. right. eexists. split; [reflexivity|].
    apply pixel_label_cases in Hl.
    destruct Hl as [-> | ->]; destruct (mtfFile (getAcquisition img));
      reflexivity.
Qed.

Lemma set_optics_label self o :
  _imgLabelPixelSize (set_optics self o) = _imgLabelPixelSize self.
Proof. reflexivity. Qed.

Lemma resolve_all_named imgs :
  forall self ids self',
    pixel_label (_imgLabelPixelSize self) = true ->
    named (_optics self) ->
    resolve_all imgs self = Some (ids, self') ->
    named (_optics self').
Proof.
  induction imgs as [|img rest IH]; intros self ids self' Hl Hnamed;
    cbn [resolve_all].
  - unfold ret. now intros [= _ <-].
  - unfold bind.
    destruct (getOpticsGroupNumber img self) as [[n self1]|] eqn:E; [|discriminate].
    destruct (resolve_all rest self1) as [[ns self2]|] eqn:Erest; [|discriminate].
    unfold ret. intros [= _ <-].
    apply (getOpticsGroupNumber_step _ _ _ _ Hl) in E as [->|(entry & -> & Hname)].
    + eapply IH; eassumption.
    + eapply IH; [| |exact Erest].
      * exact Hl.
      * cbn [_optics set_optics]. intros name e Hin.
        apply in_app_or in Hin as [Hin|[[= <- <-]|[]]]; [now apply Hnamed|exact Hname].
Qed.

End OpticsIds.

(** X9.  In a write pass that starts with no group, any two records get
    the same optics-group id exactly when they are filed under the same
    name, the name being the record's group name, or
    ['DefaultOpticsGroup'] when that is absent or empty: the ids tell the
    names apart and nothing else. *)
Theorem optics_same_id_iff_same_name
        (self : Writer.Writer) (imgs : list Em.Image) :
  Writer.pixel_label (Writer._imgLabelPixelSize self) = true ->
  Writer._optics self = [] ->
  exists ids self',
    Writer.resolve_all imgs self = Some (ids, self')
    /\ List.length ids = List.length imgs
    /\ forall i j a b,
        nth_error imgs i = Some a -> nth_error imgs j = Some b ->
        (nth_error ids i = nth_error ids j
         <-> Py.or_str (Em.opticsGroupName (Em.getAcquisition a)) "DefaultOpticsGroup"
             = Py.or_str (Em.opticsGroupName (Em.getAcquisition b)) "DefaultOpticsGroup").
Proof.
  intros Hl Hempty.
  destruct (resolve_all_numbers imgs self Hl) as (self' & Hrun & Hkeys & Hnum).
  { rewrite Hempty. exact I. }
  rewrite Hempty in Hrun. cbn [Dict.keys map] in Hrun.
  eexists. exists self'. split; [exact Hrun|].
  split; [apply length_map|].
  intros i j a b Ha Hb. rewrite !nth_error_map, Ha, Hb. cbn [option_map].
  fold (Writer.ogNameOf a). fold (Writer.ogNameOf b).
  split.
  - intros [= E]. eapply position_inj; [| |exact E];
      apply first_seen_In; right; apply in_map; eapply nth_error_In; eassumption.
  - now intros ->.
Qed.

Lemma optics_same_id_iff_same_name_witness :
  let a := Fixtures.particle 1 (Fixtures.acquisition 300 None) 1 None in
  let b := Fixtures.particle 2 (Fixtures.acquisition 200 (Some "")) 1 None in
  let c := Fixtures.particle 3 (Fixtures.acquisition 300 (Some "DefaultOpticsGroup"))
                             2 None in
  exists ids self',
    Writer.resolve_all [a; b; c] (Fixtures.particles_writer None [])
    = Some (ids, self')
    /\ nth_error ids 0 = nth_error ids 1
    /\ nth_error ids 1 = nth_error ids 2.
Proof.
  intros a b c.
  destruct (optics_same_id_iff_same_name (Fixtures.particles_writer None [])
              [a; b; c] eq_refl eq_refl) as (ids & self' & Hrun & _ & Hsame).
  exists ids, self'. split; [exact Hrun|]. split.
  - apply (Hsame 0%nat 1%nat a b eq_refl eq_refl). reflexivity.
  - apply (Hsame 1%nat 2%nat b c eq_refl eq_refl). reflexivity.
Defined.

(** X10.  In a write pass that starts with no group, every id handed out
    refers to a group of the final store: the id [n] of a record lies
    between 1 and the number of groups, and the [n]-th group of the
    store (the [n]-th row of the optics table) is filed under the
    record's name and carries that name and the number [n]. *)
Theorem optics_ids_refer_to_store
        (self : Writer.Writer) (imgs : list Em.Image) :
  Writer.pixel_label (Writer._imgLabelPixelSize self) = true ->
  Writer._optics self = [] ->
  exists ids self',
    Writer.resolve_all imgs self = Some (ids, self')
    /\ forall i img,
        nth_error imgs i = Some img ->
        exists n entry,
          nth_error ids i = Some (Py.VInt n)
          /\ 1 <= n <= Dict.len (Writer._optics self')
          /\ nth_error (Writer._optics self') (Z.to_nat (n - 1))
             = Some (Writer.ogNameOf img, entry)
          /\ Dict.get entry "rlnOpticsGroup" = Some (Py.VInt n)
          /\ Dict.get entry "rlnOpticsGroupName"
             = Some (Py.VStr (Writer.ogNameOf img)).
Proof.
  intros Hl Hempty.
  destruct (resolve_all_numbers imgs self Hl) as (self' & Hrun & Hkeys & Hnum).
  { rewrite Hempty. exact I. }
  assert (forall name (entry : Py.row),
             In (name, entry) (Writer._optics self') ->
             Dict.get entry "rlnOpticsGroupName" = Some (Py.VStr name)) as Hnamed.
  { eapply resolve_all_named; [exact Hl| |exact Hrun].
    rewrite Hempty. intros name e []. }
  rewrite Hempty in Hrun, Hkeys. cbn [Dict.keys map] in Hrun, Hkeys.
  eexists. exists self'. split; [exact Hrun|].
  intros i img Hi.
  assert (In (Writer.ogNameOf img) (Dict.keys (Writer._optics self'))) as Hin.
  { rewrite Hkeys. apply first_seen_In. right. apply in_map.
    eapply nth_error_In, Hi. }
  destruct (dict_get_keys _ _ Hin) as (entry & Hget).
  exists (Writer.position (Writer.ogNameOf img) (Dict.keys (Writer._optics self'))), entry.
  pose proof (dict_get_position _ _ _ Hget) as Hnth.
  split; [rewrite nth_error_map, Hi, Hkeys; reflexivity|].
  split.
  { pose proof (position_bounds _ _ Hin) as Hb.
    unfold Dict.len. unfold Dict.keys in Hb. now rewrite length_map in Hb. }
  split; [exact Hnth|]. split.
  - rewrite (numbered_get _ _ _ _ Hnum Hget). do 2 f_equal; lia.
  - apply (Hnamed (Writer.ogNameOf img)). eapply nth_error_In, Hnth.
Qed.

Lemma optics_ids_refer_to_store_witness :
  let a := Fixtures.particle 1 (Fixtures.acquisition 300 None) 1 None in
  let b := Fixtures.particle 2 (Fixtures.acquisition 300 (Some "opticsGroup2")) 1 None in
  exists ids self' entry,
    Writer.resolve_all [a; b; a] (Fixtures.particles_writer None [])
    = Some (ids, self')
    /\ nth_error ids 1 = Some (Py.VInt 2)
    /\ nth_error (Writer._optics self') 1 = Some ("opticsGroup2", entry)
    /\ Dict.get entry "rlnOpticsGroup" = Some (Py.VInt 2).
Proof.
  intros a b.
  destruct (optics_ids_refer_to_store (Fixtures.particles_writer None [])
              [a; b; a] eq_refl eq_refl) as (ids & self' & Hrun & Hrefer).
  destruct (Hrefer 1%nat b eq_refl) as (n & entry & Hid & _ & Hnth & Hnum & _).
  assert (n = 2) as ->.
  { injection Hrun as <- _. cbn [nth_error map] in Hid. now injection Hid as <-. }
  exists ids, self', entry. auto.
Defined.

(** ** The rows the particle writer builds *)

Section WriterRows.
Import Py Geom Em Star Writer.

Variable NO_INDEX : Z.
Variable euler_from_matrix : mat4 -> vec3.
Variable linalg_inv : mat4 -> option mat4.
Variable WriterBase_ctfToRow : CTFModel -> Py.row -> Py.row.
Variable os_path_relpath : string -> string -> string.
Variable os_path_dirname : string -> string.
Variable convertBinaryFiles :
  list string -> string -> bool -> option (Dict.t string).

#[local] Abbreviation partToRow :=
  (Writer.partToRow NO_INDEX euler_from_matrix linalg_inv WriterBase_ctfToRow).
#[local] Abbreviation write_particles :=
  (Writer.write_particles NO_INDEX euler_from_matrix linalg_inv WriterBase_ctfToRow).
#[local] Abbreviation writeSetOfParticles :=
  (Writer.writeSetOfParticles NO_INDEX euler_from_matrix linalg_inv
     WriterBase_ctfToRow os_path_relpath os_path_dirname convertBinaryFiles).

(** The labels [_partToRow] writes after the image name, besides those
    of [_ctfToRow] and the extra labels. *)
#[local] Abbreviation tail_labels :=
  ["rlnRandomSubset"; "rlnOriginXAngst"; "rlnOriginYAngst"; "rlnOriginZAngst";
   "rlnAngleRot"; "rlnAngleTilt"; "rlnAnglePsi"; "rlnOpticsGroup"].

#[local] Ltac in_labels :=
  cbn [In]; repeat first [left; reflexivity | right].
#[local] Ltac not_in_labels :=
  let Hx := fresh "Hx" in
  cbn [In]; intros Hx;
  repeat (destruct Hx as [Hx|Hx]; [discriminate Hx|]); exact Hx.

(** [_setAttributes] writes under the labels of its list only. *)
Lemma setAttributes_other obj row attributes k :
  ~ In k attributes ->
  Dict.get (setAttributes obj row attributes) k = Dict.get row k.
Proof.
  unfold setAttributes.
  generalize ("_" ++ repr_list attributes) as label.
  intros label. revert row.
  induction attributes as [|attr l IH]; intros row Hk; cbn [fold_left];
    [reflexivity|].
  rewrite IH by (intros Hin; apply Hk; now right).
  destruct (Dict.get obj label); [|reflexivity].
  apply dict_get_set_other. intros ->. apply Hk. now left.
Qed.

Lemma call_setAlign_other m self alignment row row' k :
  ~ In k tail_labels ->
  call_setAlign euler_from_matrix linalg_inv m self alignment row = Some row' ->
  Dict.get row' k = Dict.get row k.
Proof.
  intros Hk.
  assert (forall l, In l tail_labels -> k <> l) as Hne
      by (intros l Hl ->; contradiction).
  destruct m; cbn [call_setAlign]; unfold align2DToRow, alignProjToRow;
    [|destruct (linalg_inv alignment); [|discriminate]];
    intros [= <-];
    rewrite !dict_get_set_other by (apply Hne; in_labels); reflexivity.
Qed.

(** The resolver changes nothing in the writer but the store. *)
Lemma getOpticsGroupNumber_state img self n self' :
  getOpticsGroupNumber img self = Some (n, self') ->
  exists o, self' = set_optics self o.
Proof.
  unfold getOpticsGroupNumber, bind, get, put, ret, raise.
  destruct (negb (Dict.mem (_optics self) _)).
  - intros [= _ <-]. eexists. reflexivity.
  - destruct (Dict.get (_optics self) _) as [entry|]; [|discriminate].
    destruct (Dict.get entry "rlnOpticsGroup"); [|discriminate].
    intros [= _ <-]. exists (_optics self). now destruct self.
Qed.

(** One call of [_partToRow]: the row once the image name is written,
    and what the rest of the call leaves of it. *)
Lemma partToRow_shape part row self row' self' :
  partToRow part row self = Some (row', self') ->
  exists row0 o,
    self' = set_counter (set_optics self o) (_counter self + 1)
    /\ Dict.get row0 "rlnImageName"
       = Some (VStr
                 (if truthy_str (outputStack self)
                  then Location.locationToRelion NO_INDEX (_counter self)
                                                 (_relOutputStack self)
                  else Location.locationToRelion NO_INDEX (fst (getLocation part))
                         match outputDir self with
                         | Some _ =>
                             kw_get (Dict.get (_filesDict self) (snd (getLocation part)))
                                    (snd (getLocation part))
                         | None => snd (getLocation part)
                         end))
    /\ (truthy_str (outputStack self) = true ->
        Dict.get row0 "rlnOriginalParticleName"
        = Some (VStr (Location.locationToRelion NO_INDEX (fst (getLocation part))
                                                (snd (getLocation part)))))
    /\ (getCoordinate part = None ->
        forall k,
          ~ In k ["rlnImageId"; "rlnOriginalParticleName"; "rlnImageName"] ->
          Dict.get row0 k = Dict.get row k)
    /\ (forall coord,
          getCoordinate part = Some coord ->
          Dict.get row0 "rlnCoordinateX" = Some (VInt (fst (getPosition coord)))
          /\ Dict.get row0 "rlnCoordinateY" = Some (VInt (snd (getPosition coord))))
    /\ (forall k,
          (forall ctf r, Dict.get (WriterBase_ctfToRow ctf r) k = Dict.get r k) ->
          ~ In k (_extraLabels self) ->
          ~ In k tail_labels ->
          Dict.get row' k = Dict.get row0 k).
Proof.
  unfold Writer.partToRow, bind, get, put, ret, raise.
  destruct (getLocation part) as [index fn]. cbn [fst snd].
  destruct (getCoordinate part) as [coord|] eqn:Hcoord;
    [destruct (getPosition coord) as [x y] eqn:Hpos|];
    destruct (truthy_str (outputStack self)) eqn:Hstack;
    try destruct (outputDir self) as [dir|] eqn:Hdir;
    cbv beta iota zeta;
    match goal with
    | |- context [Dict.set ?X "rlnImageName" ?V] =>
        remember (Dict.set X "rlnImageName" V) as row0 eqn:Hrow0
    end;
    intros H;
    (assert (forall k,
               (forall ctf r, Dict.get (WriterBase_ctfToRow ctf r) k = Dict.get r k) ->
               ~ In k (_extraLabels self) ->
               ~ In k tail_labels ->
               Dict.get row' k = Dict.get row0 k
               /\ exists o, self' = set_counter (set_optics self o) (_counter self + 1))
      as Htail;
     [ intros k Hctf Hextra Hk;
       assert (forall l, In l tail_labels -> k <> l) as Hne
           by (intros l Hl ->; contradiction);
       destruct (_setRandomSubset self);
       [destruct (Dict.get (attributes part) "_rlnRandomSubset"); [|discriminate H]|];
       (destruct (_setCtf self);
        [destruct (getCTF part); [|discriminate H]|]);
       (destruct (_setAlign self) as [m|];
        [destruct (getTransform part) as [alignment|]; [|discriminate H];
         unfold lift in H; revert H;
         destruct (call_setAlign _ _ _ _ _ _) as [aligned|] eqn:Halign;
         intros H; [|discriminate H];
         apply (call_setAlign_other _ _ _ _ _ _ Hk) in Halign|]);
       (destruct (getOpticsGroupNumber part self) as [[n s1]|] eqn:Hog;
        [|discriminate H]);
       apply getOpticsGroupNumber_state in Hog as (o & ->);
       injection H as <- <-;
       (split; [|exists o; reflexivity]);
       rewrite dict_get_set_other by (apply Hne; in_labels);
       rewrite setAttributes_other by exact Hextra;
       try rewrite Halign;
       rewrite ?Hctf;
       rewrite ?dict_get_set_other by (apply Hne; in_labels);
       reflexivity
     | ]).
  all: assert (exists o, self' = set_counter (set_optics self o) (_counter self + 1))
    as (o & Hself).
  all: try solve
    [ destruct (_setRandomSubset self);
      [destruct (Dict.get (attributes part) "_rlnRandomSubset"); [|discriminate H]|];
      (destruct (_setCtf self);
       [destruct (getCTF part); [|discriminate H]|]);
      (destruct (_setAlign self) as [m|];
       [destruct (getTransform part) as [alignment|]; [|discriminate H];
        unfold lift in H; revert H;
        destruct (call_setAlign _ _ _ _ _ _); intros H; [|discriminate H]|]);
      (destruct (getOpticsGroupNumber part self) as [[n s1]|] eqn:Hog;
       [|discriminate H]);
      apply getOpticsGroupNumber_state in Hog as (o & ->);
      injection H as _ <-; exists o; reflexivity ].
  all: exists row0, o; split; [exact Hself|].
  all: split; [rewrite Hrow0; now rewrite dict_get_set_same|].
  all: split;
    [ try discriminate; intros _; rewrite Hrow0;
      rewrite dict_get_set_other by discriminate; now rewrite dict_get_set_same |].
  all: split;
    [ try discriminate; intros _ k Hk; rewrite Hrow0;
      assert (forall l, In l ["rlnImageId"; "rlnOriginalParticleName"; "rlnImageName"]
                        -> k <> l) as Hne
          by (intros l Hl ->; contradiction);
      rewrite !dict_get_set_other by (apply Hne; in_labels); reflexivity |].
  all: split; [|intros k Hctf Hextra Hk; now apply Htail].
  all: try (intros coord0 [=]; fail).
  all: intros coord0 [= <-]; rewrite Hpos, Hrow0; cbn [fst snd].
  all: destruct (truthy_str (getMicName coord));
    [|destruct (truthy_int (getMicId coord))].
  all: rewrite ?dict_get_set_other by discriminate.
  all: rewrite !setAttributes_other by not_in_labels.
  all: split; [rewrite dict_get_set_other by discriminate|];
    now rewrite dict_get_set_same.
Qed.


(** X11.  The image name [_partToRow] writes.  With an output stack the
    row names slot [_counter] of that stack (relative to the star file)
    and keeps the particle's own location under
    [rlnOriginalParticleName]; without one it names the particle's own
    location, the file name going through the mapping of
    [convertBinaryFiles] when an output directory is set (a file that is
    not mapped keeps its name).  Either way the counter goes up by one. *)
Theorem partToRow_image_name
        (part : Image) (row : Py.row) (self : Writer.Writer)
        (row' : Py.row) (self' : Writer.Writer) :
  (forall ctf r k,
      In k ["rlnImageName"; "rlnOriginalParticleName"] ->
      Dict.get (WriterBase_ctfToRow ctf r) k = Dict.get r k) ->
  (forall k,
      In k ["rlnImageName"; "rlnOriginalParticleName"] ->
      ~ In k (_extraLabels self)) ->
  partToRow part row self = Some (row', self') ->
  let index := fst (getLocation part) in
  let fn := snd (getLocation part) in
  _counter self' = _counter self + 1
  /\ (truthy_str (outputStack self) = true ->
      Dict.get row' "rlnImageName"
      = Some (VStr (Location.locationToRelion NO_INDEX (_counter self)
                                              (_relOutputStack self)))
      /\ Dict.get row' "rlnOriginalParticleName"
         = Some (VStr (Location.locationToRelion NO_INDEX index fn)))
  /\ (truthy_str (outputStack self) = false ->
      Dict.get row' "rlnImageName"
      = Some (VStr (Location.locationToRelion NO_INDEX index
                      match outputDir self with
                      | Some _ => kw_get (Dict.get (_filesDict self) fn) fn
                      | None => fn
                      end))).
Proof.
  intros Hctf Hextra Hrun. cbv zeta.
  apply partToRow_shape in Hrun
    as (row0 & o & -> & Hname & Horig & _ & _ & Htail).
  split; [reflexivity|].
  assert (Dict.get row' "rlnImageName" = Dict.get row0 "rlnImageName") as E1.
  { apply Htail; [intros; apply Hctf; in_labels|apply Hextra; in_labels|].
    not_in_labels. }
  assert (Dict.get row' "rlnOriginalParticleName"
          = Dict.get row0 "rlnOriginalParticleName") as E2.
  { apply Htail; [intros; apply Hctf; in_labels|apply Hextra; in_labels|].
    not_in_labels. }
  rewrite E1, E2, Hname. split; intros Hstack; rewrite Hstack.
  - split; [reflexivity|now apply Horig].
  - reflexivity.
Qed.

(** X12.  The row dictionary is reused from one particle to the next and
    [_partToRow] never clears it: after a particle with a coordinate, a
    particle without one leaves [rlnCoordinateX] and [rlnCoordinateY] as
    the first one set them. *)
Theorem partToRow_keeps_coordinates
        (part1 part2 : Image) (coord : Coordinate) (row : Py.row)
        (self : Writer.Writer) (row1 : Py.row) (self1 : Writer.Writer)
        (row2 : Py.row) (self2 : Writer.Writer) :
  (forall ctf r k,
      In k ["rlnCoordinateX"; "rlnCoordinateY"] ->
      Dict.get (WriterBase_ctfToRow ctf r) k = Dict.get r k) ->
  (forall k,
      In k ["rlnCoordinateX"; "rlnCoordinateY"] ->
      ~ In k (_extraLabels self)) ->
  getCoordinate part1 = Some coord ->
  getCoordinate part2 = None ->
  partToRow part1 row self = Some (row1, self1) ->
  partToRow part2 row1 self1 = Some (row2, self2) ->
  Dict.get row2 "rlnCoordinateX" = Some (VInt (fst (getPosition coord)))
  /\ Dict.get row2 "rlnCoordinateY" = Some (VInt (snd (getPosition coord))).
Proof.
  intros Hctf Hextra Hc1 Hc2 Hrun1 Hrun2.
  apply partToRow_shape in Hrun1
    as (r1 & o1 & -> & _ & _ & _ & Hset & Htail1).
  apply partToRow_shape in Hrun2
    as (r2 & o2 & _ & _ & _ & Hkeep & _ & Htail2).
  destruct (Hset coord Hc1) as [Hx Hy].
  split.
  - rewrite Htail2;
      [|intros; apply Hctf; in_labels|apply Hextra; in_labels|not_in_labels].
    rewrite (Hkeep Hc2) by not_in_labels.
    rewrite Htail1;
      [exact Hx|intros; apply Hctf; in_labels|apply Hextra; in_labels|not_in_labels].
  - rewrite Htail2;
      [|intros; apply Hctf; in_labels|apply Hextra; in_labels|not_in_labels].
    rewrite (Hkeep Hc2) by not_in_labels.
    rewrite Htail1;
      [exact Hy|intros; apply Hctf; in_labels|apply Hextra; in_labels|not_in_labels].
Qed.

Lemma get_Some self a self' :
  Writer.get self = Some (a, self') -> a = self /\ self' = self.
Proof. unfold Writer.get. now intros [= <- <-]. Qed.

Lemma ret_Some {A} (x : A) self a self' :
  ret x self = Some (a, self') -> a = x /\ self' = self.
Proof. unfold ret. now intros [= <- <-]. Qed.

Lemma put_Some x self a self' :
  put x self = Some (a, self') -> self' = x.
Proof. unfold put. now intros [= _ <-]. Qed.

Lemma lift_Some {A} (x : option A) self a self' :
  lift x self = Some (a, self') -> x = Some a /\ self' = self.
Proof. unfold lift. destruct x; [now intros [= <- <-]|discriminate]. Qed.

Lemma postprocess_None img row self :
  _postprocessImageRow self = None ->
  postprocess img row self = Some (row, self).
Proof. intros H. unfold postprocess, bind, Writer.get, ret. now rewrite H. Qed.

(** The loop over the particles when there is an output stack and no
    callback: the lines written name consecutive slots of the stack. *)
Lemma write_particles_slots parts :
  forall partRow out self partRow' out' self',
    (forall ctf r, Dict.get (WriterBase_ctfToRow ctf r) "rlnImageName"
                   = Dict.get r "rlnImageName") ->
    truthy_str (outputStack self) = true ->
    _postprocessImageRow self = None ->
    ~ In "rlnImageName" (_extraLabels self) ->
    write_particles parts partRow out self = Some (partRow', out', self') ->
    exists rows,
      out' = (out ++ map RowValues rows)%list
      /\ List.length rows = List.length parts
      /\ (forall i vals,
             nth_error rows i = Some vals ->
             In (VStr (Location.locationToRelion NO_INDEX
                         (_counter self + Z.of_nat i) (_relOutputStack self)))
                vals)
      /\ _counter self' = _counter self + Z.of_nat (List.length parts).
Proof.
  induction parts as [|part rest IH];
    intros partRow out self partRow' out' self' Hctf Hstack Hpost Hextra;
    cbn [Writer.write_particles].
  - intros H. apply ret_Some in H as [[= <- <-] ->]. exists [].
    rewrite app_nil_r. split; [reflexivity|]. split; [reflexivity|].
    split; [intros [|i] vals [=]|cbn; lia].
  - intros H.
    apply bind_Some in H as (row1 & self1 & Hpart & H).
    apply bind_Some in H as (row2 & self2 & Hpp & H).
    apply partToRow_shape in Hpart
      as (row0 & o & -> & Hname & _ & _ & _ & Htail).
    rewrite postprocess_None in Hpp by exact Hpost. injection Hpp as <- <-.
    apply IH in H as (rows & -> & Hlen & Hslots & Hcount);
      [|exact Hctf|exact Hstack|exact Hpost|exact Hextra].
    cbn [_counter _relOutputStack set_counter set_optics] in Hslots, Hcount.
    exists (Dict.values row1 :: rows). rewrite <- app_assoc.
    split; [reflexivity|]. split; [cbn; congruence|]. split.
    + intros [|i] vals; cbn [nth_error].
      * intros [= <-]. apply (dict_get_In row1 "rlnImageName").
        rewrite Htail; [|exact Hctf|exact Hextra|not_in_labels].
        rewrite Hname, Hstack. do 3 f_equal. lia.
      * intros Hi. apply Hslots in Hi.
        replace (_counter self + Z.of_nat (S i))
          with (_counter self + 1 + Z.of_nat i) by lia.
        exact Hi.
    + rewrite Hcount. cbn [List.length]. lia.
Qed.

(** X13.  [writeSetOfParticles] with an output stack and no callback:
    the first particle goes through [_partToRow] once before the loop
    (slot 0, for the header), so the line of the [i]-th particle of the
    set, counted from 1, names slot [i] of the stack, by its path
    relative to the directory of the star file; the counter ends at the
    number of particles plus one. *)
Theorem output_stack_slots
        (partsSet : SetOfParticles) (starFile : string) (kwargs : Kwargs)
        (self : Writer.Writer) (out : list output) (self' : Writer.Writer)
        (stack : string) :
  (forall ctf r, Dict.get (WriterBase_ctfToRow ctf r) "rlnImageName"
                 = Dict.get r "rlnImageName") ->
  match kw_outputStack kwargs with
  | Some d => Some d
  | None => outputStack self
  end = Some stack ->
  stack <> "" ->
  kw_postprocessImageRow kwargs = None ->
  ~ In "rlnImageName" (kw_get (kw_extraLabels kwargs) []) ->
  writeSetOfParticles partsSet starFile kwargs self = Some (out, self') ->
  exists t1 t2 t3 cols rows opticsTable,
    out = ([Text t1; Text t2; TableName "particles"; Header cols]
           ++ map RowValues rows
           ++ [Text t3; StarTable "optics" opticsTable])%list
    /\ List.length rows = List.length (items partsSet)
    /\ (forall i vals,
           nth_error rows i = Some vals ->
           In (VStr (Location.locationToRelion NO_INDEX (1 + Z.of_nat i)
                       (os_path_relpath stack (os_path_dirname starFile))))
              vals)
    /\ _counter self' = 1 + Z.of_nat (List.length (items partsSet)).
Proof.
  intros Hctf Hstack Hne Hpost Hextra.
  assert (truthy_str (Some stack) = true) as Htruthy
      by (destruct stack; [congruence|reflexivity]).
  unfold Writer.writeSetOfParticles. intros H.
  apply bind_Some in H as (self0 & s0 & Hget0 & H). cbv zeta in H.
  apply get_Some in Hget0 as [-> ->].
  rewrite Hstack, Hpost in H. rewrite Htruthy in H. cbn [kw_get] in H.
  apply bind_Some in H as (filesDict & s1 & _ & H).
  apply bind_Some in H as (firstPart & s2 & _ & H).
  apply bind_Some in H as (setAlign & s3 & _ & H).
  apply bind_Some in H as (u & s4 & Hput & H).
  apply put_Some in Hput as ->.
  apply bind_Some in H as (partRow & s5 & Hfirst & H).
  apply partToRow_shape in Hfirst as (row0 & o & -> & _).
  apply bind_Some in H as (partRow' & s6 & Hpp & H).
  rewrite postprocess_None in Hpp by reflexivity. injection Hpp as <- <-.
  apply bind_Some in H as (self6 & s7 & Hget6 & H).
  apply get_Some in Hget6 as [-> ->].
  apply bind_Some in H as (firstOptics & s8 & Hl8 & H).
  apply lift_Some in Hl8 as [_ ->].
  apply bind_Some in H as (partsTable & s9 & Hl9 & H).
  apply lift_Some in Hl9 as [_ ->].
  apply bind_Some in H as ([row' out'] & s10 & Hloop & H).
  apply bind_Some in H as (self10 & s11 & Hget10 & H).
  apply get_Some in Hget10 as [-> ->].
  apply bind_Some in H as (opticsTable & s12 & Hl12 & H).
  apply lift_Some in Hl12 as [_ ->].
  apply ret_Some in H as [-> ->].
  apply write_particles_slots in Hloop as (rows & -> & Hlen & Hslots & Hcount);
    [|exact Hctf|exact Htruthy|reflexivity|].
  - cbn [_counter _relOutputStack set_counter set_optics] in Hslots, Hcount.
    do 3 eexists. exists (columns partsTable), rows, opticsTable.
    split; [now rewrite <- app_assoc|]. split; [exact Hlen|].
    split; [|rewrite Hcount; lia].
    intros i vals Hi. apply Hslots in Hi.
    replace (1 + Z.of_nat i) with (0 + 1 + Z.of_nat i) by lia. exact Hi.
  - cbn [_extraLabels set_counter set_optics]. intros Hin.
    apply in_app_or in Hin as [Hin|Hin]; [now apply Hextra|].
    revert Hin. not_in_labels.
Qed.

(** X14.  What [writeSetOfParticles] needs to return at all: a set with
    a first particle, an alignment other than [ALIGN_3D] (which raises),
    and, when an output directory is in force, a run of
    [convertBinaryFiles] that did not raise. *)
Theorem writeSetOfParticles_requirements
        (partsSet : SetOfParticles) (starFile : string) (kwargs : Kwargs)
        (self : Writer.Writer) (out : list output) (self' : Writer.Writer) :
  writeSetOfParticles partsSet starFile kwargs self = Some (out, self') ->
  items partsSet <> []
  /\ kw_get (kw_alignType kwargs) (getAlignment partsSet) <> ALIGN_3D
  /\ (forall d,
         match kw_outputDir kwargs with
         | Some d => Some d
         | None => outputDir self
         end = Some d ->
         convertBinaryFiles (getFiles partsSet) d
                            (kw_get (kw_forceConvert kwargs) false) <> None).
Proof.
  unfold Writer.writeSetOfParticles. intros H.
  apply bind_Some in H as (self0 & s0 & Hget0 & H). cbv zeta in H.
  apply get_Some in Hget0 as [-> ->].
  apply bind_Some in H as (filesDict & s1 & Hfiles & H).
  apply bind_Some in H as (firstPart & s2 & Hfirst & H).
  apply bind_Some in H as (setAlign & s3 & Halign & _).
  apply lift_Some in Hfirst as [Hfirst _].
  split; [intros E; rewrite E in Hfirst; discriminate Hfirst|].
  split.
  - intros E. rewrite E in Halign. discriminate Halign.
  - intros d Hd. rewrite Hd in Hfiles. apply lift_Some in Hfiles as [-> _].
    discriminate.
Qed.

End WriterRows.

Lemma partToRow_image_name_witness :
  exists row' self',
    Fixtures.partToRow (Fixtures.particle 7 (Fixtures.acquisition 300 None) 1 None)
                       [] StackFixtures.stack_writer
    = Some (row', self')
    /\ Writer._counter self' = 4
    /\ Dict.get row' "rlnImageName" = Some (Py.VStr "000003@particles.mrcs")
    /\ Dict.get row' "rlnOriginalParticleName"
       = Some (Py.VStr "000007@Runs/000002_Extract/extra/stack.mrcs").
Proof.
  assert (option_map (fun _ => tt)
            (Fixtures.partToRow
               (Fixtures.particle 7 (Fixtures.acquisition 300 None) 1 None)
               [] StackFixtures.stack_writer) = Some tt) as E by reflexivity.
  destruct (Fixtures.partToRow
              (Fixtures.particle 7 (Fixtures.acquisition 300 None) 1 None)
              [] StackFixtures.stack_writer) as [[row' self']|] eqn:Hrun;
    [|discriminate E].
  exists row', self'. split; [reflexivity|].
  destruct (partToRow_image_name 0 Tfs.euler_from_matrix Np.linalg_inv
              (fun _ row => row)
              (Fixtures.particle 7 (Fixtures.acquisition 300 None) 1 None)
              [] StackFixtures.stack_writer row' self'
              (fun _ _ _ _ => eq_refl) (fun _ _ H => H) Hrun)
    as (Hcount & Hstack & _).
  split; [exact Hcount|]. exact (Hstack eq_refl).
Defined.

Lemma partToRow_keeps_coordinates_witness :
  exists row1 self1 row2 self2,
    Fixtures.partToRow StackFixtures.picked_particle []
                       (Fixtures.particles_writer None [])
    = Some (row1, self1)
    /\ Fixtures.partToRow
         (Fixtures.particle 6 (Fixtures.acquisition 300 None) 1 None) row1 self1
       = Some (row2, self2)
    /\ Dict.get row2 "rlnCoordinateX" = Some (Py.VInt 10)
    /\ Dict.get row2 "rlnCoordinateY" = Some (Py.VInt 20).
Proof.
  assert (match Fixtures.partToRow StackFixtures.picked_particle []
                  (Fixtures.particles_writer None []) with
          | Some (row1, self1) =>
              option_map (fun _ => tt)
                (Fixtures.partToRow
                   (Fixtures.particle 6 (Fixtures.acquisition 300 None) 1 None)
                   row1 self1)
          | None => None
          end = Some tt) as E by reflexivity.
  destruct (Fixtures.partToRow StackFixtures.picked_particle []
              (Fixtures.particles_writer None []))
    as [[row1 self1]|] eqn:Hrun1; [|discriminate E].
  destruct (Fixtures.partToRow
              (Fixtures.particle 6 (Fixtures.acquisition 300 None) 1 None)
              row1 self1) as [[row2 self2]|] eqn:Hrun2; [|discriminate E].
  exists row1, self1, row2, self2. split; [reflexivity|]. split; [exact Hrun2|].
  assert (forall k, In k ["rlnCoordinateX"; "rlnCoordinateY"] ->
                    ~ In k (Writer._extraLabels (Fixtures.particles_writer None [])))
    as Hextra by (intros k _ H; exact H).
  exact (partToRow_keeps_coordinates 0 Tfs.euler_from_matrix Np.linalg_inv
           (fun _ row => row) StackFixtures.picked_particle
           (Fixtures.particle 6 (Fixtures.acquisition 300 None) 1 None)
           StackFixtures.picked [] (Fixtures.particles_writer None [])
           row1 self1 row2 self2
           (fun _ _ _ _ => eq_refl) Hextra eq_refl eq_refl Hrun1 Hrun2).
Defined.

Lemma output_stack_slots_witness :
  exists out self' rows,
    Fixtures.writeSetOfParticles Fixtures.two_particles
      "Runs/000003_Refine/extra/particles.star" StackFixtures.stack_kwargs
      (Fixtures.particles_writer None [])
    = Some (out, self')
    /\ Writer._counter self' = 3
    /\ List.length rows = 2%nat
    /\ (forall vals, nth_error rows 0 = Some vals ->
                     In (Py.VStr "000001@particles.mrcs") vals)
    /\ (forall vals, nth_error rows 1 = Some vals ->
                     In (Py.VStr "000002@particles.mrcs") vals).
Proof.
  assert (option_map (fun _ => tt)
            (Fixtures.writeSetOfParticles Fixtures.two_particles
               "Runs/000003_Refine/extra/particles.star" StackFixtures.stack_kwargs
               (Fixtures.particles_writer None [])) = Some tt) as E by reflexivity.
  destruct (Fixtures.writeSetOfParticles Fixtures.two_particles
              "Runs/000003_Refine/extra/particles.star" StackFixtures.stack_kwargs
              (Fixtures.particles_writer None []))
    as [[out self']|] eqn:Hrun; [|discriminate E].
  unfold Fixtures.writeSetOfParticles in Hrun.
  assert ("Runs/000003_Refine/extra/particles.mrcs" <> "") as Hne by discriminate.
  assert (~ In "rlnImageName"
            (Writer.kw_get (Writer.kw_extraLabels StackFixtures.stack_kwargs) []))
    as Hextra by (intros H; exact H).
  destruct (output_stack_slots 0 Tfs.euler_from_matrix Np.linalg_inv
              (fun _ row => row) OsPath.relpath_nonempty OsPath.dirname _
              Fixtures.two_particles "Runs/000003_Refine/extra/particles.star"
              StackFixtures.stack_kwargs (Fixtures.particles_writer None [])
              out self' "Runs/000003_Refine/extra/particles.mrcs"
              (fun _ _ => eq_refl) eq_refl Hne eq_refl Hextra Hrun)
    as (t1 & t2 & t3 & cols & rows & opticsTable & _ & Hlen & Hslots & Hcount).
  exists out, self', rows. split; [reflexivity|]. split; [exact Hcount|].
  split; [exact Hlen|]. split.
  - intros vals Hv. exact (Hslots 0%nat vals Hv).
  - intros vals Hv. exact (Hslots 1%nat vals Hv).
Defined.

Lemma writeSetOfParticles_requirements_witness :
  exists out self',
    Fixtures.writeSetOfParticles Fixtures.two_particles "particles.star"
      Fixtures.no_kwargs (Fixtures.particles_writer None [])
    = Some (out, self')
    /\ Writer.items Fixtures.two_particles <> []
    /\ Writer.kw_get (Writer.kw_alignType Fixtures.no_kwargs)
                     (Writer.getAlignment Fixtures.two_particles)
       <> Em.ALIGN_3D.
Proof.
  assert (option_map (fun _ => tt)
            (Fixtures.writeSetOfParticles Fixtures.two_particles "particles.star"
               Fixtures.no_kwargs (Fixtures.particles_writer None [])) = Some tt)
    as E by reflexivity.
  destruct (Fixtures.writeSetOfParticles Fixtures.two_particles "particles.star"
              Fixtures.no_kwargs (Fixtures.particles_writer None []))
    as [[out self']|] eqn:Hrun; [|discriminate E].
  unfold Fixtures.writeSetOfParticles in Hrun.
  destruct (writeSetOfParticles_requirements 0 Tfs.euler_from_matrix
              Np.linalg_inv (fun _ row => row) OsPath.relpath_nonempty OsPath.dirname _
              Fixtures.two_particles "particles.star" Fixtures.no_kwargs
              (Fixtures.particles_writer None []) out self' Hrun)
    as (Hitems & Halign & _).
  exists out, self'. split; [reflexivity|]. split; [exact Hitems|exact Halign].
Defined.

(** ** The reader over the rows of a table *)

Section ReaderFacts.
Import Py Geom Em Reader ReaderRun.
Open Scope R_scope.

Variable float_of_str : string -> option R.
Variable euler_matrix : R -> R -> R -> mat4.
Variable linalg_inv : mat4 -> option mat4.

#[local] Abbreviation _get := (Reader._get float_of_str).
#[local] Abbreviation call :=
  (Reader.call_setParticleTransform float_of_str euler_matrix linalg_inv).
#[local] Abbreviation read_transforms :=
  (ReaderRun.read_transforms float_of_str euler_matrix linalg_inv).

(** Once the attribute is bound to one of the private methods, a call
    leaves the binding, the alignment type and the pixel size alone. *)
Lemma call_decided self row self' t :
  setParticleTransform self <> setParticleTransform_m ->
  call self row = Some (self', t) ->
  setParticleTransform self' = setParticleTransform self
  /\ _alignType self' = _alignType self
  /\ _invPixelSize self' = _invPixelSize self.
Proof.
  unfold Reader.call_setParticleTransform.
  destruct (setParticleTransform self) eqn:Hb; [congruence| | |]; intros _.
  - intros [= <- _]. auto.
  - unfold setParticleTransform2D.
    destruct (_get row "rlnOriginXAngst"); [|discriminate].
    destruct (_get row "rlnOriginYAngst"); [|discriminate].
    destruct (_get row "rlnAnglePsi"); [|discriminate].
    cbn [option_map fst snd]. intros [= <- _]. cbn. auto.
  - unfold setParticleTransformProj.
    destruct (_get row "rlnOriginXAngst"); [|discriminate].
    destruct (_get row "rlnOriginYAngst"); [|discriminate].
    destruct (_get row "rlnOriginZAngst"); [|discriminate].
    destruct (_get row "rlnAngleRot"); [|discriminate].
    destruct (_get row "rlnAngleTilt"); [|discriminate].
    destruct (_get row "rlnAnglePsi"); [|discriminate].
    destruct (linalg_inv _); [|discriminate].
    cbn [option_map fst snd]. intros [= <- _]. cbn. auto.
Qed.

Lemma read_decided rows :
  forall self ts self',
    setParticleTransform self <> setParticleTransform_m ->
    read_transforms rows self = Some (ts, self') ->
    setParticleTransform self' = setParticleTransform self
    /\ _alignType self' = _alignType self
    /\ _invPixelSize self' = _invPixelSize self
    /\ List.length ts = List.length rows.
Proof.
  induction rows as [|row rest IH]; intros self ts self' Hb;
    cbn [ReaderRun.read_transforms].
  - intros [= <- <-]. auto.
  - destruct (call self row) as [[self1 t]|] eqn:E; [|discriminate].
    destruct (read_transforms rest self1) as [[ts1 self2]|] eqn:Erest;
      [|discriminate].
    intros [= <- <-].
    apply (call_decided _ _ _ _ Hb) in E as (Hb1 & Ha1 & Hi1).
    apply IH in Erest as (Hb2 & Ha2 & Hi2 & Hlen); [|congruence].
    cbn [List.length]. repeat split; congruence.
Qed.


(** The first call, on a reader whose attribute is still the
    dispatching method. *)
Lemma call_fresh a ips ang sh row :
  call (fresh a ips ang sh) row
  = match a with
    | ALIGN_NONE =>
        Some (rebind (fresh a ips ang sh) setParticleTransformNone_m false, None)
    | ALIGN_2D =>
        if hasAnyColumn row ALIGNMENT_LABELS
        then call (rebind (fresh a ips ang sh) setParticleTransform2D_m true) row
        else Some (rebind (fresh a ips ang sh) setParticleTransformNone_m false, None)
    | ALIGN_PROJ =>
        if hasAnyColumn row ALIGNMENT_LABELS
        then call (rebind (fresh a ips ang sh) setParticleTransformProj_m true) row
        else Some (rebind (fresh a ips ang sh) setParticleTransformNone_m false, None)
    | ALIGN_3D =>
        if hasAnyColumn row ALIGNMENT_LABELS then None
        else Some (rebind (fresh a ips ang sh) setParticleTransformNone_m false, None)
    end.
Proof.
  unfold Reader.call_setParticleTransform.
  destruct a; cbn [setParticleTransform fresh _alignType rebind];
    try reflexivity;
    destruct (hasAnyColumn row ALIGNMENT_LABELS); reflexivity.
Qed.

(** X15.  The reader decides how it sets transforms once, on the first
    row: whatever the later rows hold, the method bound at the end is
    the one chosen from the alignment type and from the presence of an
    alignment column in the first row, the alignment type and the pixel
    size are untouched, and every row got its answer. *)
Theorem reader_mode_fixed_by_first_row
        (a : alignType) (ips : R) (ang sh : vec3)
        (row : Py.row) (rest : list Py.row)
        (ts : list (option mat4)) (self' : Reader) :
  read_transforms (row :: rest) (fresh a ips ang sh) = Some (ts, self') ->
  setParticleTransform self'
  = match a with
    | ALIGN_NONE | ALIGN_3D => setParticleTransformNone_m
    | ALIGN_2D =>
        if hasAnyColumn row ALIGNMENT_LABELS
        then setParticleTransform2D_m else setParticleTransformNone_m
    | ALIGN_PROJ =>
        if hasAnyColumn row ALIGNMENT_LABELS
        then setParticleTransformProj_m else setParticleTransformNone_m
    end
  /\ (a = ALIGN_3D -> hasAnyColumn row ALIGNMENT_LABELS = false)
  /\ _alignType self' = a
  /\ _invPixelSize self' = ips
  /\ List.length ts = S (List.length rest).
Proof.
  cbn [ReaderRun.read_transforms]. rewrite call_fresh.
  assert (forall b zero self1 t,
             b <> setParticleTransform_m ->
             call (rebind (fresh a ips ang sh) b zero) row = Some (self1, t) ->
             setParticleTransform self1 = b
             /\ _alignType self1 = a /\ _invPixelSize self1 = ips) as Hstep.
  { intros b zero self1 t Hb E.
    apply call_decided in E as (E1 & E2 & E3); [|exact Hb]. auto. }
  assert (forall b self1 t,
             b <> setParticleTransform_m ->
             setParticleTransform self1 = b
             /\ _alignType self1 = a /\ _invPixelSize self1 = ips ->
             match read_transforms rest self1 with
             | Some (ts0, self'') => Some (t :: ts0, self'')
             | None => None
             end = Some (ts, self') ->
             setParticleTransform self' = b
             /\ _alignType self' = a /\ _invPixelSize self' = ips
             /\ List.length ts = S (List.length rest)) as Hrest.
  { intros b self1 t Hb (E1 & E2 & E3).
    destruct (read_transforms rest self1) as [[ts0 self'']|] eqn:E; [|discriminate].
    intros [= <- <-].
    apply read_decided in E as (F1 & F2 & F3 & F4); [|congruence].
    cbn [List.length]. repeat split; congruence. }
  destruct a.
  - intros H.
    apply (Hrest setParticleTransformNone_m) in H;
      [|discriminate|repeat split; reflexivity].
    destruct H as (H1 & H2 & H3 & H4). repeat split; auto; discriminate.
  - destruct (hasAnyColumn row ALIGNMENT_LABELS) eqn:Hcols.
    + destruct (call (rebind _ _ true) row) as [[self1 t]|] eqn:E; [|discriminate].
      apply Hstep in E; [|discriminate]. intros H.
      apply (Hrest setParticleTransform2D_m) in H; [|discriminate|exact E].
      destruct H as (H1 & H2 & H3 & H4). repeat split; auto; discriminate.
    + intros H.
      apply (Hrest setParticleTransformNone_m) in H;
        [|discriminate|repeat split; reflexivity].
      destruct H as (H1 & H2 & H3 & H4). repeat split; auto; discriminate.
  - destruct (hasAnyColumn row ALIGNMENT_LABELS) eqn:Hcols; [discriminate|].
    intros H.
    apply (Hrest setParticleTransformNone_m) in H;
      [|discriminate|repeat split; reflexivity].
    destruct H as (H1 & H2 & H3 & H4). repeat split; auto.
  - destruct (hasAnyColumn row ALIGNMENT_LABELS) eqn:Hcols.
    + destruct (call (rebind _ _ true) row) as [[self1 t]|] eqn:E; [|discriminate].
      apply Hstep in E; [|discriminate]. intros H.
      apply (Hrest setParticleTransformProj_m) in H; [|discriminate|exact E].
      destruct H as (H1 & H2 & H3 & H4). repeat split; auto; discriminate.
    + intros H.
      apply (Hrest setParticleTransformNone_m) in H;
        [|discriminate|repeat split; reflexivity].
      destruct H as (H1 & H2 & H3 & H4). repeat split; auto; discriminate.
Qed.



End ReaderFacts.

Section Reader2D.
Import Py Geom Em Reader ReaderRun.
Open Scope R_scope.

Variable float_of_str : string -> option R.
Variable linalg_inv : mat4 -> option mat4.

#[local] Abbreviation _get := (Reader._get float_of_str).
#[local] Abbreviation in_plane_of ips r t :=
  (exists x y psi,
      _get r "rlnOriginXAngst" = Some x
      /\ _get r "rlnOriginYAngst" = Some y
      /\ _get r "rlnAnglePsi" = Some psi
      /\ t = Some (Tfs.in_plane (cos (deg2rad psi)) (sin (deg2rad psi))
                                (x * ips) (y * ips))).

(** One call of the 2-D method on arrays whose untouched components are
    zero: the matrix is a rotation in the plane, and they stay zero. *)
Lemma setParticleTransform2D_in_plane self row self' M :
  v0 (_angles self) = 0 -> v1 (_angles self) = 0 -> v2 (_shifts self) = 0 ->
  setParticleTransform2D float_of_str Tfs.euler_matrix self row = Some (self', M) ->
  in_plane_of (_invPixelSize self) row (Some M)
  /\ v0 (_angles self') = 0 /\ v1 (_angles self') = 0 /\ v2 (_shifts self') = 0
  /\ setParticleTransform self' = setParticleTransform self
  /\ _invPixelSize self' = _invPixelSize self.
Proof.
  intros Ha0 Ha1 Hs2. unfold setParticleTransform2D.
  destruct (_get row "rlnOriginXAngst") as [x|]; [|discriminate].
  destruct (_get row "rlnOriginYAngst") as [y|]; [|discriminate].
  destruct (_get row "rlnAnglePsi") as [psi|]; [|discriminate].
  intros [= <- <-]. cbn [_angles _shifts setParticleTransform _invPixelSize].
  split; [|unfold v0, v1, v2 in *; cbn [fst snd]; auto].
  exists x, y, psi. repeat split. f_equal.
  unfold neg3, deg2rad3. cbn [v0 v1 v2 fst snd].
  rewrite Ha0, Ha1, Hs2.
  replace (- deg2rad 0) with 0 by (unfold deg2rad; ring).
  replace (- deg2rad (- psi)) with (deg2rad psi) by (unfold deg2rad; ring).
  rewrite euler_matrix_in_plane.
  unfold set_translation, Tfs.in_plane.
  cbn [m00 m01 m02 m03 m10 m11 m12 m13 m20 m21 m22 m23 m30 m31 m32 m33
       v0 v1 v2 fst snd].
  reflexivity.
Qed.

Lemma read_2D rows :
  forall self ts self',
    setParticleTransform self = setParticleTransform2D_m ->
    v0 (_angles self) = 0 -> v1 (_angles self) = 0 -> v2 (_shifts self) = 0 ->
    ReaderRun.read_transforms float_of_str Tfs.euler_matrix linalg_inv rows self
    = Some (ts, self') ->
    Forall2 (fun r t => in_plane_of (_invPixelSize self) r t) rows ts.
Proof.
  induction rows as [|row rest IH]; intros self ts self' Hb Ha0 Ha1 Hs2;
    cbn [ReaderRun.read_transforms].
  - intros [= <- _]. constructor.
  - unfold Reader.call_setParticleTransform. rewrite Hb.
    destruct (setParticleTransform2D float_of_str Tfs.euler_matrix self row)
      as [[self1 M]|] eqn:E; [|discriminate].
    cbn [option_map fst snd].
    destruct (ReaderRun.read_transforms float_of_str Tfs.euler_matrix linalg_inv rest self1)
      as [[ts1 self2]|] eqn:Erest; [|discriminate].
    intros [= <- _].
    apply setParticleTransform2D_in_plane in E
      as (HM & Ha0' & Ha1' & Hs2' & Hb' & Hips); auto.
    constructor; [exact HM|].
    rewrite <- Hips. eapply IH; [congruence| | | |exact Erest]; assumption.
Qed.

(** X18.  In 2-D mode, with [euler_matrix] as [transformations.py] has
    it, every particle gets a rotation in the plane with a shift in the
    plane, made from the three cells [rlnOriginXAngst],
    [rlnOriginYAngst] and [rlnAnglePsi] of its own row only (a missing
    cell reads as 0): the angle is [rlnAnglePsi] in degrees and the
    shifts are divided by the pixel size.  The other alignment columns,
    the rows before, and what the two arrays held at the start play no
    part. *)
Theorem reader_2D_in_plane
        (ips : R) (ang sh : vec3) (row : Py.row) (rest : list Py.row)
        (ts : list (option mat4)) (self' : Reader) :
  hasAnyColumn row ALIGNMENT_LABELS = true ->
  ReaderRun.read_transforms float_of_str Tfs.euler_matrix linalg_inv (row :: rest)
                            (fresh ALIGN_2D ips ang sh)
  = Some (ts, self') ->
  Forall2
    (fun r t =>
       exists x y psi,
         _get r "rlnOriginXAngst" = Some x
         /\ _get r "rlnOriginYAngst" = Some y
         /\ _get r "rlnAnglePsi" = Some psi
         /\ t = Some (Tfs.in_plane (cos (deg2rad psi)) (sin (deg2rad psi))
                                   (x * ips) (y * ips)))
    (row :: rest) ts.
Proof.
  intros Hcols H.
  assert (ReaderRun.read_transforms float_of_str Tfs.euler_matrix linalg_inv (row :: rest)
            (rebind (fresh ALIGN_2D ips ang sh) setParticleTransform2D_m true)
          = Some (ts, self')) as H'.
  { cbn [ReaderRun.read_transforms] in H |- *.
    rewrite call_fresh, Hcols in H. exact H. }
  apply read_2D in H'; auto.
Qed.

End Reader2D.

Lemma reader_mode_fixed_by_first_row_witness :
  let first := [("rlnImageName", Py.VStr "000001@a.mrcs")] in
  let later := [("rlnImageName", Py.VStr "000002@a.mrcs");
                ("rlnAnglePsi", Py.VFloat 30)] in
  exists ts self',
    ReaderRun.read_transforms PyStr.py_float Tfs.euler_matrix Np.linalg_inv [first; later]
      (ReaderRun.fresh Em.ALIGN_2D 1 (0, 0, 0)%R (0, 0, 0)%R)
    = Some (ts, self')
    /\ Reader.setParticleTransform self' = Reader.setParticleTransformNone_m
    /\ List.length ts = 2%nat.
Proof.
  intros first later.
  assert (option_map (fun _ => tt)
            (ReaderRun.read_transforms PyStr.py_float Tfs.euler_matrix Np.linalg_inv [first; later]
               (ReaderRun.fresh Em.ALIGN_2D 1 (0, 0, 0)%R (0, 0, 0)%R)) = Some tt)
    as E by reflexivity.
  destruct (ReaderRun.read_transforms PyStr.py_float Tfs.euler_matrix Np.linalg_inv [first; later]
              (ReaderRun.fresh Em.ALIGN_2D 1 (0, 0, 0)%R (0, 0, 0)%R))
    as [[ts self']|] eqn:Hrun; [|discriminate E].
  exists ts, self'. split; [reflexivity|].
  destruct (reader_mode_fixed_by_first_row PyStr.py_float Tfs.euler_matrix Np.linalg_inv
              Em.ALIGN_2D 1 (0, 0, 0)%R (0, 0, 0)%R first [later] ts self' Hrun)
    as (Hmode & _ & _ & _ & Hlen).
  split; [exact Hmode|exact Hlen].
Defined.


Lemma reader_2D_in_plane_witness :
  let first := [("rlnOriginXAngst", Py.VFloat 2); ("rlnAnglePsi", Py.VFloat 30);
                ("rlnAngleRot", Py.VFloat 45)] in
  exists ts self',
    ReaderRun.read_transforms PyStr.py_float Tfs.euler_matrix Np.linalg_inv [first]
      (ReaderRun.fresh Em.ALIGN_2D (1 / 2) (7, 8, 9)%R (4, 5, 6)%R)
    = Some (ts, self')
    /\ Forall2
         (fun r t =>
            exists x y psi,
              Reader._get PyStr.py_float r "rlnOriginXAngst" = Some x
              /\ Reader._get PyStr.py_float r "rlnOriginYAngst" = Some y
              /\ Reader._get PyStr.py_float r "rlnAnglePsi" = Some psi
              /\ t = Some (Tfs.in_plane (cos (Geom.deg2rad psi))
                                        (sin (Geom.deg2rad psi))
                                        (x * (1 / 2)) (y * (1 / 2)))%R)
         [first] ts.
Proof.
  intros first.
  assert (option_map (fun _ => tt)
            (ReaderRun.read_transforms PyStr.py_float Tfs.euler_matrix Np.linalg_inv [first]
               (ReaderRun.fresh Em.ALIGN_2D (1 / 2) (7, 8, 9)%R (4, 5, 6)%R))
          = Some tt) as E by reflexivity.
  destruct (ReaderRun.read_transforms PyStr.py_float Tfs.euler_matrix Np.linalg_inv [first]
              (ReaderRun.fresh Em.ALIGN_2D (1 / 2) (7, 8, 9)%R (4, 5, 6)%R))
    as [[ts self']|] eqn:Hrun; [|discriminate E].
  exists ts, self'. split; [reflexivity|].
  exact (reader_2D_in_plane PyStr.py_float Np.linalg_inv (1 / 2) (7, 8, 9)%R (4, 5, 6)%R
           first [] ts self' eq_refl Hrun).
Defined.

(** ** The round trips at concrete matrices *)

Section InPlaneInverse.
Import Geom.
Open Scope R_scope.

(** [euler_matrix(theta, 0, 0)] is the rotation by [theta] in the plane. *)
Lemma euler_matrix_first theta :
  Tfs.euler_matrix theta 0 0 = Tfs.in_plane (cos theta) (sin theta) 0 0.
Proof.
  unfold Tfs.euler_matrix, Tfs.in_plane.
  replace (- 0) with 0 by ring. rewrite sin_0, cos_0, cos_neg, sin_neg.
  apply mat4_eq; ring.
Qed.

(** The inverse of a rotation in the plane with a shift. *)
Lemma linalg_inv_in_plane c s x y :
  c * c + s * s = 1 ->
  Np.linalg_inv (Tfs.in_plane c s x y)
  = Some (Tfs.in_plane c (- s) (- (c * x + s * y)) (s * x - c * y)).
Proof.
  intros Hunit.
  assert (det (Tfs.in_plane c s x y) = 1) as Hdet.
  { transitivity (c * c + s * s); [|exact Hunit].
    unfold Tfs.in_plane, det, minor00, minor01, minor02, minor03, det3.
    cbn [m00 m01 m02 m03 m10 m11 m12 m13 m20 m21 m22 m23 m30 m31 m32 m33].
    ring. }
  apply linalg_inv_of_inverse; [rewrite Hdet; lra|].
  unfold Tfs.in_plane, matmul, identity.
  cbn [m00 m01 m02 m03 m10 m11 m12 m13 m20 m21 m22 m23 m30 m31 m32 m33].
  apply mat4_eq; try ring.
  - transitivity (c * c + s * s); [ring|exact Hunit].
  - transitivity ((1 - (c * c + s * s)) * x); [ring|rewrite Hunit; ring].
  - transitivity (c * c + s * s); [ring|exact Hunit].
  - transitivity ((1 - (c * c + s * s)) * y); [ring|rewrite Hunit; ring].
Qed.

(** For a rotation in the plane with a shift, the library routines obey
    the laws the projection round trip asks for. *)
Lemma in_plane_inverse_laws c s x y :
  c * c + s * s = 1 ->
  let M := Tfs.in_plane c s x y in
  let N := Tfs.in_plane c (- s) (- (c * x + s * y)) (s * x - c * y) in
  let e := Tfs.euler_from_matrix N in
  Np.linalg_inv M = Some N
  /\ Np.linalg_inv N = Some M
  /\ set_translation (Tfs.euler_matrix (v0 e) (v1 e) (v2 e))
                     (translation_from_matrix N) = N.
Proof.
  intros Hunit. cbv zeta.
  assert (c * c + - s * - s = 1) as Hunit'
      by (transitivity (c * c + s * s); [ring|exact Hunit]).
  split; [exact (linalg_inv_in_plane c s x y Hunit)|]. split.
  - rewrite (linalg_inv_in_plane _ _ _ _ Hunit').
    unfold Tfs.in_plane. f_equal. apply mat4_eq; try ring.
    + transitivity ((c * c + s * s) * x); [ring|rewrite Hunit; ring].
    + transitivity ((c * c + s * s) * y); [ring|rewrite Hunit; ring].
  - rewrite euler_from_matrix_in_plane_any. cbn [v0 v1 v2 fst snd].
    rewrite euler_matrix_first.
    destruct (in_plane_angle (- s) c Hunit') as [-> ->].
    reflexivity.
Qed.

End InPlaneInverse.

Lemma roundtrip_2D_witness :
  option_map snd
    (Reader.setParticleTransform2D PyStr.py_float Tfs.euler_matrix
       (ReaderRun.fresh Em.ALIGN_2D 1 (0, 0, 0)%R (0, 0, 0)%R)
       (Writer.align2DToRow Tfs.euler_from_matrix
          (Fixtures.particles_writer (Some Writer.align2DToRow_m) [])
          (Tfs.in_plane (-1) 0 2 3) []))
  = Some (Tfs.in_plane (-1) 0 2 3).
Proof.
  apply (roundtrip_2D PyStr.py_float
           (Fixtures.particles_writer (Some Writer.align2DToRow_m) [])
           (ReaderRun.fresh Em.ALIGN_2D 1 (0, 0, 0)%R (0, 0, 0)%R)
           (-1) 0 2 3).
  - lra.
  - unfold Fixtures.particles_writer, Writer._pixelSize. lra.
  - unfold ReaderRun.fresh, Fixtures.particles_writer, Reader._invPixelSize,
      Writer._pixelSize. lra.
  - reflexivity.
  - reflexivity.
Defined.

Lemma roundtrip_proj_witness :
  match Writer.alignProjToRow Tfs.euler_from_matrix Np.linalg_inv
          (Fixtures.particles_writer (Some Writer.alignProjToRow_m) [])
          (Tfs.in_plane 0 1 2 3) [] with
  | Some row =>
      option_map snd
        (Reader.setParticleTransformProj PyStr.py_float Tfs.euler_matrix Np.linalg_inv
           Fixtures.proj_reader row)
  | None => None
  end = Some (Tfs.in_plane 0 1 2 3).
Proof.
  assert (0 * 0 + 1 * 1 = 1)%R as Hunit by lra.
  destruct (in_plane_inverse_laws 0 1 2 3 Hunit) as (HN & Hinv & Heuler).
  apply (roundtrip_proj Tfs.euler_from_matrix Tfs.euler_matrix Np.linalg_inv
           PyStr.py_float
           (Fixtures.particles_writer (Some Writer.alignProjToRow_m) [])
           Fixtures.proj_reader (Tfs.in_plane 0 1 2 3) _ HN Hinv Heuler).
  - unfold Fixtures.particles_writer, Writer._pixelSize. lra.
  - unfold Fixtures.proj_reader, Fixtures.particles_writer,
      Reader._invPixelSize, Writer._pixelSize. lra.
Defined.

(** ** The first optics group, and the names the reader decodes *)

Section WriterStore.
Import Py Geom Em Star Writer.

Variable NO_INDEX : Z.
Variable euler_from_matrix : mat4 -> vec3.
Variable linalg_inv : mat4 -> option mat4.
Variable WriterBase_ctfToRow : CTFModel -> Py.row -> Py.row.
Variable os_path_relpath : string -> string -> string.
Variable os_path_dirname : string -> string.
Variable convertBinaryFiles :
  list string -> string -> bool -> option (Dict.t string).

#[local] Abbreviation partToRow :=
  (Writer.partToRow NO_INDEX euler_from_matrix linalg_inv WriterBase_ctfToRow).
#[local] Abbreviation write_particles :=
  (Writer.write_particles NO_INDEX euler_from_matrix linalg_inv WriterBase_ctfToRow).
#[local] Abbreviation writeSetOfParticles :=
  (Writer.writeSetOfParticles NO_INDEX euler_from_matrix linalg_inv
     WriterBase_ctfToRow os_path_relpath os_path_dirname convertBinaryFiles).

(** The resolver only appends to the store, and on an empty store it
    appends the group of the record. *)
Lemma getOpticsGroupNumber_grows img self n self' :
  getOpticsGroupNumber img self = Some (n, self') ->
  exists more,
    _optics self' = (_optics self ++ more)%list
    /\ (_optics self = [] -> exists entry, more = [(ogNameOf img, entry)]).
Proof.
  destruct (Dict.get (_optics self) (ogNameOf img)) as [entry|] eqn:E.
  - unfold getOpticsGroupNumber, bind, get, put, ret, raise, Dict.mem.
    fold (ogNameOf img). rewrite E. cbn [negb].
    destruct (Dict.get entry "rlnOpticsGroup"); [|discriminate].
    intros [= _ <-]. exists []. rewrite app_nil_r. split; [reflexivity|].
    intros Hempty. rewrite Hempty in E. discriminate E.
  - unfold getOpticsGroupNumber, bind, get, put, ret, Dict.mem.
    fold (ogNameOf img). rewrite E. cbn [negb].
    rewrite (dict_set_absent _ _ _ E).
    intros [= _ <-]. eexists. split; [reflexivity|]. intros _. eauto.
Qed.

Lemma partToRow_optics part row self row' self' :
  partToRow part row self = Some (row', self') ->
  exists more,
    _optics self' = (_optics self ++ more)%list
    /\ (_optics self = [] -> exists entry, more = [(ogNameOf part, entry)]).
Proof.
  unfold Writer.partToRow, bind, get, put, ret, raise.
  destruct (getLocation part) as [index fn].
  destruct (truthy_str (outputStack self));
    try destruct (outputDir self) as [dir|];
    cbv beta iota zeta; intros H;
    (destruct (_setRandomSubset self);
     [destruct (Dict.get (attributes part) "_rlnRandomSubset"); [|discriminate H]|]);
    (destruct (_setCtf self);
     [destruct (getCTF part); [|discriminate H]|]);
    (destruct (_setAlign self) as [m|];
     [destruct (getTransform part) as [alignment|]; [|discriminate H];
      unfold lift in H; revert H;
      destruct (call_setAlign _ _ _ _ _ _); intros H; [|discriminate H]|]);
    (destruct (getOpticsGroupNumber part self) as [[n s1]|] eqn:Hog;
     [|discriminate H]);
    apply getOpticsGroupNumber_grows in Hog as (more & Hmore & Hfirst);
    injection H as _ <-; exists more; (split; [exact Hmore|exact Hfirst]).
Qed.

Lemma postprocess_state img row self row' self' :
  postprocess img row self = Some (row', self') -> self' = self.
Proof.
  unfold postprocess, bind, Writer.get, ret.
  destruct (_postprocessImageRow self); now intros [= _ <-].
Qed.

Lemma write_particles_optics parts :
  forall partRow out self res self',
    write_particles parts partRow out self = Some (res, self') ->
    exists more, _optics self' = (_optics self ++ more)%list.
Proof.
  induction parts as [|part rest IH]; intros partRow out self res self';
    cbn [Writer.write_particles].
  - unfold ret. intros [= _ <-]. exists []. now rewrite app_nil_r.
  - intros H.
    apply bind_Some in H as (row1 & self1 & Hpart & H).
    apply bind_Some in H as (row2 & self2 & Hpp & H).
    apply partToRow_optics in Hpart as (m1 & Hm1 & _).
    apply postprocess_state in Hpp as ->.
    apply IH in H as (m2 & Hm2).
    exists (m1 ++ m2)%list. now rewrite Hm2, Hm1, <- app_assoc.
Qed.

(** X21.  [writeSetOfParticles] gives the first particle the
    acquisition of the set before it builds the first row, so the first
    optics group of the store (the first row of the optics table) is
    filed under the group name of the set's acquisition, or
    ['DefaultOpticsGroup'] when that is absent or empty, whatever group
    the particles themselves belong to. *)
Theorem first_optics_group_from_set
        (partsSet : SetOfParticles) (starFile : string) (kwargs : Kwargs)
        (self : Writer.Writer) (out : list output) (self' : Writer.Writer) :
  writeSetOfParticles partsSet starFile kwargs self = Some (out, self') ->
  exists entry rest,
    _optics self'
    = (or_str (opticsGroupName (set_getAcquisition partsSet)) "DefaultOpticsGroup",
       entry) :: rest.
Proof.
  unfold Writer.writeSetOfParticles. intros H.
  apply bind_Some in H as (self0 & s0 & Hget0 & H). cbv zeta in H.
  apply get_Some in Hget0 as [-> ->].
  apply bind_Some in H as (filesDict & s1 & _ & H).
  apply bind_Some in H as (firstPart & s2 & _ & H).
  apply bind_Some in H as (setAlign & s3 & _ & H).
  apply bind_Some in H as (u & s4 & Hput & H).
  apply put_Some in Hput as ->.
  apply bind_Some in H as (partRow & s5 & Hfirst & H).
  apply partToRow_optics in Hfirst as (m1 & Hm1 & Hone).
  destruct (Hone eq_refl) as (entry & ->).
  cbn [_optics app] in Hm1. unfold ogNameOf in Hm1. cbn [getAcquisition] in Hm1.
  apply bind_Some in H as (partRow' & s6 & Hpp & H).
  apply postprocess_state in Hpp as ->.
  apply bind_Some in H as (self6 & s7 & Hget6 & H).
  apply get_Some in Hget6 as [-> ->].
  apply bind_Some in H as (firstOptics & s8 & Hl8 & H).
  apply lift_Some in Hl8 as [_ ->].
  apply bind_Some in H as (partsTable & s9 & Hl9 & H).
  apply lift_Some in Hl9 as [_ ->].
  apply bind_Some in H as ([row' out'] & s10 & Hloop & H).
  apply bind_Some in H as (self10 & s11 & Hget10 & H).
  apply get_Some in Hget10 as [-> ->].
  apply bind_Some in H as (opticsTable & s12 & Hl12 & H).
  apply lift_Some in Hl12 as [_ ->].
  apply ret_Some in H as [_ ->].
  apply write_particles_optics in Hloop as (m2 & Hm2).
  rewrite Hm1 in Hm2. cbn [app] in Hm2. exists entry, m2. exact Hm2.
Qed.

(** X22.  Without an output stack, the image name [_partToRow] writes
    is read back by [relionToLocation] as the index of the particle and
    its file name (the name [convertBinaryFiles] mapped it to, when an
    output directory is set), provided that name holds no ['@']. *)
Theorem written_name_decodes
        (part : Image) (row : Py.row) (self : Writer.Writer)
        (row' : Py.row) (self' : Writer.Writer) :
  (forall ctf r, Dict.get (WriterBase_ctfToRow ctf r) "rlnImageName"
                 = Dict.get r "rlnImageName") ->
  ~ In "rlnImageName" (_extraLabels self) ->
  truthy_str (outputStack self) = false ->
  let fn := snd (getLocation part) in
  let newFn := match outputDir self with
               | Some _ => kw_get (Dict.get (_filesDict self) fn) fn
               | None => fn
               end in
  PyStr.contains_char "@" newFn = false ->
  partToRow part row self = Some (row', self') ->
  exists name,
    Dict.get row' "rlnImageName" = Some (VStr name)
    /\ Location.relionToLocation NO_INDEX name
       = Some (fst (getLocation part), newFn).
Proof.
  intros Hctf Hextra Hstack fn newFn Hat Hrun.
  apply partToRow_shape in Hrun
    as (row0 & o & _ & Hname & _ & _ & _ & Htail).
  rewrite Hstack in Hname. eexists. split.
  - rewrite Htail; [exact Hname|exact Hctf|exact Hextra|].
    cbn [In]. intros Hx.
    repeat (destruct Hx as [Hx|Hx]; [discriminate Hx|]). exact Hx.
  - now apply relionToLocation_locationToRelion.
Qed.

End WriterStore.

Lemma first_optics_group_from_set_witness :
  exists out self' entry rest,
    Fixtures.writeSetOfParticles StackFixtures.regrouped_particles
      "particles.star" Fixtures.no_kwargs (Fixtures.particles_writer None [])
    = Some (out, self')
    /\ Writer._optics self' = ("DefaultOpticsGroup", entry) :: rest.
Proof.
  assert (option_map (fun _ => tt)
            (Fixtures.writeSetOfParticles StackFixtures.regrouped_particles
               "particles.star" Fixtures.no_kwargs
               (Fixtures.particles_writer None [])) = Some tt) as E by reflexivity.
  destruct (Fixtures.writeSetOfParticles StackFixtures.regrouped_particles
              "particles.star" Fixtures.no_kwargs
              (Fixtures.particles_writer None []))
    as [[out self']|] eqn:Hrun; [|discriminate E].
  unfold Fixtures.writeSetOfParticles in Hrun.
  destruct (first_optics_group_from_set 0 Tfs.euler_from_matrix Np.linalg_inv
              (fun _ row => row) OsPath.relpath_nonempty OsPath.dirname _
              StackFixtures.regrouped_particles "particles.star"
              Fixtures.no_kwargs (Fixtures.particles_writer None [])
              out self' Hrun) as (entry & rest & Hstore).
  exists out, self', entry, rest. split; [reflexivity|exact Hstore].
Defined.

Lemma written_name_decodes_witness :
  exists row' self' name,
    Fixtures.partToRow (Fixtures.particle 7 (Fixtures.acquisition 300 None) 1 None)
                       [] (Fixtures.particles_writer None [])
    = Some (row', self')
    /\ Dict.get row' "rlnImageName" = Some (Py.VStr name)
    /\ Location.relionToLocation 0 name
       = Some (7, "Runs/000002_Extract/extra/stack.mrcs").
Proof.
  assert (option_map (fun _ => tt)
            (Fixtures.partToRow
               (Fixtures.particle 7 (Fixtures.acquisition 300 None) 1 None)
               [] (Fixtures.particles_writer None [])) = Some tt) as E by reflexivity.
  destruct (Fixtures.partToRow
              (Fixtures.particle 7 (Fixtures.acquisition 300 None) 1 None)
              [] (Fixtures.particles_writer None [])) as [[row' self']|] eqn:Hrun;
    [|discriminate E].
  assert (~ In "rlnImageName"
            (Writer._extraLabels (Fixtures.particles_writer None [])))
    as Hextra by (intros H; exact H).
  destruct (written_name_decodes 0 Tfs.euler_from_matrix Np.linalg_inv
              (fun _ row => row)
              (Fixtures.particle 7 (Fixtures.acquisition 300 None) 1 None)
              [] (Fixtures.particles_writer None []) row' self'
              (fun _ _ => eq_refl) Hextra eq_refl eq_refl Hrun)
    as (name & Hname & Hdec).
  exists row', self', name. split; [reflexivity|]. split; [exact Hname|exact Hdec].
Defined.
